(** * sprite-tools: the layout and placement core of [generateSpriteFromDirectory]

    The development embeds lines 70-147 of [src/main.js]: the computation of
    the grid size, of the cell and sheet dimensions, the size check, the
    placement loop and the two output files.

    Numbers.  Every JavaScript number is an IEEE 754 binary64 value.  The
    variables of the modelled code that hold integers ([imageCount], widths,
    heights, [padding], [maxSize]) are represented by [Z], as sharp and
    [parseInt] deliver them for valid images and numeric options.
    [Math.ceil(Math.sqrt(imageCount))] and [Math.floor(i / gridSize)] are
    evaluated in binary64 with the reference operations of [SpecFloat].  For
    the sums and products of the layout the embedding comes in two layers,
    which share the records, the grid size, the row and the column.

    The exact layer ([maxCellWidth], [spriteWidth], [x], [y], [loop] and
    [generateSpriteFromDirectory] at top level) computes them in [Z].  It is
    the layout as long as no value reaches [2 ^ 53], which is the case of
    every sheet that sharp can create, and it is where the geometry of the
    placement is stated.  Its run throws where [toBuffer], [toFile] and
    [writeFileSync] do.

    Module [Node] is the function as Node.js evaluates it: [+], [*], [>] and
    [Math.max] are those of binary64, and the run has the two further places
    where the program can throw, the call [Math.max(...array)], which the
    engine rejects when the array is too long for its stack, and
    [sharp({ create })], which rejects a canvas whose size is not a positive
    integer.  The lemmas [node_maxCellWidth_exact] to [node_y_exact] show
    that the two layers compute the same numbers below [2 ^ 53].

    Input.  The modelled code starts from [imagesMetadata], the array that
    lines 49-68 fill from the directory listing; the listing, the decoding
    and the command line are outside.  The calls into sharp and the file
    system that can throw are parameters of the model.  The filter of the
    listing (lines 29-31), the loop that fills [imagesMetadata] (lines 49-68)
    and the percentage of line 154 are modelled on their own further down,
    with the functions of [path] and sharp as parameters. *)

From Stdlib Require Import ZArith Lia Floats.SpecFloat.
From stdpp Require Import gmap strings list fin_maps.

Local Open Scope Z_scope.

(** ** Binary64 arithmetic *)

Module Float64.

Definition prec : Z := 53.
Definition emax : Z := 1024.

(** The double that holds the integer [n] (exact for [|n| < 2 ^ 53]). *)
Definition of_int (n : Z) : spec_float := binary_normalize prec emax n 0 false.

Definition sqrt (x : spec_float) : spec_float := SFsqrt prec emax x.

Definition div (x y : spec_float) : spec_float := SFdiv prec emax x y.

(** Largest integer not above a double, for [Math.floor].  [Z.shiftl] by a
    negative amount is the flooring right shift, and both zeros give [0].
    On NaN and the infinities JavaScript returns the argument itself; the
    model returns [0] there, and [sqrt_of_int_finite] and
    [div_of_int_finite] show that the program only meets finite values. *)
Definition floor (x : spec_float) : Z :=
  match x with
  | S754_finite s m e => Z.shiftl (cond_Zopp s (Zpos m)) e
  | _ => 0
  end.

Definition ceil (x : spec_float) : Z := - floor (SFopp x).

End Float64.

(** [Math.sqrt], [Math.ceil], [Math.floor] and [/] on integer-valued numbers. *)
Definition Math_sqrt (n : Z) : spec_float := Float64.sqrt (Float64.of_int n).
Definition Math_ceil (x : spec_float) : Z := Float64.ceil x.
Definition Math_floor (x : spec_float) : Z := Float64.floor x.
Definition number_div (a b : Z) : spec_float :=
  Float64.div (Float64.of_int a) (Float64.of_int b).

(** [Math.max(...xs)] in the exact layer: the largest element.  With no
    argument JavaScript yields [-Infinity]; the program leaves at lines 33-36
    when there is no image, so the value for [[]] is never used.  The call
    itself, which the engine rejects when there are too many arguments, is
    part of the run of [Node]. *)
Definition Math_max (xs : list Z) : Z :=
  match xs with
  | [] => 0
  | x :: xs' => foldl Z.max x xs'
  end.

(** ** Data *)

Record Options := {
  name : string;
  padding : Z;
  maxSize : Z
}.

(** [{ x, y, width, height }], the value stored in [positions]. *)
Record Position := {
  pos_x : Z;
  pos_y : Z;
  pos_width : Z;
  pos_height : Z
}.

(** The object written to the [.json] file (lines 139-145).  The keys of
    [images] are file names that passed the extension filter of lines 28-30,
    so none of them is an array index or [__proto__] and the object behaves
    as a finite map; the order in which [JSON.stringify] prints the keys is
    not represented. *)
Record JsonData := {
  json_spriteWidth : Z;
  json_spriteHeight : Z;
  json_gridSize : Z;
  json_imageCount : Z;
  json_images : gmap string Position
}.

(** What the spinner and the console print.  The progress bars and the
    colours are left out; the utilization percentage of the summary is
    determined by its first two fields. *)
Inductive message :=
  | ScanningImageDirectory
  | NoImagesFound
  | FoundImages (n : Z)
  | DimensionsExceedMaximum (w h max : Z)
  | CalculatedLayout (g : Z)
  | SpriteDimensions (w h : Z)
  | SavingSpriteImage
  | SpriteImageSaved (file : string)
  | GeneratingPositionData
  | PositionDataSaved (file : string)
  | Completed
  | Summary (count cells w h cw ch pad : Z)
  | ErrorMessage.

Inductive console_event :=
  | spinner_start (m : message)
  | spinner_succeed (m : message)
  | spinner_fail (m : message)
  | console_log (m : message).

(** How a computation stops early: [process.exit(code)], or an exception
    on its way to the [catch] of lines 161-164. *)
Inductive abort :=
  | ProcessExit (code : Z)
  | Thrown.

Section Core.

(** The decoded image handle ([sharp(imgPath)]) and its pixel buffer. *)
Context {Image Buffer : Type}.

Record ImageMeta := {
  path : string;
  filename : string;
  width : Z;
  height : Z;
  image : Image
}.

(** [{ input, left, top }], an element of [composites]. *)
Record Composite := {
  input : Buffer;
  left : Z;
  top : Z
}.

(** [sharp({ create: { width, height, channels: 4, background } })
    .composite(composites)]: the transparent canvas and what is drawn on it. *)
Record SpriteImage := {
  create_width : Z;
  create_height : Z;
  composited : list Composite
}.

Inductive file_content :=
  | PngFile (img : SpriteImage)
  | JsonFile (doc : JsonData).

(** The files written so far, oldest first, and the console. *)
Record world := {
  files : list (string * file_content);
  console : list console_event
}.

(** *** The monad of the function body: state and early exit *)

Definition M (A : Type) : Type := world -> world * (abort + A).

Definition ret {A} (a : A) : M A := fun w => (w, inr a).

Definition bind {A B} (c : M A) (k : A -> M B) : M B :=
  fun w =>
    match c w with
    | (w', inr a) => k a w'
    | (w', inl e) => (w', inl e)
    end.

Definition emit (ev : console_event) : M unit :=
  fun w => ({| files := files w; console := console w ++ [ev] |}, inr tt).

Definition write (file : string) (c : file_content) : M unit :=
  fun w => ({| files := files w ++ [(file, c)]; console := console w |}, inr tt).

Definition process_exit {A} (code : Z) : M A :=
  fun w => (w, inl (ProcessExit code)).

Definition throw {A} : M A := fun w => (w, inl Thrown).

(** [try { body } catch (error) { handler }]: [process.exit] is not an
    exception and passes through. *)
Definition try_catch {A} (body handler : M A) : M A :=
  fun w =>
    match body w with
    | (w', inl Thrown) => handler w'
    | r => r
    end.

Declare Scope M_scope.
Notation "x ← c ; k" := (bind c (fun x => k))
  (at level 20, c at level 100, k at level 200, only parsing) : M_scope.
Notation "c ;; k" := (bind c (fun _ => k))
  (at level 100, k at level 200, only parsing, right associativity) : M_scope.
Local Open Scope M_scope.

(** *** The environment: sharp and the file system *)

(** [await imgMeta.image.toBuffer()]; [None] when the promise rejects. *)
Variable toBuffer : Image -> option Buffer.
(** Whether [sprite.composite(composites).toFile(file)] resolves. *)
Variable toFile_ok : SpriteImage -> string -> bool.
(** Whether [fs.writeFileSync(file, ...)] returns. *)
Variable writeFileSync_ok : string -> bool.
(** [path.join]. *)
Variable path_join : string -> string -> string.

Definition toFile (img : SpriteImage) (file : string) : M unit :=
  if toFile_ok img file then write file (PngFile img) else throw.

Definition writeFileSync (file : string) (doc : JsonData) : M unit :=
  if writeFileSync_ok file then write file (JsonFile doc) else throw.

(** *** Lines 70-76: the layout, in exact integers *)

Section Layout.

Variable imagesMetadata : list ImageMeta.
Variable options : Options.

Definition imageCount : Z := Z.of_nat (length imagesMetadata).
Definition gridSize : Z := Math_ceil (Math_sqrt imageCount).
Definition totalCells : Z := gridSize * gridSize.
Definition maxCellWidth : Z :=
  Math_max (width <$> imagesMetadata) + padding options.
Definition maxCellHeight : Z :=
  Math_max (height <$> imagesMetadata) + padding options.
Definition spriteWidth : Z := gridSize * maxCellWidth.
Definition spriteHeight : Z := gridSize * maxCellHeight.

(** *** Lines 110-128: the placement loop *)

Definition row (i : Z) : Z := Math_floor (number_div i gridSize).
Definition col (i : Z) : Z := Z.rem i gridSize.
Definition x (i : Z) : Z := col i * maxCellWidth.
Definition y (i : Z) : Z := row i * maxCellHeight.

Record loop_state := {
  composites : list Composite;
  positions : gmap string Position
}.

(** One iteration, for index [i] and [imgMeta = imagesMetadata[i]]. *)
Definition loop_body (i : Z) (imgMeta : ImageMeta) (st : loop_state)
  : option loop_state :=
  match toBuffer (image imgMeta) with
  | None => None
  | Some buf =>
      Some {| composites :=
                composites st ++ [{| input := buf; left := x i; top := y i |}];
              positions :=
                <[filename imgMeta :=
                    {| pos_x := x i; pos_y := y i;
                       pos_width := width imgMeta;
                       pos_height := height imgMeta |}]> (positions st) |}
  end.

(** [for (let i = 0; i < imageCount; i++)]: the state before the iteration
    of index [i], with [rest] the elements of [imagesMetadata] from index
    [i] on. *)
Fixpoint loop (i : Z) (rest : list ImageMeta) (st : loop_state)
  : option loop_state :=
  match rest with
  | [] => Some st
  | imgMeta :: rest' =>
      match loop_body i imgMeta st with
      | None => None
      | Some st' => loop (i + 1) rest' st'
      end
  end.

(** The two object literals of the loop body, at index [i]. *)
Definition composite_at (i : Z) (buf : Buffer) : Composite :=
  {| input := buf; left := x i; top := y i |}.

Definition position_at (i : Z) (imgMeta : ImageMeta) : Position :=
  {| pos_x := x i; pos_y := y i;
     pos_width := width imgMeta; pos_height := height imgMeta |}.

Definition sprite (cs : list Composite) : SpriteImage :=
  {| create_width := spriteWidth;
     create_height := spriteHeight;
     composited := cs |}.

Definition jsonData (ps : gmap string Position) : JsonData :=
  {| json_spriteWidth := spriteWidth;
     json_spriteHeight := spriteHeight;
     json_gridSize := gridSize;
     json_imageCount := imageCount;
     json_images := ps |}.

(** The test of line 78. *)
Definition size_exceeded : bool :=
  (spriteWidth >? maxSize options) || (spriteHeight >? maxSize options).

(** *** The function, from the list of decoded images on

    [imagesMetadata] is the array filled by lines 49-68 from the directory
    listing; it has one element per path of [imagePaths], so the test of
    line 33 is a test on its length.  Creating the output directory
    (lines 23-25) writes no file and is left out.  This is the run of the
    exact layer, for arrays that the engine accepts at line 73 and sheets
    that sharp accepts at line 101; the run with these two exits is
    [Node.generateSpriteFromDirectory]. *)

Definition generateSpriteFromDirectory (outputDir : string) : M unit :=
  emit (spinner_start ScanningImageDirectory) ;;
  try_catch
    ((if imageCount =? 0 then
        emit (spinner_fail NoImagesFound) ;;
        process_exit 1
      else ret tt) ;;
     emit (spinner_succeed (FoundImages imageCount)) ;;
     (if (spriteWidth >? maxSize options) || (spriteHeight >? maxSize options) then
        emit (spinner_fail
                (DimensionsExceedMaximum spriteWidth spriteHeight (maxSize options))) ;;
        process_exit 1
      else ret tt) ;;
     emit (spinner_succeed (CalculatedLayout gridSize)) ;;
     emit (spinner_succeed (SpriteDimensions spriteWidth spriteHeight)) ;;
     st ← (match loop 0 imagesMetadata
                    {| composites := []; positions := ∅ |} with
            | Some st => ret st
            | None => throw
            end) ;
     let spriteOutputPath := path_join outputDir (name options +:+ ".png") in
     let jsonOutputPath := path_join outputDir (name options +:+ ".json") in
     emit (spinner_start SavingSpriteImage) ;;
     toFile (sprite (composites st)) spriteOutputPath ;;
     emit (spinner_succeed (SpriteImageSaved spriteOutputPath)) ;;
     emit (spinner_start GeneratingPositionData) ;;
     writeFileSync jsonOutputPath (jsonData (positions st)) ;;
     emit (spinner_succeed (PositionDataSaved jsonOutputPath)) ;;
     emit (console_log Completed) ;;
     emit (console_log
             (Summary imageCount totalCells spriteWidth spriteHeight
                      maxCellWidth maxCellHeight (padding options))))
    (emit (spinner_fail ErrorMessage) ;;
     process_exit 1).

(** What a run that reaches line 160 has printed. *)
Definition success_events (spriteOutputPath jsonOutputPath : string)
  : list console_event :=
  [spinner_start ScanningImageDirectory;
   spinner_succeed (FoundImages imageCount);
   spinner_succeed (CalculatedLayout gridSize);
   spinner_succeed (SpriteDimensions spriteWidth spriteHeight);
   spinner_start SavingSpriteImage;
   spinner_succeed (SpriteImageSaved spriteOutputPath);
   spinner_start GeneratingPositionData;
   spinner_succeed (PositionDataSaved jsonOutputPath);
   console_log Completed;
   console_log (Summary imageCount totalCells spriteWidth spriteHeight
                        maxCellWidth maxCellHeight (padding options))].

End Layout.

(** What the layout and the mapping read of a record. *)
Definition record_key (imgMeta : ImageMeta) : string * Z * Z :=
  (filename imgMeta, width imgMeta, height imgMeta).


(** A run fails with the message [m]: [spinner.fail(m)] is the last thing
    printed and the process exits with code 1. *)
Definition fails_with (m : message) (out : world * (abort + unit)) : Prop :=
  out.2 = inl (ProcessExit 1) /\ last (console out.1) = Some (spinner_fail m).

End Core.

(** Where a composite is drawn. *)
Definition offsets {Buffer : Type} (cs : list (@Composite Buffer)) : list (Z * Z) :=
  (fun c => (left c, top c)) <$> cs.

(** ** Sample inputs

    Image handles and buffers are numbers; every image decodes and every
    write succeeds, except where stated. *)

Definition sample_meta (f : string) (w h : Z) (im : nat) : @ImageMeta nat :=
  {| path := "images/" +:+ f; filename := f; width := w; height := h; image := im |}.

Definition sample_options (p m : Z) : Options :=
  {| name := "sprite"; padding := p; maxSize := m |}.

Definition sample_join (a b : string) : string := a +:+ "/" +:+ b.

Definition sample_world : @world nat := {| files := []; console := [] |}.

Definition sample_run (imagesMetadata : list (@ImageMeta nat)) (options : Options)
  : @world nat * (abort + unit) :=
  generateSpriteFromDirectory (Buffer := nat) Some (fun _ _ => true) (fun _ => true)
    sample_join imagesMetadata options "output" sample_world.

Definition sample_loop (imagesMetadata : list (@ImageMeta nat)) (options : Options)
  : option (@loop_state nat) :=
  loop (Buffer := nat) Some imagesMetadata options 0 imagesMetadata
    {| composites := []; positions := ∅ |}.

Definition one_image : list (@ImageMeta nat) := [sample_meta "a.png" 100 100 0].

Definition four_images : list (@ImageMeta nat) :=
  [sample_meta "a.png" 50 40 0; sample_meta "b.png" 30 50 1;
   sample_meta "c.png" 10 10 2; sample_meta "d.png" 50 50 3].

Definition seven_images : list (@ImageMeta nat) :=
  imap (fun k f => sample_meta f (10 + Z.of_nat k) 20 k)
       ["a.png"; "b.png"; "c.png"; "d.png"; "e.png"; "f.png"; "g.png"].

(** Two records with the same file name, and a third one. *)
Definition twins : list (@ImageMeta nat) :=
  [sample_meta "a.png" 10 10 0; sample_meta "a.png" 20 30 1;
   sample_meta "b.png" 5 5 2].

(** ** Lines 27-68: from the directory listing to [imagesMetadata] *)

Definition imageExtensions : list string :=
  [".png"; ".jpg"; ".jpeg"; ".webp"; ".gif"].

Section Collector.

Context {Image : Type}.

(** [path.extname], [String.prototype.toLowerCase], [path.join] and
    [path.basename] of Node.js. *)
Variable extname : string -> string.
Variable toLowerCase : string -> string.
Variable path_join : string -> string -> string.
Variable basename : string -> string.
(** [sharp(imgPath)], and [await image.metadata()]: the width and the height,
    or [None] when it throws. *)
Variable sharp : string -> Image.
Variable metadata : Image -> option (Z * Z).

(** Lines 29-31, for [files = fs.readdirSync(inputDir)]. *)
Definition imagePaths (inputDir : string) (files : list string) : list string :=
  path_join inputDir <$>
    filter (fun file => toLowerCase (extname file) ∈ imageExtensions) files.

(** Lines 49-68: the loop over [imagePaths], with [rest] the paths still to
    visit and [imagesMetadata] the array filled so far.  [inl file] is the
    exit of lines 62-66, whose message names [file]. *)
Fixpoint collect (rest : list string) (imagesMetadata : list (@ImageMeta Image))
  : string + list (@ImageMeta Image) :=
  match rest with
  | [] => inr imagesMetadata
  | imgPath :: rest' =>
      let image := sharp imgPath in
      match metadata image with
      | Some (w, h) =>
          collect rest'
            (imagesMetadata ++
             [{| path := imgPath; filename := basename imgPath;
                 width := w; height := h; image := image |}])
      | None => inl (basename imgPath)
      end
  end.

End Collector.

(** Sample versions of the functions of [path]: the text after the last
    slash (character 47), and the text from the last dot (character 46)
    on. *)
Fixpoint has_char (c : Ascii.ascii) (s : string) : bool :=
  match s with
  | EmptyString => false
  | String c' s' => Ascii.eqb c c' || has_char c s'
  end.

Fixpoint sample_basename (s : string) : string :=
  match s with
  | EmptyString => EmptyString
  | String c s' =>
      if has_char (Ascii.ascii_of_nat 47) s' then sample_basename s'
      else if Ascii.eqb c (Ascii.ascii_of_nat 47) then s' else s
  end.

Fixpoint sample_extname (s : string) : string :=
  match s with
  | EmptyString => EmptyString
  | String c s' =>
      if has_char (Ascii.ascii_of_nat 46) s' then sample_extname s'
      else if Ascii.eqb c (Ascii.ascii_of_nat 46) then s else EmptyString
  end.

Definition sample_toLowerCase (s : string) : string := s.

Definition sample_sharp (imgPath : string) : nat := String.length imgPath.

(** Every image is 10 wide and as high as its handle, except a handle of
    [0], which does not decode. *)
Definition sample_metadata (image : nat) : option (Z * Z) :=
  match image with
  | O => None
  | S _ => Some (10, Z.of_nat image)
  end.

Definition sample_files : list string :=
  ["b.png"; "notes.txt"; "a.jpg"; "cc.gif"; "Makefile"].

(** ** Line 154: the utilization percentage *)

(** [Math.round]: the integer nearest to a double, the larger one in a tie,
    that is the floor of [x + 1/2] taken exactly.  As for [Float64.floor],
    NaN and the infinities are not represented. *)
Definition Math_round (x : spec_float) : Z :=
  match x with
  | S754_finite s m e =>
      if 0 <=? e then Z.shiftl (cond_Zopp s (Zpos m)) e
      else Z.shiftr (2 * cond_Zopp s (Zpos m) + 2 ^ (- e)) (1 - e)
  | _ => 0
  end.

(** [*] on two doubles. *)
Definition number_mul (a b : spec_float) : spec_float :=
  SFmul Float64.prec Float64.emax a b.

(** [Math.round((imageCount / totalCells) * 100)]. *)
Definition utilization {Image : Type} (imagesMetadata : list (@ImageMeta Image)) : Z :=
  Math_round
    (number_mul (number_div (imageCount imagesMetadata) (totalCells imagesMetadata))
                (Float64.of_int 100)).

(** ** The function as Node.js evaluates it

    [+], [*], [>] and [Math.max] on doubles, and the two further places where
    a run can throw. *)

(** [+] and [>] on two doubles; [a > b] is false when one of them is NaN. *)
Definition number_add (a b : spec_float) : spec_float :=
  SFadd Float64.prec Float64.emax a b.

Definition number_gt (a b : spec_float) : bool := SFltb b a.

(** One step of [Math.max]: [highest] so far and the next argument. *)
Definition number_max (highest number : spec_float) : spec_float :=
  match SFcompare highest number with
  | None => S754_nan
  | Some Lt => number
  | Some Eq =>
      match highest, number with
      | S754_zero true, S754_zero false => number
      | _, _ => highest
      end
  | Some Gt => highest
  end.

(** The integer that a double is, if it is one: what a template literal or
    [JSON.stringify] prints for it. *)
Definition integer_value (x : spec_float) : option Z :=
  match x with
  | S754_zero _ => Some 0
  | S754_finite s m e =>
      if 0 <=? e then Some (cond_Zopp s (Zpos m) * 2 ^ e)
      else if Zpos m mod 2 ^ (- e) =? 0
           then Some (cond_Zopp s (Zpos m / 2 ^ (- e)))
           else None
  | _ => None
  end.

Module Node.

(** [Math.max(...xs)]: [-Infinity] for no argument, NaN as soon as one
    argument is NaN. *)
Definition Math_max (xs : list spec_float) : spec_float :=
  foldl number_max (S754_infinity true) xs.

(** The data of the exact layer, with a double wherever the program stores
    or prints the result of a sum or a product.  [imageCount] and [gridSize]
    stay in [Z]: the first is the length of an array, the second the result
    of [Math.ceil]. *)

(** [{ x, y, width, height }], the value stored in [positions]. *)
Record Position := {
  pos_x : spec_float;
  pos_y : spec_float;
  pos_width : Z;
  pos_height : Z
}.

(** The object written to the [.json] file (lines 139-145). *)
Record JsonData := {
  json_spriteWidth : spec_float;
  json_spriteHeight : spec_float;
  json_gridSize : Z;
  json_imageCount : Z;
  json_images : gmap string Position
}.

(** What the spinner and the console print. *)
Inductive message :=
  | ScanningImageDirectory
  | NoImagesFound
  | FoundImages (n : Z)
  | DimensionsExceedMaximum (w h max : spec_float)
  | CalculatedLayout (g : Z)
  | SpriteDimensions (w h : spec_float)
  | SavingSpriteImage
  | SpriteImageSaved (file : string)
  | GeneratingPositionData
  | PositionDataSaved (file : string)
  | Completed
  | Summary (count cells : Z) (w h cw ch pad : spec_float)
  | ErrorMessage.

Inductive console_event :=
  | spinner_start (m : message)
  | spinner_succeed (m : message)
  | spinner_fail (m : message)
  | console_log (m : message).

Section Core.

Context {Image Buffer : Type}.

(** [{ input, left, top }], an element of [composites]. *)
Record Composite := {
  input : Buffer;
  left : spec_float;
  top : spec_float
}.

(** The canvas of lines 101-108 and what [composite] draws on it. *)
Record SpriteImage := {
  create_width : spec_float;
  create_height : spec_float;
  composited : list Composite
}.

Inductive file_content :=
  | PngFile (img : SpriteImage)
  | JsonFile (doc : JsonData).

Record world := {
  files : list (string * file_content);
  console : list console_event
}.

(** The monad of the function body, as in the exact layer. *)
Definition M (A : Type) : Type := world -> world * (abort + A).

Definition ret {A} (a : A) : M A := fun w => (w, inr a).

Definition bind {A B} (c : M A) (k : A -> M B) : M B :=
  fun w =>
    match c w with
    | (w', inr a) => k a w'
    | (w', inl e) => (w', inl e)
    end.

Definition emit (ev : console_event) : M unit :=
  fun w => ({| files := files w; console := console w ++ [ev] |}, inr tt).

Definition write (file : string) (c : file_content) : M unit :=
  fun w => ({| files := files w ++ [(file, c)]; console := console w |}, inr tt).

Definition process_exit {A} (code : Z) : M A :=
  fun w => (w, inl (ProcessExit code)).

Definition throw {A} : M A := fun w => (w, inl Thrown).

Definition try_catch {A} (body handler : M A) : M A :=
  fun w =>
    match body w with
    | (w', inl Thrown) => handler w'
    | r => r
    end.

Declare Scope node_scope.
Notation "x ← c ; k" := (bind c (fun x => k))
  (at level 20, c at level 100, k at level 200, only parsing) : node_scope.
Notation "c ;; k" := (bind c (fun _ => k))
  (at level 100, k at level 200, only parsing, right associativity) : node_scope.
Local Open Scope node_scope.

(** The environment.  [toBuffer], [toFile_ok], [writeFileSync_ok] and
    [path_join] are those of the exact layer; [toFile_ok] stands for the
    whole of [sprite.composite(composites).toFile(file)], the checks that
    [composite] makes of the offsets included. *)
Variable toBuffer : Image -> option Buffer.
Variable toFile_ok : SpriteImage -> string -> bool.
Variable writeFileSync_ok : string -> bool.
Variable path_join : string -> string -> string.
(** Whether the engine accepts a call with that many arguments:
    [Math.max(...array)] throws a [RangeError] when the array is too long
    for the stack. *)
Variable spread_ok : nat -> bool.
(** Whether [sharp({ create: { width, height, channels, background } })]
    returns: sharp throws unless both are positive integers within its
    limits. *)
Variable create_ok : spec_float -> spec_float -> bool.

Definition toFile (img : SpriteImage) (file : string) : M unit :=
  if toFile_ok img file then write file (PngFile img) else throw.

Definition writeFileSync (file : string) (doc : JsonData) : M unit :=
  if writeFileSync_ok file then write file (JsonFile doc) else throw.

Section Layout.

Variable imagesMetadata : list (@ImageMeta Image).
Variable options : Options.

(** Lines 73-76.  [img.width], [options.padding] and [gridSize] are the
    doubles that hold these integers. *)
Definition maxCellWidth : spec_float :=
  number_add (Math_max ((fun img => Float64.of_int (width img)) <$> imagesMetadata))
             (Float64.of_int (padding options)).
Definition maxCellHeight : spec_float :=
  number_add (Math_max ((fun img => Float64.of_int (height img)) <$> imagesMetadata))
             (Float64.of_int (padding options)).
Definition spriteWidth : spec_float :=
  number_mul (Float64.of_int (gridSize imagesMetadata)) maxCellWidth.
Definition spriteHeight : spec_float :=
  number_mul (Float64.of_int (gridSize imagesMetadata)) maxCellHeight.

(** Lines 116-117, with [row] and [col] of lines 114-115. *)
Definition x (i : Z) : spec_float :=
  number_mul (Float64.of_int (col imagesMetadata i)) maxCellWidth.
Definition y (i : Z) : spec_float :=
  number_mul (Float64.of_int (row imagesMetadata i)) maxCellHeight.

Record loop_state := {
  composites : list Composite;
  positions : gmap string Position
}.

(** Lines 118-127: one iteration, for index [i] and
    [imgMeta = imagesMetadata[i]]. *)
Definition loop_body (i : Z) (imgMeta : ImageMeta) (st : loop_state)
  : option loop_state :=
  match toBuffer (image imgMeta) with
  | None => None
  | Some buf =>
      Some {| composites :=
                composites st ++ [{| input := buf; left := x i; top := y i |}];
              positions :=
                <[filename imgMeta :=
                    {| pos_x := x i; pos_y := y i;
                       pos_width := width imgMeta;
                       pos_height := height imgMeta |}]> (positions st) |}
  end.

(** Lines 113-128: the state before the iteration of index [i], with [rest]
    the elements of [imagesMetadata] from index [i] on. *)
Fixpoint loop (i : Z) (rest : list ImageMeta) (st : loop_state)
  : option loop_state :=
  match rest with
  | [] => Some st
  | imgMeta :: rest' =>
      match loop_body i imgMeta st with
      | None => None
      | Some st' => loop (i + 1) rest' st'
      end
  end.

(** The two object literals of the loop body, at index [i]. *)
Definition composite_at (i : Z) (buf : Buffer) : Composite :=
  {| input := buf; left := x i; top := y i |}.

Definition position_at (i : Z) (imgMeta : @ImageMeta Image) : Position :=
  {| pos_x := x i; pos_y := y i;
     pos_width := width imgMeta; pos_height := height imgMeta |}.

(** Lines 101-108 and 135, and lines 139-145. *)
Definition sprite (cs : list Composite) : SpriteImage :=
  {| create_width := spriteWidth;
     create_height := spriteHeight;
     composited := cs |}.

Definition jsonData (ps : gmap string Position) : JsonData :=
  {| json_spriteWidth := spriteWidth;
     json_spriteHeight := spriteHeight;
     json_gridSize := gridSize imagesMetadata;
     json_imageCount := imageCount imagesMetadata;
     json_images := ps |}.

(** The test of line 78. *)
Definition size_exceeded : bool :=
  number_gt spriteWidth (Float64.of_int (maxSize options))
  || number_gt spriteHeight (Float64.of_int (maxSize options)).

(** The function, from the array [imagesMetadata] on.  After the message of
    line 38 comes line 73, where the call of [Math.max] can throw (line 74
    makes the same call on an array of the same length); after the
    messages of lines 87-90 comes line 101, where sharp can reject the
    canvas.  Both exceptions reach the [catch] of lines 161-164. *)
Definition generateSpriteFromDirectory (outputDir : string) : M unit :=
  emit (spinner_start ScanningImageDirectory) ;;
  try_catch
    ((if imageCount imagesMetadata =? 0 then
        emit (spinner_fail NoImagesFound) ;;
        process_exit 1
      else ret tt) ;;
     emit (spinner_succeed (FoundImages (imageCount imagesMetadata))) ;;
     (if spread_ok (length imagesMetadata) then ret tt else throw) ;;
     (if number_gt spriteWidth (Float64.of_int (maxSize options))
         || number_gt spriteHeight (Float64.of_int (maxSize options)) then
        emit (spinner_fail
                (DimensionsExceedMaximum spriteWidth spriteHeight
                   (Float64.of_int (maxSize options)))) ;;
        process_exit 1
      else ret tt) ;;
     emit (spinner_succeed (CalculatedLayout (gridSize imagesMetadata))) ;;
     emit (spinner_succeed (SpriteDimensions spriteWidth spriteHeight)) ;;
     (if create_ok spriteWidth spriteHeight then ret tt else throw) ;;
     st ← (match loop 0 imagesMetadata
                    {| composites := []; positions := ∅ |} with
            | Some st => ret st
            | None => throw
            end) ;
     let spriteOutputPath := path_join outputDir (name options +:+ ".png") in
     let jsonOutputPath := path_join outputDir (name options +:+ ".json") in
     emit (spinner_start SavingSpriteImage) ;;
     toFile (sprite (composites st)) spriteOutputPath ;;
     emit (spinner_succeed (SpriteImageSaved spriteOutputPath)) ;;
     emit (spinner_start GeneratingPositionData) ;;
     writeFileSync jsonOutputPath (jsonData (positions st)) ;;
     emit (spinner_succeed (PositionDataSaved jsonOutputPath)) ;;
     emit (console_log Completed) ;;
     emit (console_log
             (Summary (imageCount imagesMetadata) (totalCells imagesMetadata)
                      spriteWidth spriteHeight maxCellWidth maxCellHeight
                      (Float64.of_int (padding options)))))
    (emit (spinner_fail ErrorMessage) ;;
     process_exit 1).

(** What a run that reaches line 160 has printed. *)
Definition success_events (spriteOutputPath jsonOutputPath : string)
  : list console_event :=
  [spinner_start ScanningImageDirectory;
   spinner_succeed (FoundImages (imageCount imagesMetadata));
   spinner_succeed (CalculatedLayout (gridSize imagesMetadata));
   spinner_succeed (SpriteDimensions spriteWidth spriteHeight);
   spinner_start SavingSpriteImage;
   spinner_succeed (SpriteImageSaved spriteOutputPath);
   spinner_start GeneratingPositionData;
   spinner_succeed (PositionDataSaved jsonOutputPath);
   console_log Completed;
   console_log (Summary (imageCount imagesMetadata) (totalCells imagesMetadata)
                        spriteWidth spriteHeight maxCellWidth maxCellHeight
                        (Float64.of_int (padding options)))].

End Layout.

(** A run fails with the message [m]: [spinner.fail(m)] is the last thing
    printed and the process exits with code 1. *)
Definition fails_with (m : message) (out : world * (abort + unit)) : Prop :=
  out.2 = inl (ProcessExit 1) /\ last (console out.1) = Some (spinner_fail m).

End Core.

End Node.

(** Sample environment of the binary64 runs: an engine that accepts up to
    125000 arguments in a call, and the check that the constructor of sharp
    makes of a new canvas, both dimensions integers above 0. *)
Definition sample_spread_ok (n : nat) : bool := Z.of_nat n <=? 125000.

Definition sample_create_ok (w h : spec_float) : bool :=
  match integer_value w, integer_value h with
  | Some a, Some b => (0 <? a) && (0 <? b)
  | _, _ => false
  end.

Definition node_sample_world : @Node.world nat :=
  {| Node.files := []; Node.console := [] |}.

Definition node_sample_run (imagesMetadata : list (@ImageMeta nat)) (options : Options)
  : @Node.world nat * (abort + unit) :=
  Node.generateSpriteFromDirectory (Buffer := nat) Some (fun _ _ => true) (fun _ => true)
    sample_join sample_spread_ok sample_create_ok imagesMetadata options "output"
    node_sample_world.

Definition node_sample_loop (imagesMetadata : list (@ImageMeta nat)) (options : Options)
  : option (@Node.loop_state nat) :=
  Node.loop (Buffer := nat) Some imagesMetadata options 0 imagesMetadata
    {| Node.composites := []; Node.positions := ∅ |}.

(** ** From the exact layer to binary64

    The values of the exact layer read as doubles: every number that the
    exact layer computes is replaced by the double that holds it. *)

Definition as_double_position (p : Position) : Node.Position :=
  {| Node.pos_x := Float64.of_int (pos_x p);
     Node.pos_y := Float64.of_int (pos_y p);
     Node.pos_width := pos_width p;
     Node.pos_height := pos_height p |}.

Definition as_double_json (doc : JsonData) : Node.JsonData :=
  {| Node.json_spriteWidth := Float64.of_int (json_spriteWidth doc);
     Node.json_spriteHeight := Float64.of_int (json_spriteHeight doc);
     Node.json_gridSize := json_gridSize doc;
     Node.json_imageCount := json_imageCount doc;
     Node.json_images := as_double_position <$> json_images doc |}.

Definition as_double_message (m : message) : Node.message :=
  match m with
  | ScanningImageDirectory => Node.ScanningImageDirectory
  | NoImagesFound => Node.NoImagesFound
  | FoundImages n => Node.FoundImages n
  | DimensionsExceedMaximum w h max =>
      Node.DimensionsExceedMaximum (Float64.of_int w) (Float64.of_int h)
        (Float64.of_int max)
  | CalculatedLayout g => Node.CalculatedLayout g
  | SpriteDimensions w h =>
      Node.SpriteDimensions (Float64.of_int w) (Float64.of_int h)
  | SavingSpriteImage => Node.SavingSpriteImage
  | SpriteImageSaved file => Node.SpriteImageSaved file
  | GeneratingPositionData => Node.GeneratingPositionData
  | PositionDataSaved file => Node.PositionDataSaved file
  | Completed => Node.Completed
  | Summary count cells w h cw ch pad =>
      Node.Summary count cells (Float64.of_int w) (Float64.of_int h)
        (Float64.of_int cw) (Float64.of_int ch) (Float64.of_int pad)
  | ErrorMessage => Node.ErrorMessage
  end.

Definition as_double_event (ev : console_event) : Node.console_event :=
  match ev with
  | spinner_start m => Node.spinner_start (as_double_message m)
  | spinner_succeed m => Node.spinner_succeed (as_double_message m)
  | spinner_fail m => Node.spinner_fail (as_double_message m)
  | console_log m => Node.console_log (as_double_message m)
  end.

Section As_double.

Context {Buffer : Type}.

Definition as_double_composite (c : @Composite Buffer) : @Node.Composite Buffer :=
  {| Node.input := input c;
     Node.left := Float64.of_int (left c);
     Node.top := Float64.of_int (top c) |}.

Definition as_double_sprite (img : @SpriteImage Buffer) : @Node.SpriteImage Buffer :=
  {| Node.create_width := Float64.of_int (create_width img);
     Node.create_height := Float64.of_int (create_height img);
     Node.composited := as_double_composite <$> composited img |}.

Definition as_double_file (c : @file_content Buffer) : @Node.file_content Buffer :=
  match c with
  | PngFile img => Node.PngFile (as_double_sprite img)
  | JsonFile doc => Node.JsonFile (as_double_json doc)
  end.

Definition as_double_world (w : @world Buffer) : @Node.world Buffer :=
  {| Node.files := (fun fc => (fc.1, as_double_file fc.2)) <$> files w;
     Node.console := as_double_event <$> console w |}.

Definition as_double_state (st : @loop_state Buffer) : @Node.loop_state Buffer :=
  {| Node.composites := as_double_composite <$> composites st;
     Node.positions := as_double_position <$> positions st |}.

End As_double.

(** * Facts *)

(** ** Binary64: the integer results of [ceil (sqrt n)] and [floor (i / g)] *)

Module Float64_facts.
  Import Float64.

Lemma digits2_pos_size p : digits2_pos p = Pos.size p.
Proof. induction p; simpl; congruence. Qed.

Lemma Zdigits2_log2 p : Zdigits2 (Zpos p) = Z.log2 (Zpos p) + 1.
Proof.
  simpl. rewrite digits2_pos_size.
  destruct p; simpl; lia.
Qed.

Lemma Zdigits2_bounds p :
  2 ^ (Zdigits2 (Zpos p) - 1) <= Zpos p < 2 ^ Zdigits2 (Zpos p).
Proof.
  rewrite Zdigits2_log2.
  replace (Z.log2 (Zpos p) + 1 - 1) with (Z.log2 (Zpos p)) by lia.
  apply Z.log2_spec. lia.
Qed.

Lemma Zdigits2_unique p d :
  2 ^ (d - 1) <= Zpos p < 2 ^ d -> Zdigits2 (Zpos p) = d.
Proof.
  intros H. rewrite Zdigits2_log2.
  assert (0 < d).
  { destruct (Z.lt_trichotomy d 0) as [Hd|[Hd|Hd]]; auto.
    - rewrite (Z.pow_neg_r 2 d) in H by lia. lia.
    - subst d. simpl in H. lia. }
  rewrite (Z.log2_unique (Zpos p) (d - 1)); try lia.
  replace (Z.succ (d - 1)) with d by lia. exact H.
Qed.

Lemma iter_xO_mul p k : Zpos (Pos.iter xO p k) = Zpos p * 2 ^ Zpos k.
Proof.
  induction k using Pos.peano_ind.
  - simpl. lia.
  - rewrite Pos.iter_succ, Pos2Z.inj_succ, Z.pow_succ_r by lia.
    rewrite Pos2Z.inj_xO, IHk. lia.
Qed.

Lemma fexp_normal e : -1021 <= e -> fexp prec emax e = e - 53.
Proof. unfold fexp, emin, prec, emax. lia. Qed.

Lemma shr_m_of_loc m l : shr_m (shr_record_of_loc m l) = m.
Proof. destruct l as [|[]]; reflexivity. Qed.

Lemma loc_of_shr_of_loc m l : loc_of_shr_record (shr_record_of_loc m l) = l.
Proof. destruct l as [|[]]; reflexivity. Qed.

Lemma round_nearest_even_range m l :
  m <= round_nearest_even m l <= m + 1.
Proof. destruct l as [|[]]; simpl; try destruct (Z.even m); lia. Qed.

Lemma shr_fexp_53 m e l :
  Zdigits2 (Zpos m) = 53 -> -1074 <= e ->
  shr_fexp prec emax (Zpos m) e l = (shr_record_of_loc (Zpos m) l, e).
Proof.
  intros Hd He. unfold shr_fexp. rewrite Hd.
  replace (fexp prec emax (53 + e) - e) with 0
    by (unfold fexp, emin, prec, emax; lia).
  reflexivity.
Qed.

Lemma shr_fexp_54 m e l :
  Zdigits2 (Zpos m) = 54 -> -1075 <= e ->
  shr_fexp prec emax (Zpos m) e l = (shr_1 (shr_record_of_loc (Zpos m) l), e + 1).
Proof.
  intros Hd He. unfold shr_fexp. rewrite Hd.
  replace (fexp prec emax (54 + e) - e) with 1
    by (unfold fexp, emin, prec, emax; lia).
  reflexivity.
Qed.

Lemma shr_m_shr_1 m l :
  shr_m (shr_1 (shr_record_of_loc (Zpos m) l)) = Zpos m / 2.
Proof.
  rewrite <- Z.div2_div.
  destruct l as [|[]]; destruct m; reflexivity.
Qed.

Lemma round_aux_53 m e l :
  Zdigits2 (Zpos m) = 53 -> -1074 <= e <= 970 ->
  exists M E,
    binary_round_aux prec emax false (Zpos m) e l = S754_finite false M E /\
    ((E = e /\ Zpos M = round_nearest_even (Zpos m) l) \/
     (E = e + 1 /\ Zpos M = 2 ^ 52 /\ round_nearest_even (Zpos m) l = 2 ^ 53)).
Proof.
  intros Hd He. unfold binary_round_aux.
  rewrite shr_fexp_53 by lia.
  rewrite shr_m_of_loc, loc_of_shr_of_loc.
  pose proof (round_nearest_even_range (Zpos m) l) as Hr.
  pose proof (Zdigits2_bounds m) as Hb. rewrite Hd in Hb.
  destruct (round_nearest_even (Zpos m) l) as [|r|r] eqn:Er; try lia.
  destruct (Z.eq_dec (Zpos r) (2 ^ 53)) as [Hov|Hov].
  - rewrite shr_fexp_54.
    + rewrite shr_m_shr_1, Hov. change (2 ^ 53 / 2) with (Zpos (2 ^ 52)).
      replace (e + 1 <=? emax - prec) with true
        by (symmetry; apply Z.leb_le; unfold emax, prec; lia).
      exists (2 ^ 52)%positive, (e + 1). split; [reflexivity|].
      right. repeat split; auto.
    + apply Zdigits2_unique. rewrite Hov. simpl. lia.
    + lia.
  - rewrite shr_fexp_53.
    + rewrite shr_m_of_loc.
      replace (e <=? emax - prec) with true
        by (symmetry; apply Z.leb_le; unfold emax, prec; lia).
      exists r, e. split; [reflexivity|]. left. split; reflexivity.
    + apply Zdigits2_unique. change (2 ^ (53 - 1)) with 4503599627370496 in *.
      change (2 ^ 53) with 9007199254740992 in *. lia.
    + lia.
Qed.

Lemma round_aux_54 m e l :
  Zdigits2 (Zpos m) = 54 -> -1075 <= e ->
  binary_round_aux prec emax false (Zpos m) e l =
  binary_round_aux prec emax false (Zpos m / 2) (e + 1)
    (loc_of_shr_record (shr_1 (shr_record_of_loc (Zpos m) l))).
Proof.
  intros Hd He.
  pose proof (Zdigits2_bounds m) as Hb. rewrite Hd in Hb.
  change (2 ^ (54 - 1)) with 9007199254740992 in Hb.
  change (2 ^ 54) with 18014398509481984 in Hb.
  assert (Hh : exists h, Zpos m / 2 = Zpos h /\ Zdigits2 (Zpos h) = 53).
  { clear Hd. revert Hb. generalize (Zpos m). intros z Hz.
    destruct (z / 2) as [|h|h] eqn:Eh;
      try (exfalso; Z.to_euclidean_division_equations; lia).
    exists h. split; auto. apply Zdigits2_unique.
    change (2 ^ (53 - 1)) with 4503599627370496.
    change (2 ^ 53) with 9007199254740992.
    rewrite <- Eh. Z.to_euclidean_division_equations; lia. }
  destruct Hh as (h & Eh & Hdh).
  unfold binary_round_aux at 1 2.
  rewrite shr_fexp_54 by lia.
  rewrite shr_m_shr_1, Eh.
  rewrite (shr_fexp_53 h (e + 1)) by lia.
  rewrite shr_m_of_loc, loc_of_shr_of_loc. reflexivity.
Qed.

Lemma Zdigits2_le_53 p : Zpos p < 2 ^ 53 -> 1 <= Zdigits2 (Zpos p) <= 53.
Proof.
  intros Hp. pose proof (Zdigits2_bounds p) as Hb.
  split; [simpl; lia|].
  assert (Zdigits2 (Zpos p) - 1 < 53); [|lia].
  apply (Z.pow_lt_mono_r_iff 2); lia.
Qed.

Lemma of_int_pos p :
  Zpos p < 2 ^ 53 ->
  exists m,
    of_int (Zpos p) = S754_finite false m (Zdigits2 (Zpos p) - 53) /\
    Zpos m = Zpos p * 2 ^ (53 - Zdigits2 (Zpos p)) /\
    Zdigits2 (Zpos m) = 53.
Proof.
  intros Hp.
  pose proof (Zdigits2_le_53 p Hp) as Hd.
  pose proof (Zdigits2_bounds p) as Hb.
  set (d := Zdigits2 (Zpos p)) in *.
  assert (Hal : exists m, shl_align p 0 (d - 53) = (m, d - 53) /\
                          Zpos m = Zpos p * 2 ^ (53 - d)).
  { unfold shl_align. destruct (d - 53 - 0) as [|k|k] eqn:Ek; try lia.
    - exists p. replace (d - 53) with 0 by lia. split; [reflexivity|].
      replace (53 - d) with 0 by lia. lia.
    - exists (Pos.iter xO p k). split; [reflexivity|].
      rewrite iter_xO_mul. f_equal. f_equal. lia. }
  destruct Hal as (m & Hal & Hm).
  assert (Hdm : Zdigits2 (Zpos m) = 53).
  { apply Zdigits2_unique. rewrite Hm.
    assert (H52 : 2 ^ (53 - 1) = 2 ^ (d - 1) * 2 ^ (53 - d))
      by (rewrite <- Z.pow_add_r by lia; f_equal; lia).
    assert (H53 : 2 ^ 53 = 2 ^ d * 2 ^ (53 - d))
      by (rewrite <- Z.pow_add_r by lia; f_equal; lia).
    rewrite H52, H53.
    assert (0 < 2 ^ (53 - d)) by (apply Z.pow_pos_nonneg; lia).
    split.
    - apply Z.mul_le_mono_nonneg_r; lia.
    - apply Z.mul_lt_mono_pos_r; lia. }
  exists m. split; [|split; assumption].
  unfold of_int, binary_normalize, binary_round.
  change (Zpos (digits2_pos p)) with d.
  replace (fexp prec emax (d + 0)) with (d - 53)
    by (unfold fexp, emin, prec, emax; lia).
  rewrite Hal.
  destruct (round_aux_53 m (d - 53) loc_Exact Hdm) as (M & E & HR & HME); [lia|].
  rewrite HR. simpl in HME.
  pose proof (Zdigits2_bounds m) as Hbm. rewrite Hdm in Hbm.
  destruct HME as [[-> HM]|(_ & _ & HM)].
  - injection HM as ->. reflexivity.
  - lia.
Qed.

Lemma of_int_0 : of_int 0 = S754_zero false.
Proof. reflexivity. Qed.

Lemma pow2_square t : 0 <= t -> 2 ^ (2 * t) = 2 ^ t * 2 ^ t.
Proof. intros. rewrite <- Z.pow_add_r by lia. f_equal. lia. Qed.

Lemma sqrt_round_bracket n c T q r R :
  0 < c -> (c - 1) * (c - 1) < n <= c * c ->
  0 <= q -> n * (T * T) = q * q + r -> 0 <= r <= 2 * q ->
  2 * (c - 1) < T ->
  (R = q \/ (R = q + 1 /\ r <> 0)) ->
  (c - 1) * T < R <= c * T.
Proof.
  intros Hc Hn Hq Hsq Hr HT HR.
  assert (HT0 : 0 < T) by lia.
  assert (Hlow : (c - 1) * T < q).
  { assert (((c - 1) * T + 1) * ((c - 1) * T + 1) < (q + 1) * (q + 1)); [|nia].
    assert (((c - 1) * T + 1) * ((c - 1) * T + 1) <= n * (T * T)); [|nia].
    assert (((c - 1) * (c - 1) + 1) * (T * T) <= n * (T * T)) by nia.
    nia. }
  assert (Hup : q <= c * T).
  { assert (q * q <= (c * T) * (c * T)) by nia.
    assert (~ c * T < q); [|lia]. intros Hlt. nia. }
  split; [lia|].
  destruct HR as [->|[-> Hr0]]; [exact Hup|].
  assert (q <> c * T); [|lia].
  intros ->. assert (Hn' : n * (T * T) <= c * c * (T * T)) by nia. nia.
Qed.

Lemma ceil_finite_neg_exp M E :
  E <= 0 -> ceil (S754_finite false M E) = - ((- Zpos M) / 2 ^ (- E)).
Proof.
  intros HE. unfold ceil, floor. simpl.
  rewrite Z.shiftl_div_pow2 by lia. reflexivity.
Qed.

Lemma ceil_bracket R T c :
  0 < T -> (c - 1) * T < R <= c * T -> - ((- R) / T) = c.
Proof.
  intros HT HR.
  rewrite <- (Z.div_unique (- R) T (- c) (c * T - R)); lia.
Qed.

Lemma sqrt_core_of_int p m :
  Zpos p < 2 ^ 52 ->
  Zpos m = Zpos p * 2 ^ (53 - Zdigits2 (Zpos p)) ->
  Zdigits2 (Zpos m) = 53 ->
  exists q r t,
    SFsqrt_core_binary prec emax (Zpos m) (Zdigits2 (Zpos p) - 53) =
      (q, - t,
       if r =? 0 then loc_Exact
       else loc_Inexact (if r <=? q then Lt else Gt)) /\
    27 <= t <= 52 /\
    Zpos p * (2 ^ t * 2 ^ t) = q * q + r /\ 0 <= r <= 2 * q /\
    2 ^ 52 <= q < 2 ^ 53 /\
    forall c, 0 <= c -> c * c < Zpos p -> 2 * c < 2 ^ t.
Proof.
  intros Hp Hm Hdm.
  assert (Hd : 1 <= Zdigits2 (Zpos p) <= 52).
  { pose proof (Zdigits2_bounds p) as Hb. split; [simpl; lia|].
    assert (Zdigits2 (Zpos p) - 1 < 52); [|lia].
    apply (Z.pow_lt_mono_r_iff 2); lia. }
  pose proof (Zdigits2_bounds p) as Hb.
  pose proof (Zdigits2_bounds m) as Hbm. rewrite Hdm in Hbm.
  set (d := Zdigits2 (Zpos p)) in *.
  set (h := (d + 1) / 2).
  assert (Hh : 2 * h = d \/ 2 * h = d + 1)
    by (unfold h; Z.to_euclidean_division_equations; lia).
  unfold SFsqrt_core_binary. rewrite Hdm.
  replace (Z.min (fexp prec emax (Z.div2 (53 + (d - 53) + 1))) (Z.div2 (d - 53)))
    with (h - 53).
  2:{ rewrite !Z.div2_div. unfold fexp, emin, prec, emax, h.
      Z.to_euclidean_division_equations. lia. }
  set (t := 53 - h).
  destruct (d - 53 - 2 * (h - 53)) as [|s|s] eqn:Es; try lia.
  rewrite Z.shiftl_mul_pow2 by lia.
  assert (Hm' : Zpos m * 2 ^ Zpos s = Zpos p * (2 ^ t * 2 ^ t)).
  { rewrite Hm, <- Z.mul_assoc, <- !Z.pow_add_r by lia.
    f_equal. f_equal. lia. }
  rewrite Hm'.
  pose proof (Z.sqrtrem_spec (Zpos p * (2 ^ t * 2 ^ t))) as Hsq.
  destruct (Z.sqrtrem (Zpos p * (2 ^ t * 2 ^ t))) as [q r].
  assert (HT : 0 < 2 ^ t) by (apply Z.pow_pos_nonneg; lia).
  destruct Hsq as [Hsq Hr]; [nia|].
  exists q, r, t. replace (h - 53) with (- t) by lia.
  split; [reflexivity|].
  split; [lia|]. split; [exact Hsq|]. split; [exact Hr|].
  assert (Hlo : 2 ^ 52 * 2 ^ 52 <= Zpos m * 2 ^ Zpos s).
  { replace (Zpos s) with (52 + (Zpos s - 52)) by lia.
    rewrite Z.pow_add_r by lia.
    assert (1 <= 2 ^ (Zpos s - 52)) by (apply (Z.pow_le_mono_r 2 0); lia).
    nia. }
  assert (Hhi : Zpos m * 2 ^ Zpos s < 2 ^ 53 * 2 ^ 53).
  { assert (2 ^ Zpos s <= 2 ^ 53) by (apply Z.pow_le_mono_r; lia).
    assert (0 < 2 ^ Zpos s) by (apply Z.pow_pos_nonneg; lia).
    nia. }
  rewrite Hm' in Hlo, Hhi.
  split.
  - split.
    + assert (2 ^ 52 < q + 1); [|lia].
      apply Z.square_lt_simpl_nonneg; lia.
    + apply Z.square_lt_simpl_nonneg; lia.
  - intros c Hc Hcp.
    assert (HP : c < 2 ^ h).
    { apply Z.square_lt_simpl_nonneg; [lia|].
      rewrite <- pow2_square by lia.
      assert (2 ^ d <= 2 ^ (2 * h)) by (apply Z.pow_le_mono_r; lia).
      lia. }
    assert (2 * 2 ^ h <= 2 ^ t); [|lia].
    rewrite <- Z.pow_succ_r by lia.
    apply Z.pow_le_mono_r; lia.
Qed.

Lemma sqrt_of_int_finite p :
  Zpos p < 2 ^ 52 ->
  exists M E,
    sqrt (of_int (Zpos p)) = S754_finite false M E /\
    ceil (S754_finite false M E) = Z.sqrt_up (Zpos p).
Proof.
  intros Hn.
  destruct (of_int_pos p) as (m & Hof & Hm & Hdm); [lia|].
  rewrite Hof. unfold sqrt, SFsqrt.
  destruct (sqrt_core_of_int p m Hn Hm Hdm)
    as (q & r & t & Hcore & Ht & Hsq & Hr & Hq & Hc).
  rewrite Hcore.
  destruct q as [|qp|qp]; try lia.
  pose proof (Z.sqrt_up_spec (Zpos p) eq_refl) as Hup.
  pose proof (proj2 (Z.sqrt_up_pos (Zpos p)) eq_refl) as Hup0.
  set (c := Z.sqrt_up (Zpos p)) in *.
  unfold Z.pred in Hup.
  set (l := if r =? 0 then loc_Exact
            else loc_Inexact (if r <=? Zpos qp then Lt else Gt)).
  assert (HR : round_nearest_even (Zpos qp) l = Zpos qp \/
               (round_nearest_even (Zpos qp) l = Zpos qp + 1 /\ r <> 0)).
  { unfold l. destruct (Z.eqb_spec r 0); [left; reflexivity|].
    destruct (r <=? Zpos qp); [left|right]; auto. }
  assert (HT : 0 < 2 ^ t) by (apply Z.pow_pos_nonneg; lia).
  assert (Hbr : (c - 1) * 2 ^ t < round_nearest_even (Zpos qp) l <= c * 2 ^ t).
  { apply (sqrt_round_bracket (Zpos p) c (2 ^ t) (Zpos qp) r); auto; try lia.
    apply Hc; lia. }
  destruct (round_aux_53 qp (- t) l) as (M & E & HRA & HME).
  { apply Zdigits2_unique. exact Hq. }
  { lia. }
  exists M, E. split; [exact HRA|].
  destruct HME as [[-> HM]|(-> & HM & Hov)].
  - rewrite ceil_finite_neg_exp by lia.
    rewrite Z.opp_involutive, HM.
    apply ceil_bracket; assumption.
  - rewrite ceil_finite_neg_exp by lia. rewrite HM.
    replace (- (- t + 1)) with (t - 1) by lia.
    rewrite Hov in Hbr.
    assert (H2 : 2 ^ t = 2 * 2 ^ (t - 1))
      by (rewrite <- Z.pow_succ_r by lia; f_equal; lia).
    apply ceil_bracket; [apply Z.pow_pos_nonneg; lia|].
    change (2 ^ 53) with (2 * 2 ^ 52) in Hbr. lia.
Qed.

Theorem ceil_sqrt_of_int n :
  0 <= n < 2 ^ 52 -> ceil (sqrt (of_int n)) = Z.sqrt_up n.
Proof.
  intros [Hn0 Hn].
  destruct n as [|p|p]; [reflexivity| |lia].
  destruct (sqrt_of_int_finite p Hn) as (M & E & -> & HC). exact HC.
Qed.

Lemma round_aux_wide m e l :
  2 ^ 52 <= Zpos m < 2 ^ 54 -> -1074 <= e <= 900 ->
  exists M k,
    binary_round_aux prec emax false (Zpos m) e l = S754_finite false M (e + k) /\
    0 <= k <= 2 /\
    Zpos m / 2 ^ k <= Zpos M <= Zpos m / 2 ^ k + 1.
Proof.
  intros Hm He.
  change (2 ^ 52) with 4503599627370496 in Hm.
  change (2 ^ 54) with 18014398509481984 in Hm.
  destruct (Z.lt_ge_cases (Zpos m) (2 ^ 53)) as [H53|H54].
  - destruct (round_aux_53 m e l) as (M & E & HR & HME); [|lia|].
    { apply Zdigits2_unique. change (2 ^ (53 - 1)) with 4503599627370496. lia. }
    pose proof (round_nearest_even_range (Zpos m) l) as Hrg.
    destruct HME as [[-> HM]|(-> & HM & Hov)].
    + exists M, 0. rewrite Z.add_0_r, Z.div_1_r. split; [exact HR|]. lia.
    + exists M, 1. split; [exact HR|]. split; [lia|]. rewrite HM.
      change (2 ^ 53) with 9007199254740992 in *.
      change (2 ^ 52) with 4503599627370496. change (2 ^ 1) with 2.
      revert Hm H53 Hrg Hov. generalize (Zpos m) (round_nearest_even (Zpos m) l).
      intros. Z.to_euclidean_division_equations. lia.
  - change (2 ^ 53) with 9007199254740992 in H54.
    rewrite round_aux_54.
    2:{ apply Zdigits2_unique. change (2 ^ (54 - 1)) with 9007199254740992.
        change (2 ^ 54) with 18014398509481984. lia. }
    2:{ lia. }
    set (l' := loc_of_shr_record (shr_1 (shr_record_of_loc (Zpos m) l))).
    destruct (Zpos m / 2) as [|h|h] eqn:Eh.
    1,3: exfalso; revert Hm H54 Eh; generalize (Zpos m); intros;
         Z.to_euclidean_division_equations; lia.
    assert (Hh : 4503599627370496 <= Zpos h < 9007199254740992).
    { rewrite <- Eh. revert Hm H54. generalize (Zpos m). intros.
      Z.to_euclidean_division_equations. lia. }
    destruct (round_aux_53 h (e + 1) l') as (M & E & HR & HME); [|lia|].
    { apply Zdigits2_unique. change (2 ^ (53 - 1)) with 4503599627370496.
      change (2 ^ 53) with 9007199254740992. lia. }
    pose proof (round_nearest_even_range (Zpos h) l') as Hrg.
    destruct HME as [[-> HM]|(-> & HM & Hov)].
    + exists M, 1. split; [exact HR|]. split; [lia|].
      change (2 ^ 1) with 2. rewrite Eh. lia.
    + exists M, 2. replace (e + 2) with (e + 1 + 1) by lia.
      split; [exact HR|]. split; [lia|]. rewrite HM.
      change (2 ^ 2) with (2 * 2). rewrite <- Z.div_div, Eh by lia.
      change (2 ^ 53) with 9007199254740992 in *.
      change (2 ^ 52) with 4503599627370496.
      revert Hh Hrg Hov. generalize (Zpos h) (round_nearest_even (Zpos h) l').
      intros. Z.to_euclidean_division_equations. lia.
Qed.

Lemma floor_bracket i g T M :
  0 <= i -> 0 < g -> 2 * g <= T ->
  (i * T) / g <= M <= (i * T) / g + 1 ->
  M / T = i / g.
Proof.
  intros Hi Hg HT HM.
  symmetry. apply (Z.div_unique M T (i / g) (M - T * (i / g))); [|lia].
  left.
  pose proof (Z.div_mod i g ltac:(lia)) as Hdm.
  pose proof (Z.mod_pos_bound i g Hg) as Hmod.
  set (Q := i / g) in *. set (R := i mod g) in *.
  assert (HQ : 0 <= Q) by (apply Z.div_pos; lia).
  assert (E1 : i * T = Q * T * g + R * T) by (rewrite Hdm; ring).
  assert (E2 : (i * T) / g = Q * T + (R * T) / g).
  { rewrite E1, Z.add_comm, Z.div_add by lia. ring. }
  assert (E3 : (R * T) / g <= T - 2).
  { assert (R * T <= (T - 2) * g + (g - 1)) by nia.
    assert ((R * T) / g < T - 1); [|lia].
    apply Z.div_lt_upper_bound; nia. }
  assert (0 <= (R * T) / g) by (apply Z.div_pos; nia).
  lia.
Qed.

Lemma floor_finite_neg_exp M E :
  E <= 0 -> floor (S754_finite false M E) = Zpos M / 2 ^ (- E).
Proof. intros HE. unfold floor. simpl. apply Z.shiftl_div_pow2. exact HE. Qed.

Lemma div_of_int_finite pi pg :
  Zpos pi < 2 ^ 50 -> Zpos pg < 2 ^ 53 ->
  exists M E,
    div (of_int (Zpos pi)) (of_int (Zpos pg)) = S754_finite false M E /\
    floor (S754_finite false M E) = Zpos pi / Zpos pg.
Proof.
  intros Hi Hg.
  destruct (of_int_pos pg Hg) as (m2 & Hof2 & Hm2 & Hdm2).
  destruct (of_int_pos pi) as (m1 & Hof1 & Hm1 & Hdm1); [lia|].
  rewrite Hof1, Hof2. unfold div, SFdiv, SFdiv_core_binary.
  rewrite Hdm1, Hdm2.
  pose proof (Zdigits2_le_53 pg Hg) as Hdg.
  assert (Hdi : 1 <= Zdigits2 (Zpos pi) <= 50).
  { pose proof (Zdigits2_bounds pi) as Hb. split; [simpl; lia|].
    assert (Zdigits2 (Zpos pi) - 1 < 50); [|lia].
    apply (Z.pow_lt_mono_r_iff 2); lia. }
  pose proof (Zdigits2_bounds pg) as Hbg.
  pose proof (Zdigits2_bounds m1) as Hb1. rewrite Hdm1 in Hb1.
  pose proof (Zdigits2_bounds m2) as Hb2. rewrite Hdm2 in Hb2.
  set (di := Zdigits2 (Zpos pi)) in *. set (dg := Zdigits2 (Zpos pg)) in *.
  set (t := 53 - di + dg).
  replace (Z.min (fexp prec emax (53 + (di - 53) - (53 + (dg - 53))))
                 (di - 53 - (dg - 53))) with (- t)
    by (unfold fexp, emin, prec, emax, t; lia).
  replace (di - 53 - (dg - 53) - - t) with 53 by (unfold t; lia).
  cbv iota. rewrite Z.shiftl_mul_pow2 by lia.
  destruct (Z.div_eucl (Zpos m1 * 2 ^ 53) (Zpos m2)) as [q r] eqn:Eqr.
  assert (Hq0 : q = (Zpos m1 * 2 ^ 53) / Zpos m2)
    by (unfold Z.div; rewrite Eqr; reflexivity).
  assert (Hq : q = (Zpos pi * 2 ^ t) / Zpos pg).
  { rewrite Hq0, Hm1, Hm2.
    replace (Zpos pi * 2 ^ (53 - di) * 2 ^ 53)
      with (Zpos pi * 2 ^ t * 2 ^ (53 - dg)).
    2:{ rewrite <- !Z.mul_assoc, <- !Z.pow_add_r by (unfold t; lia).
        f_equal. f_equal. unfold t. lia. }
    apply Z.div_mul_cancel_r; [lia|].
    apply Z.pow_nonzero; lia. }
  assert (Hqr : 2 ^ 52 <= q < 2 ^ 54).
  { rewrite Hq0. change (53 - 1) with 52 in *.
    change (2 ^ 54) with (2 * (2 * 2 ^ 52)).
    change (2 ^ 53) with (2 * 2 ^ 52) in *.
    assert (Ha : 0 < 2 ^ 52) by reflexivity.
    revert Ha Hb1 Hb2. generalize (2 ^ 52) (Zpos m1) (Zpos m2).
    intros a z1 z2 Ha Hz1 Hz2. split.
    - apply Z.div_le_lower_bound; [lia|nia].
    - apply Z.div_lt_upper_bound; [lia|nia]. }
  destruct q as [|qp|qp]; try lia.
  destruct (round_aux_wide qp (- t) (new_location (Zpos m2) r)) as (M & k & HR & Hk & HM);
    [exact Hqr|unfold t; lia|].
  cbv iota beta. simpl xorb. rewrite HR.
  exists M, (- t + k). split; [reflexivity|].
  rewrite floor_finite_neg_exp by (unfold t; lia).
  replace (- (- t + k)) with (t - k) by lia.
  apply floor_bracket; try lia.
  - replace (2 * Zpos pg) with (Zpos pg * 2 ^ 1) by lia.
    assert (2 ^ (dg + 1) <= 2 ^ (t - k)) by (apply Z.pow_le_mono_r; unfold t; lia).
    rewrite Z.pow_add_r in * by lia. lia.
  - assert (Hqk : Zpos qp / 2 ^ k = (Zpos pi * 2 ^ (t - k)) / Zpos pg).
    { rewrite Hq, Z.div_div by (try apply Z.pow_pos_nonneg; lia).
      replace (2 ^ t) with (2 ^ (t - k) * 2 ^ k)
        by (rewrite <- Z.pow_add_r by (unfold t; lia); f_equal; lia).
      rewrite Z.mul_assoc.
      apply Z.div_mul_cancel_r; [lia|apply Z.pow_nonzero; lia]. }
    rewrite <- Hqk. exact HM.
Qed.

Theorem floor_div_of_int i g :
  0 <= i < 2 ^ 50 -> 0 < g < 2 ^ 53 ->
  floor (div (of_int i) (of_int g)) = i / g.
Proof.
  intros [Hi0 Hi] [Hg0 Hg].
  destruct g as [|pg|pg]; try lia.
  destruct i as [|pi|pi]; [|clear Hi0|lia].
  - destruct (of_int_pos pg Hg) as (m2 & -> & _). reflexivity.
  - destruct (div_of_int_finite pi pg Hi Hg) as (M & E & -> & HF). exact HF.
Qed.

End Float64_facts.

(** ** [Math.max] over a non-empty list *)

Lemma foldl_max_le (a : Z) (l : list Z) : a <= foldl Z.max a l.
Proof.
  revert a. induction l as [|b l IH]; intros a; simpl; [lia|].
  specialize (IH (Z.max a b)). lia.
Qed.

Lemma foldl_max_ub (a : Z) (l : list Z) (b : Z) : b ∈ l -> b <= foldl Z.max a l.
Proof.
  revert a. induction l as [|c l IH]; intros a Hb; simpl.
  - inversion Hb.
  - apply elem_of_cons in Hb as [->|Hb].
    + pose proof (foldl_max_le (Z.max a c) l). lia.
    + apply IH, Hb.
Qed.

Lemma foldl_max_attained (a : Z) (l : list Z) :
  foldl Z.max a l = a \/ foldl Z.max a l ∈ l.
Proof.
  revert a. induction l as [|c l IH]; intros a; simpl; [left; reflexivity|].
  destruct (IH (Z.max a c)) as [H|H].
  - rewrite H. destruct (Z.max_spec a c) as [[_ ->]|[_ ->]].
    + right. left.
    + left. reflexivity.
  - right. right. exact H.
Qed.

Lemma Math_max_ub (xs : list Z) (b : Z) : b ∈ xs -> b <= Math_max xs.
Proof.
  destruct xs as [|a l]; intros Hb; [inversion Hb|]. simpl.
  apply elem_of_cons in Hb as [->|Hb].
  - apply foldl_max_le.
  - apply foldl_max_ub, Hb.
Qed.

Lemma Math_max_attained (xs : list Z) : xs <> [] -> Math_max xs ∈ xs.
Proof.
  destruct xs as [|a l]; intros Hne; [congruence|]. simpl.
  destruct (foldl_max_attained a l) as [->|H]; [left|right; exact H].
Qed.

(** ** The grid *)

Section Grid_facts.

Context {Image : Type}.
Variable imagesMetadata : list (@ImageMeta Image).
Variable options : Options.

Local Abbreviation n := (imageCount imagesMetadata).
Local Abbreviation g := (gridSize imagesMetadata).

Lemma imageCount_nonneg : 0 <= n.
Proof. unfold imageCount. lia. Qed.

Lemma imageCount_pos_iff : 0 < n <-> imagesMetadata <> [].
Proof. unfold imageCount. destruct imagesMetadata; simpl; split; try lia; congruence. Qed.

Lemma gridSize_sqrt_up : n < 2 ^ 32 -> g = Z.sqrt_up n.
Proof.
  intros Hn. unfold gridSize, Math_ceil, Math_sqrt.
  apply Float64_facts.ceil_sqrt_of_int.
  pose proof imageCount_nonneg.
  assert (2 ^ 32 < 2 ^ 52) by reflexivity. lia.
Qed.

Lemma gridSize_bracket :
  1 <= n < 2 ^ 32 -> 1 <= g <= 2 ^ 16 /\ (g - 1) * (g - 1) < n <= g * g.
Proof.
  intros [Hn1 Hn]. rewrite gridSize_sqrt_up by exact Hn.
  pose proof (Z.sqrt_up_spec n ltac:(lia)) as Hs.
  pose proof (proj2 (Z.sqrt_up_pos n) ltac:(lia)) as Hp.
  unfold Z.pred in Hs. rewrite <- !Z.pow_2_r. split; [|rewrite !Z.pow_2_r; lia].
  split; [lia|].
  assert (Z.sqrt_up n - 1 < 2 ^ 16); [|lia].
  apply Z.square_lt_simpl_nonneg; [lia|].
  change (2 ^ 16 * 2 ^ 16) with (2 ^ 32). lia.
Qed.

Lemma row_div (i : Z) :
  1 <= n < 2 ^ 32 -> 0 <= i < n -> row imagesMetadata i = i / g.
Proof.
  intros Hn Hi. destruct (gridSize_bracket Hn) as [Hg _].
  unfold row, Math_floor, number_div.
  apply Float64_facts.floor_div_of_int.
  - assert (2 ^ 32 < 2 ^ 50) by reflexivity. lia.
  - assert (2 ^ 16 < 2 ^ 53) by reflexivity. lia.
Qed.

Lemma col_mod (i : Z) :
  1 <= n < 2 ^ 32 -> 0 <= i < n -> col imagesMetadata i = i mod g.
Proof.
  intros Hn Hi. destruct (gridSize_bracket Hn) as [Hg _].
  unfold col. apply Z.rem_mod_nonneg; lia.
Qed.

Lemma row_col_range (i : Z) :
  1 <= n < 2 ^ 32 -> 0 <= i < n ->
  0 <= row imagesMetadata i <= g - 1 /\ 0 <= col imagesMetadata i <= g - 1.
Proof.
  intros Hn Hi. destruct (gridSize_bracket Hn) as [Hg Hsq].
  rewrite row_div, col_mod by assumption.
  pose proof (Z.mod_pos_bound i g ltac:(lia)).
  assert (0 <= i / g) by (apply Z.div_pos; lia).
  assert (i / g < g) by (apply Z.div_lt_upper_bound; lia).
  lia.
Qed.

Lemma row_col_inj (i j : Z) :
  1 <= n < 2 ^ 32 -> 0 <= i < n -> 0 <= j < n ->
  row imagesMetadata i = row imagesMetadata j ->
  col imagesMetadata i = col imagesMetadata j -> i = j.
Proof.
  intros Hn Hi Hj. destruct (gridSize_bracket Hn) as [Hg _].
  rewrite !row_div, !col_mod by assumption. intros Hr Hc.
  rewrite (Z.div_mod i g), (Z.div_mod j g) by lia. congruence.
Qed.

Lemma size_exceeded_true :
  size_exceeded imagesMetadata options = true <->
  spriteWidth imagesMetadata options > maxSize options \/
  spriteHeight imagesMetadata options > maxSize options.
Proof. unfold size_exceeded. rewrite orb_true_iff, !Z.gtb_gt. reflexivity. Qed.

Lemma size_exceeded_false :
  size_exceeded imagesMetadata options = false <->
  spriteWidth imagesMetadata options <= maxSize options /\
  spriteHeight imagesMetadata options <= maxSize options.
Proof.
  unfold size_exceeded. rewrite orb_false_iff, !Z.gtb_ltb, !Z.ltb_ge. reflexivity.
Qed.

End Grid_facts.

(** ** Distinct file names *)

Lemma size_list_to_set_le (l : list string) :
  (size (list_to_set l : gset string) <= length l)%nat.
Proof.
  induction l as [|a l IH].
  - rewrite list_to_set_nil, size_empty. simpl. lia.
  - rewrite list_to_set_cons. simpl length.
    destruct (decide (a ∈ l)) as [Hin|Hin].
    + replace ({[a]} ∪ list_to_set l : gset string) with (list_to_set l : gset string)
        by set_solver.
      lia.
    + rewrite size_union by set_solver. rewrite size_singleton. lia.
Qed.

Lemma size_list_to_set_NoDup (l : list string) :
  size (list_to_set l : gset string) = length l <-> NoDup l.
Proof.
  split; [|apply size_list_to_set].
  induction l as [|a l IH]; intros Hs; [constructor|].
  rewrite list_to_set_cons in Hs. simpl length in Hs.
  destruct (decide (a ∈ l)) as [Hin|Hin].
  - exfalso.
    replace ({[a]} ∪ list_to_set l : gset string) with (list_to_set l : gset string)
      in Hs by set_solver.
    pose proof (size_list_to_set_le l). lia.
  - constructor; [exact Hin|]. apply IH.
    rewrite size_union, size_singleton in Hs by set_solver. lia.
Qed.

(** ** The placement loop *)

Section Loop_facts.

Context {Image Buffer : Type}.
Variable toBuffer : Image -> option Buffer.
Variable imagesMetadata : list (@ImageMeta Image).
Variable options : Options.

Local Abbreviation loop' := (loop toBuffer imagesMetadata options).
Local Abbreviation position' := (position_at imagesMetadata options).
Local Abbreviation composite' := (composite_at imagesMetadata options).

Lemma loop_body_Some (i : Z) (r : ImageMeta) (st st' : loop_state) :
  loop_body toBuffer imagesMetadata options i r st = Some st' <->
  exists buf, toBuffer (image r) = Some buf /\
    st' = {| composites := composites st ++ [composite' i buf];
             positions := <[filename r := position' i r]> (positions st) |}.
Proof.
  unfold loop_body, composite_at, position_at.
  destruct (toBuffer (image r)) as [buf|]; split.
  - intros [= <-]. exists buf. split; reflexivity.
  - intros (b & [= <-] & ->). reflexivity.
  - discriminate.
  - intros (b & Hb & _). discriminate.
Qed.

Lemma loop_app (i : Z) (l1 l2 : list ImageMeta) (st : loop_state) :
  loop' i (l1 ++ l2) st =
  match loop' i l1 st with
  | Some st' => loop' (i + Z.of_nat (length l1)) l2 st'
  | None => None
  end.
Proof.
  revert i st. induction l1 as [|r l1 IH]; intros i st; simpl.
  - f_equal. lia.
  - destruct (loop_body _ _ _ i r st) as [st1|]; [|reflexivity].
    rewrite IH. destruct (loop' (i + 1) l1 st1); [|reflexivity].
    f_equal. lia.
Qed.


(** The loop leaves alone the names that none of its records has. *)
Lemma loop_lookup_other (i : Z) (rest : list ImageMeta) (st st' : loop_state)
    (f : string) :
  loop' i rest st = Some st' ->
  (forall r, r ∈ rest -> filename r <> f) ->
  positions st' !! f = positions st !! f.
Proof.
  revert i st. induction rest as [|r rest IH]; intros i st Hl Hne.
  - injection Hl as ->. reflexivity.
  - simpl in Hl.
    destruct (loop_body _ _ _ i r st) as [st1|] eqn:Hb; [|discriminate].
    apply loop_body_Some in Hb as (buf & _ & ->).
    rewrite (IH _ _ Hl); [|intros; apply Hne; right; assumption].
    simpl. apply lookup_insert_ne, Hne. left.
Qed.

(** A record that no later record shadows is found under its name. *)
Lemma loop_lookup_last (i : Z) (rest : list ImageMeta) (st st' : loop_state)
    (k : nat) (r : ImageMeta) :
  loop' i rest st = Some st' ->
  rest !! k = Some r ->
  (forall k' r', (k < k')%nat -> rest !! k' = Some r' -> filename r' <> filename r) ->
  positions st' !! filename r = Some (position' (i + Z.of_nat k) r).
Proof.
  revert i st k. induction rest as [|r0 rest IH]; intros i st k Hl Hk Hlast.
  - discriminate.
  - simpl in Hl.
    destruct (loop_body _ _ _ i r0 st) as [st1|] eqn:Hb; [|discriminate].
    apply loop_body_Some in Hb as (buf & Hbuf & ->).
    destruct k as [|k].
    + injection Hk as ->.
      rewrite (loop_lookup_other _ _ _ _ (filename r) Hl).
      * simpl. rewrite Z.add_0_r. apply lookup_insert_eq.
      * intros r' Hr'. apply list_elem_of_lookup in Hr' as [k' Hk'].
        apply (Hlast (S k')); [lia|exact Hk'].
    + rewrite (IH _ _ k Hl Hk).
      * f_equal. f_equal. lia.
      * intros k' r' Hlt Hk'. apply (Hlast (S k')); [lia|exact Hk'].
Qed.

(** Every entry of the mapping is the entry of some record, or was there
    before the loop. *)
Lemma loop_lookup_inv (i : Z) (rest : list ImageMeta) (st st' : loop_state)
    (f : string) (e : Position) :
  loop' i rest st = Some st' ->
  positions st' !! f = Some e ->
  positions st !! f = Some e \/
  exists k r, rest !! k = Some r /\ filename r = f /\
              e = position' (i + Z.of_nat k) r.
Proof.
  revert i st. induction rest as [|r rest IH]; intros i st Hl He.
  - injection Hl as ->. left. exact He.
  - simpl in Hl.
    destruct (loop_body _ _ _ i r st) as [st1|] eqn:Hb; [|discriminate].
    apply loop_body_Some in Hb as (buf & _ & ->).
    destruct (IH _ _ Hl He) as [H|(k & r' & Hk & Hf & ->)].
    + simpl in H. rewrite lookup_insert in H. case_decide.
      * injection H as <-. right. exists 0%nat, r.
        rewrite Z.add_0_r. auto.
      * left. exact H.
    + right. exists (S k), r'. split; [exact Hk|]. split; [exact Hf|].
      f_equal. lia.
Qed.

Lemma loop_dom (i : Z) (rest : list ImageMeta) (st st' : loop_state) :
  loop' i rest st = Some st' ->
  dom (positions st') = dom (positions st) ∪ list_to_set (filename <$> rest).
Proof.
  revert i st. induction rest as [|r rest IH]; intros i st Hl.
  - injection Hl as ->. simpl. set_solver.
  - simpl in Hl.
    destruct (loop_body _ _ _ i r st) as [st1|] eqn:Hb; [|discriminate].
    apply loop_body_Some in Hb as (buf & _ & ->).
    rewrite (IH _ _ Hl). simpl. rewrite dom_insert_L. set_solver.
Qed.

Lemma loop_composites (i : Z) (rest : list ImageMeta) (st st' : loop_state) :
  loop' i rest st = Some st' ->
  length (composites st') = (length (composites st) + length rest)%nat /\
  (forall k c, composites st !! k = Some c -> composites st' !! k = Some c) /\
  (forall k r, rest !! k = Some r ->
     exists buf, toBuffer (image r) = Some buf /\
       composites st' !! (length (composites st) + k)%nat =
       Some (composite' (i + Z.of_nat k) buf)).
Proof.
  revert i st. induction rest as [|r rest IH]; intros i st Hl.
  - injection Hl as ->. simpl. split; [lia|]. split; [auto|]. intros k r [=].
  - simpl in Hl.
    destruct (loop_body _ _ _ i r st) as [st1|] eqn:Hb; [|discriminate].
    apply loop_body_Some in Hb as (buf & Hbuf & ->).
    destruct (IH _ _ Hl) as (Hlen & Hpre & Hnew). simpl in Hlen, Hpre, Hnew.
    rewrite length_app in Hlen, Hnew. simpl in Hlen, Hnew.
    split; [simpl; lia|]. split.
    + intros k c Hk. apply Hpre. apply lookup_app_l_Some, Hk.
    + intros [|k] r' Hk.
      * injection Hk as <-. exists buf. split; [exact Hbuf|].
        rewrite Nat.add_0_r, Z.add_0_r. apply Hpre.
        rewrite lookup_app_r by lia. rewrite Nat.sub_diag. reflexivity.
      * destruct (Hnew k r' Hk) as (b & Hb & Hc). exists b. split; [exact Hb|].
        replace (length (composites st) + S k)%nat
          with (length (composites st) + 1 + k)%nat by lia.
        rewrite Hc. f_equal. f_equal. lia.
Qed.

End Loop_facts.

(** ** The runs of [generateSpriteFromDirectory], case by case *)

Section Run_facts.

Context {Image Buffer : Type}.
Variable toBuffer : Image -> option Buffer.
Variable toFile_ok : @SpriteImage Buffer -> string -> bool.
Variable writeFileSync_ok : string -> bool.
Variable path_join : string -> string -> string.
Variable imagesMetadata : list (@ImageMeta Image).
Variable options : Options.
Variable outputDir : string.

Local Abbreviation run :=
  (generateSpriteFromDirectory toBuffer toFile_ok writeFileSync_ok path_join
     imagesMetadata options outputDir).
Local Abbreviation n := (imageCount imagesMetadata).
Local Abbreviation g := (gridSize imagesMetadata).
Local Abbreviation sw := (spriteWidth imagesMetadata options).
Local Abbreviation sh := (spriteHeight imagesMetadata options).
Local Abbreviation the_loop :=
  (loop toBuffer imagesMetadata options 0 imagesMetadata
     {| composites := []; positions := ∅ |}).
Local Abbreviation png := (path_join outputDir (name options +:+ ".png")).
Local Abbreviation json := (path_join outputDir (name options +:+ ".json")).

Lemma run_empty (w : @world Buffer) :
  n = 0 ->
  run w =
  ({| files := files w;
      console := console w ++ [spinner_start ScanningImageDirectory;
                               spinner_fail NoImagesFound] |},
   inl (ProcessExit 1)).
Proof.
  intros Hn. unfold generateSpriteFromDirectory, try_catch, bind, emit, process_exit.
  rewrite Hn. simpl. rewrite <- app_assoc. reflexivity.
Qed.

Lemma run_size_exceeded (w : @world Buffer) :
  n <> 0 -> size_exceeded imagesMetadata options = true ->
  run w =
  ({| files := files w;
      console := console w ++ [spinner_start ScanningImageDirectory;
                               spinner_succeed (FoundImages n);
                               spinner_fail (DimensionsExceedMaximum sw sh (maxSize options))] |},
   inl (ProcessExit 1)).
Proof.
  intros Hn Hex. unfold generateSpriteFromDirectory, try_catch, bind, emit, process_exit, ret.
  apply Z.eqb_neq in Hn. rewrite Hn. unfold size_exceeded in Hex. rewrite Hex. simpl.
  rewrite <- !app_assoc. reflexivity.
Qed.

Lemma run_loop_throws (w : @world Buffer) :
  n <> 0 -> size_exceeded imagesMetadata options = false -> the_loop = None ->
  run w =
  ({| files := files w;
      console := console w ++ [spinner_start ScanningImageDirectory;
                               spinner_succeed (FoundImages n);
                               spinner_succeed (CalculatedLayout g);
                               spinner_succeed (SpriteDimensions sw sh);
                               spinner_fail ErrorMessage] |},
   inl (ProcessExit 1)).
Proof.
  intros Hn Hex Hl.
  unfold generateSpriteFromDirectory, try_catch, bind, emit, process_exit, ret, throw.
  apply Z.eqb_neq in Hn. rewrite Hn. unfold size_exceeded in Hex. rewrite Hex, Hl. simpl.
  rewrite <- !app_assoc. reflexivity.
Qed.

Lemma run_toFile_throws (w : @world Buffer) (st : @loop_state Buffer) :
  n <> 0 -> size_exceeded imagesMetadata options = false -> the_loop = Some st ->
  toFile_ok (sprite imagesMetadata options (composites st)) png = false ->
  run w =
  ({| files := files w;
      console := console w ++ [spinner_start ScanningImageDirectory;
                               spinner_succeed (FoundImages n);
                               spinner_succeed (CalculatedLayout g);
                               spinner_succeed (SpriteDimensions sw sh);
                               spinner_start SavingSpriteImage;
                               spinner_fail ErrorMessage] |},
   inl (ProcessExit 1)).
Proof.
  intros Hn Hex Hl Hf.
  unfold generateSpriteFromDirectory, try_catch, bind, emit, process_exit, ret,
    throw, toFile.
  apply Z.eqb_neq in Hn. rewrite Hn. unfold size_exceeded in Hex. rewrite Hex, Hl. simpl.
  rewrite Hf. simpl. rewrite <- !app_assoc. reflexivity.
Qed.

Lemma run_writeFileSync_throws (w : @world Buffer) (st : @loop_state Buffer) :
  n <> 0 -> size_exceeded imagesMetadata options = false -> the_loop = Some st ->
  toFile_ok (sprite imagesMetadata options (composites st)) png = true ->
  writeFileSync_ok json = false ->
  run w =
  ({| files := files w ++ [(png, PngFile (sprite imagesMetadata options (composites st)))];
      console := console w ++ [spinner_start ScanningImageDirectory;
                               spinner_succeed (FoundImages n);
                               spinner_succeed (CalculatedLayout g);
                               spinner_succeed (SpriteDimensions sw sh);
                               spinner_start SavingSpriteImage;
                               spinner_succeed (SpriteImageSaved png);
                               spinner_start GeneratingPositionData;
                               spinner_fail ErrorMessage] |},
   inl (ProcessExit 1)).
Proof.
  intros Hn Hex Hl Hf Hj.
  unfold generateSpriteFromDirectory, try_catch, bind, emit, process_exit, ret,
    throw, toFile, writeFileSync, write.
  apply Z.eqb_neq in Hn. rewrite Hn. unfold size_exceeded in Hex. rewrite Hex, Hl. simpl.
  rewrite Hf. simpl. rewrite Hj. simpl. rewrite <- !app_assoc. reflexivity.
Qed.

Lemma run_completes (w : @world Buffer) (st : @loop_state Buffer) :
  n <> 0 -> size_exceeded imagesMetadata options = false -> the_loop = Some st ->
  toFile_ok (sprite imagesMetadata options (composites st)) png = true ->
  writeFileSync_ok json = true ->
  run w =
  ({| files := files w ++
               [(png, PngFile (sprite imagesMetadata options (composites st)));
                (json, JsonFile (jsonData imagesMetadata options (positions st)))];
      console := console w ++ success_events imagesMetadata options png json |},
   inr tt).
Proof.
  intros Hn Hex Hl Hf Hj.
  unfold generateSpriteFromDirectory, try_catch, bind, emit, process_exit, ret,
    throw, toFile, writeFileSync, write, success_events.
  apply Z.eqb_neq in Hn. rewrite Hn. unfold size_exceeded in Hex. rewrite Hex, Hl. simpl.
  rewrite Hf. simpl. rewrite Hj. simpl. rewrite <- !app_assoc. reflexivity.
Qed.

(** The six cases are exhaustive. *)
Lemma run_cases :
  (n = 0) \/
  (n <> 0 /\ size_exceeded imagesMetadata options = true) \/
  (n <> 0 /\ size_exceeded imagesMetadata options = false /\ the_loop = None) \/
  (exists st, n <> 0 /\ size_exceeded imagesMetadata options = false /\
     the_loop = Some st /\
     toFile_ok (sprite imagesMetadata options (composites st)) png = false) \/
  (exists st, n <> 0 /\ size_exceeded imagesMetadata options = false /\
     the_loop = Some st /\
     toFile_ok (sprite imagesMetadata options (composites st)) png = true /\
     writeFileSync_ok json = false) \/
  (exists st, n <> 0 /\ size_exceeded imagesMetadata options = false /\
     the_loop = Some st /\
     toFile_ok (sprite imagesMetadata options (composites st)) png = true /\
     writeFileSync_ok json = true).
Proof.
  destruct (Z.eq_dec n 0) as [Hn|Hn]; [left; exact Hn|right].
  destruct (size_exceeded imagesMetadata options); [left; auto|right].
  destruct the_loop as [st|]; [right|left; auto].
  destruct (toFile_ok (sprite imagesMetadata options (composites st)) png) eqn:Hf;
    [right|left; exists st; auto].
  destruct (writeFileSync_ok json) eqn:Hj; [right|left]; exists st; auto.
Qed.

Lemma run_inr_inv (w w' : @world Buffer) :
  run w = (w', inr tt) ->
  exists st,
    n <> 0 /\ size_exceeded imagesMetadata options = false /\
    the_loop = Some st /\
    toFile_ok (sprite imagesMetadata options (composites st)) png = true /\
    writeFileSync_ok json = true /\
    w' = {| files := files w ++
              [(png, PngFile (sprite imagesMetadata options (composites st)));
               (json, JsonFile (jsonData imagesMetadata options (positions st)))];
            console := console w ++ success_events imagesMetadata options png json |}.
Proof.
  intros Hrun.
  destruct run_cases as [H|[[H1 H2]|[(H1 & H2 & H3)|[(st & H1 & H2 & H3 & H4)|
    [(st & H1 & H2 & H3 & H4 & H5)|(st & H1 & H2 & H3 & H4 & H5)]]]]].
  - rewrite run_empty in Hrun by assumption. discriminate.
  - rewrite run_size_exceeded in Hrun by assumption. discriminate.
  - rewrite run_loop_throws in Hrun by assumption. discriminate.
  - rewrite (run_toFile_throws w st) in Hrun by assumption. discriminate.
  - rewrite (run_writeFileSync_throws w st) in Hrun by assumption. discriminate.
  - rewrite (run_completes w st) in Hrun by assumption.
    injection Hrun as <-. exists st. repeat split; assumption.
Qed.

End Run_facts.

(** * The properties of the specification *)

Section Claims.

Context {Image Buffer : Type}.
Variable toBuffer : Image -> option Buffer.
Variable toFile_ok : @SpriteImage Buffer -> string -> bool.
Variable writeFileSync_ok : string -> bool.
Variable path_join : string -> string -> string.

Local Abbreviation init := {| composites := @nil (@Composite Buffer); positions := ∅ |}.

(** C1.  For every record sequence of length [n >= 1] the grid size is the
    ceiling of the square root of [n]: it is [Z.sqrt_up n], the one [g >= 1]
    with [(g - 1)^2 < n <= g^2]; it is 1 for [n = 1], 2 for [n] in 2..4,
    3 for [n] in 5..9 and 4 for [n] in 10..16.  The length of a JavaScript
    array is below [2 ^ 32], which is the bound under which the binary64
    evaluation of [Math.ceil(Math.sqrt(n))] is shown exact. *)
Theorem C1_gridSize_is_ceil_sqrt (imagesMetadata : list (@ImageMeta Image)) :
  1 <= imageCount imagesMetadata < 2 ^ 32 ->
  gridSize imagesMetadata = Z.sqrt_up (imageCount imagesMetadata) /\
  1 <= gridSize imagesMetadata /\
  (gridSize imagesMetadata - 1) * (gridSize imagesMetadata - 1)
    < imageCount imagesMetadata
    <= gridSize imagesMetadata * gridSize imagesMetadata /\
  (imageCount imagesMetadata = 1 -> gridSize imagesMetadata = 1) /\
  (2 <= imageCount imagesMetadata <= 4 -> gridSize imagesMetadata = 2) /\
  (5 <= imageCount imagesMetadata <= 9 -> gridSize imagesMetadata = 3) /\
  (10 <= imageCount imagesMetadata <= 16 -> gridSize imagesMetadata = 4).
Proof.
  intros Hn.
  destruct (gridSize_bracket imagesMetadata Hn) as [Hg Hsq].
  split; [apply gridSize_sqrt_up; lia|].
  split; [lia|]. split; [exact Hsq|].
  revert Hg Hsq. generalize (gridSize imagesMetadata) (imageCount imagesMetadata).
  intros g n Hg Hsq. repeat split; intros; nia.
Qed.

(** C5.  For every record, the entry that the loop stores under its file name
    (line 126) carries the record's own width and height, not those of the
    cell: it is there right after the iteration of the record, it is still
    there at the end unless a later record has the same file name, and every
    entry of the final mapping has the width and height of a record of that
    name.  The image is drawn as [toBuffer] returned it, at its offsets only:
    nothing scales, crops or clamps it. *)
Theorem C5_entries_keep_record_dimensions
    (imagesMetadata : list (@ImageMeta Image)) (options : Options)
    (st : loop_state) (i : nat) (r : ImageMeta) :
  loop toBuffer imagesMetadata options 0 imagesMetadata init = Some st ->
  imagesMetadata !! i = Some r ->
  (exists st_i,
     loop toBuffer imagesMetadata options 0 (take (S i) imagesMetadata) init
       = Some st_i /\
     positions st_i !! filename r =
       Some {| pos_x := x imagesMetadata options (Z.of_nat i);
               pos_y := y imagesMetadata options (Z.of_nat i);
               pos_width := width r;
               pos_height := height r |}) /\
  ((forall k rk, (i < k)%nat -> imagesMetadata !! k = Some rk ->
                 filename rk <> filename r) ->
   positions st !! filename r =
     Some {| pos_x := x imagesMetadata options (Z.of_nat i);
             pos_y := y imagesMetadata options (Z.of_nat i);
             pos_width := width r;
             pos_height := height r |}) /\
  (forall f e, positions st !! f = Some e ->
     exists k rk, imagesMetadata !! k = Some rk /\ filename rk = f /\
                  pos_width e = width rk /\ pos_height e = height rk) /\
  (exists buf, toBuffer (image r) = Some buf /\
     composites st !! i =
       Some {| input := buf;
               left := x imagesMetadata options (Z.of_nat i);
               top := y imagesMetadata options (Z.of_nat i) |}).
Proof.
  intros Hl Hi. repeat split.
  - rewrite <- (take_drop (S i) imagesMetadata) in Hl at 2.
    rewrite loop_app in Hl.
    destruct (loop toBuffer imagesMetadata options 0 (take (S i) imagesMetadata) init)
      as [st_i|] eqn:Hpre; [|discriminate].
    exists st_i. split; [reflexivity|].
    assert (Hti : take (S i) imagesMetadata !! i = Some r)
      by (rewrite lookup_take_lt by lia; exact Hi).
    rewrite (loop_lookup_last toBuffer imagesMetadata options _ _ _ _ i r Hpre Hti).
    + rewrite Z.add_0_l. reflexivity.
    + intros k' r' Hlt Hk'. apply lookup_lt_Some in Hk'.
      rewrite length_take in Hk'. lia.
  - intros Hlast.
    rewrite (loop_lookup_last toBuffer imagesMetadata options _ _ _ _ i r Hl Hi Hlast).
    rewrite Z.add_0_l. reflexivity.
  - intros f e He.
    destruct (loop_lookup_inv toBuffer imagesMetadata options _ _ _ _ _ _ Hl He)
      as [H|(k & rk & Hk & Hf & ->)]; [discriminate|].
    exists k, rk. auto.
  - destruct (loop_composites toBuffer imagesMetadata options _ _ _ _ Hl)
      as (_ & _ & Hnew).
    destruct (Hnew i r Hi) as (buf & Hbuf & Hc). exists buf.
    split; [exact Hbuf|]. rewrite Z.add_0_l in Hc. exact Hc.
Qed.



(** C10.  On every completed run the keys of the [images] mapping are exactly
    the file names of the input records; there are at most as many entries
    as records, and as many exactly when the file names are pairwise
    distinct. *)
Theorem C10_keys_are_the_filenames
    (imagesMetadata : list (@ImageMeta Image)) (options : Options)
    (outputDir : string) (w w' : @world Buffer) :
  generateSpriteFromDirectory toBuffer toFile_ok writeFileSync_ok path_join
    imagesMetadata options outputDir w = (w', inr tt) ->
  exists png img json doc,
    files w' = files w ++ [(png, PngFile img); (json, JsonFile doc)] /\
    dom (json_images doc) = list_to_set (filename <$> imagesMetadata) /\
    (forall f, is_Some (json_images doc !! f) <->
               exists r, r ∈ imagesMetadata /\ filename r = f) /\
    (size (json_images doc) <= length imagesMetadata)%nat /\
    (size (json_images doc) = length imagesMetadata <->
     NoDup (filename <$> imagesMetadata)).
Proof.
  intros Hrun. apply run_inr_inv in Hrun as (st & _ & _ & Hl & _ & _ & ->).
  do 4 eexists. split; [reflexivity|]. simpl.
  pose proof (loop_dom toBuffer imagesMetadata options _ _ _ _ Hl) as Hdom.
  simpl in Hdom. rewrite dom_empty_L, (left_id_L ∅ (∪)) in Hdom.
  assert (Hsize : size (positions st)
                  = size (list_to_set (filename <$> imagesMetadata) : gset string))
    by (rewrite <- Hdom; symmetry; apply size_dom).
  split; [exact Hdom|]. split; [|split].
  - intros f. rewrite <- elem_of_dom, Hdom, elem_of_list_to_set, list_elem_of_fmap.
    split; intros (r & H1 & H2); exists r; auto.
  - rewrite Hsize. rewrite <- (length_fmap filename). apply size_list_to_set_le.
  - rewrite Hsize. rewrite <- (length_fmap filename). apply size_list_to_set_NoDup.
Qed.

End Claims.

(** ** Two runs *)

Section Two_runs.

Context {Image1 Buffer1 Image2 Buffer2 : Type}.
Variable toBuffer1 : Image1 -> option Buffer1.
Variable toBuffer2 : Image2 -> option Buffer2.
Variable imagesMetadata1 : list (@ImageMeta Image1).
Variable imagesMetadata2 : list (@ImageMeta Image2).
Variable options1 options2 : Options.

Hypothesis same_records : record_key <$> imagesMetadata1 = record_key <$> imagesMetadata2.
Hypothesis same_padding : padding options1 = padding options2.

Lemma same_imageCount : imageCount imagesMetadata1 = imageCount imagesMetadata2.
Proof.
  unfold imageCount. f_equal.
  rewrite <- (length_fmap record_key imagesMetadata1), same_records.
  apply length_fmap.
Qed.

Lemma same_gridSize : gridSize imagesMetadata1 = gridSize imagesMetadata2.
Proof. unfold gridSize. rewrite same_imageCount. reflexivity. Qed.

Lemma same_widths : width <$> imagesMetadata1 = width <$> imagesMetadata2.
Proof.
  transitivity ((fun k : string * Z * Z => k.1.2) <$> (record_key <$> imagesMetadata1)).
  - rewrite <- list_fmap_compose. reflexivity.
  - rewrite same_records, <- list_fmap_compose. reflexivity.
Qed.

Lemma same_heights : height <$> imagesMetadata1 = height <$> imagesMetadata2.
Proof.
  transitivity ((fun k : string * Z * Z => k.2) <$> (record_key <$> imagesMetadata1)).
  - rewrite <- list_fmap_compose. reflexivity.
  - rewrite same_records, <- list_fmap_compose. reflexivity.
Qed.

Lemma same_maxCellWidth :
  maxCellWidth imagesMetadata1 options1 = maxCellWidth imagesMetadata2 options2.
Proof. unfold maxCellWidth. rewrite same_widths, same_padding. reflexivity. Qed.

Lemma same_maxCellHeight :
  maxCellHeight imagesMetadata1 options1 = maxCellHeight imagesMetadata2 options2.
Proof. unfold maxCellHeight. rewrite same_heights, same_padding. reflexivity. Qed.

Lemma same_x (i : Z) : x imagesMetadata1 options1 i = x imagesMetadata2 options2 i.
Proof. unfold x, col. rewrite same_gridSize, same_maxCellWidth. reflexivity. Qed.

Lemma same_y (i : Z) : y imagesMetadata1 options1 i = y imagesMetadata2 options2 i.
Proof. unfold y, row. rewrite same_gridSize, same_maxCellHeight. reflexivity. Qed.

Lemma same_loop (rest1 : list (@ImageMeta Image1)) (rest2 : list (@ImageMeta Image2))
    (i : Z) (st1 st1' : @loop_state Buffer1) (st2 st2' : @loop_state Buffer2) :
  record_key <$> rest1 = record_key <$> rest2 ->
  positions st1 = positions st2 ->
  offsets (composites st1) = offsets (composites st2) ->
  loop toBuffer1 imagesMetadata1 options1 i rest1 st1 = Some st1' ->
  loop toBuffer2 imagesMetadata2 options2 i rest2 st2 = Some st2' ->
  positions st1' = positions st2' /\
  offsets (composites st1') = offsets (composites st2').
Proof.
  revert rest2 i st1 st2.
  induction rest1 as [|r1 rest1 IH]; intros [|r2 rest2] i st1 st2 Hk Hp Ho H1 H2;
    try discriminate.
  - injection H1 as <-. injection H2 as <-. auto.
  - simpl in H1, H2.
    destruct (loop_body toBuffer1 _ _ i r1 st1) as [s1|] eqn:Hb1; [|discriminate].
    destruct (loop_body toBuffer2 _ _ i r2 st2) as [s2|] eqn:Hb2; [|discriminate].
    apply loop_body_Some in Hb1 as (b1 & _ & ->).
    apply loop_body_Some in Hb2 as (b2 & _ & ->).
    injection Hk as Hf Hw Hh Hk.
    refine (IH rest2 (i + 1) _ _ Hk _ _ H1 H2); simpl.
    + unfold position_at. rewrite Hf, Hw, Hh, Hp, same_x, same_y. reflexivity.
    + unfold offsets in *. rewrite !fmap_app, Ho. simpl.
      rewrite same_x, same_y. reflexivity.
Qed.

End Two_runs.

(** C8.  The layout and the placement are functions of the ordered sequence
    of (file name, width, height) and of the padding: two runs that agree on
    them, whatever their image handles, decoders, output names and
    directories are, compute the same grid size, cell and sheet dimensions,
    take the same decision at the size check when [maxSize] agrees too, and,
    when both loops finish, build the same mapping, the same offsets and the
    same JSON document.  Two runs on identical inputs are the particular
    case. *)
Theorem C8_layout_and_placement_deterministic
    {Image1 Buffer1 Image2 Buffer2 : Type}
    (toBuffer1 : Image1 -> option Buffer1) (toBuffer2 : Image2 -> option Buffer2)
    (imagesMetadata1 : list (@ImageMeta Image1))
    (imagesMetadata2 : list (@ImageMeta Image2))
    (options1 options2 : Options) :
  record_key <$> imagesMetadata1 = record_key <$> imagesMetadata2 ->
  padding options1 = padding options2 ->
  maxSize options1 = maxSize options2 ->
  gridSize imagesMetadata1 = gridSize imagesMetadata2 /\
  maxCellWidth imagesMetadata1 options1 = maxCellWidth imagesMetadata2 options2 /\
  maxCellHeight imagesMetadata1 options1 = maxCellHeight imagesMetadata2 options2 /\
  spriteWidth imagesMetadata1 options1 = spriteWidth imagesMetadata2 options2 /\
  spriteHeight imagesMetadata1 options1 = spriteHeight imagesMetadata2 options2 /\
  size_exceeded imagesMetadata1 options1 = size_exceeded imagesMetadata2 options2 /\
  (forall st1 st2,
     loop toBuffer1 imagesMetadata1 options1 0 imagesMetadata1
       {| composites := []; positions := ∅ |} = Some st1 ->
     loop toBuffer2 imagesMetadata2 options2 0 imagesMetadata2
       {| composites := []; positions := ∅ |} = Some st2 ->
     positions st1 = positions st2 /\
     offsets (composites st1) = offsets (composites st2) /\
     jsonData imagesMetadata1 options1 (positions st1) =
     jsonData imagesMetadata2 options2 (positions st2)).
Proof.
  intros Hrec Hpad Hmax.
  pose proof (same_gridSize _ _ Hrec) as Hg.
  pose proof (same_maxCellWidth _ _ options1 options2 Hrec Hpad) as Hcw.
  pose proof (same_maxCellHeight _ _ options1 options2 Hrec Hpad) as Hch.
  assert (Hsw : spriteWidth imagesMetadata1 options1 = spriteWidth imagesMetadata2 options2)
    by (unfold spriteWidth; rewrite Hg, Hcw; reflexivity).
  assert (Hsh : spriteHeight imagesMetadata1 options1 = spriteHeight imagesMetadata2 options2)
    by (unfold spriteHeight; rewrite Hg, Hch; reflexivity).
  do 5 (split; [assumption|]). split.
  - unfold size_exceeded. rewrite Hsw, Hsh, Hmax. reflexivity.
  - intros st1 st2 H1 H2.
    destruct (same_loop toBuffer1 toBuffer2 _ _ options1 options2 Hrec Hpad
                imagesMetadata1 imagesMetadata2 0
                {| composites := []; positions := ∅ |} st1
                {| composites := []; positions := ∅ |} st2
                Hrec eq_refl eq_refl H1 H2) as [Hp Ho].
    split; [exact Hp|]. split; [exact Ho|].
    unfold jsonData. rewrite Hsw, Hsh, Hg, Hp, (same_imageCount _ _ Hrec). reflexivity.
Qed.

(** * Concrete runs *)

(** Scenario A: one image of 100 x 100, no padding. *)
Example scenario_A :
  exists w' img doc,
    sample_run one_image (sample_options 0 4096) = (w', inr tt) /\
    files w' = [("output/sprite.png", PngFile img);
                ("output/sprite.json", JsonFile doc)] /\
    json_gridSize doc = 1 /\ json_spriteWidth doc = 100 /\
    json_spriteHeight doc = 100 /\ json_imageCount doc = 1 /\
    json_images doc !! "a.png" =
      Some {| pos_x := 0; pos_y := 0; pos_width := 100; pos_height := 100 |}.
Proof. do 3 eexists. split; [vm_compute; reflexivity|]. repeat split. Qed.

(** Scenario B: four images of at most 50 x 50 with a padding of 10. *)
Example scenario_B :
  gridSize four_images = 2 /\
  maxCellWidth four_images (sample_options 10 4096) = 60 /\
  maxCellHeight four_images (sample_options 10 4096) = 60 /\
  spriteWidth four_images (sample_options 10 4096) = 120 /\
  spriteHeight four_images (sample_options 10 4096) = 120 /\
  (offsets ∘ composites) <$> sample_loop four_images (sample_options 10 4096)
    = Some [(0, 0); (60, 0); (0, 60); (60, 60)].
Proof. vm_compute. repeat split. Qed.

(** Scenario C: seven images fill seven of the nine cells of a 3 x 3 grid. *)
Example scenario_C :
  gridSize seven_images = 3 /\ totalCells seven_images = 9 /\
  imageCount seven_images = 7.
Proof. vm_compute. repeat split. Qed.

(** Scenario D: the sheet of 120 x 120 exceeds a maximum of 119; nothing is
    written.  With a maximum of 120 the run completes. *)
Example scenario_D :
  sample_run four_images (sample_options 10 119) =
    ({| files := [];
        console := [spinner_start ScanningImageDirectory;
                    spinner_succeed (FoundImages 4);
                    spinner_fail (DimensionsExceedMaximum 120 120 119)] |},
     inl (ProcessExit 1)) /\
  (sample_run four_images (sample_options 10 120)).2 = inr tt.
Proof. vm_compute. split; reflexivity. Qed.

(** Scenario E: no image. *)
Example scenario_E :
  sample_run [] (sample_options 0 4096) =
    ({| files := [];
        console := [spinner_start ScanningImageDirectory;
                    spinner_fail NoImagesFound] |},
     inl (ProcessExit 1)).
Proof. vm_compute. reflexivity. Qed.

(** A rejected [toBuffer] aborts the run before any file is written; a
    rejected [writeFileSync] leaves the PNG file behind. *)
Example rejected_buffer :
  generateSpriteFromDirectory (Buffer := nat)
    (fun im : nat => if decide (im = 2%nat) then None else Some im)
    (fun _ _ => true) (fun _ => true) sample_join
    four_images (sample_options 10 4096) "output" sample_world =
  ({| files := [];
      console := [spinner_start ScanningImageDirectory;
                  spinner_succeed (FoundImages 4);
                  spinner_succeed (CalculatedLayout 2);
                  spinner_succeed (SpriteDimensions 120 120);
                  spinner_fail ErrorMessage] |},
   inl (ProcessExit 1)).
Proof. vm_compute. reflexivity. Qed.

Example rejected_json_write :
  exists img,
    files (generateSpriteFromDirectory (Buffer := nat) Some
             (fun _ _ => true) (fun _ => false) sample_join
             one_image (sample_options 0 4096) "output" sample_world).1 =
    [("output/sprite.png", PngFile img)].
Proof. eexists. vm_compute. reflexivity. Qed.

(** Beyond [2 ^ 52] the binary64 square root of a number just above a perfect
    square is that square's root, and the computed ceiling is one short;
    no array is that long. *)
Example ceil_sqrt_beyond_2_52 :
  let k := 2 ^ 26 + 1 in
  Math_ceil (Math_sqrt (k * k + 1)) = k /\ Z.sqrt_up (k * k + 1) = k + 1.
Proof. vm_compute. split; reflexivity. Qed.

(** ** The claims at sample inputs *)

Lemma C1_witness :
  1 <= imageCount seven_images < 2 ^ 32 /\
  gridSize seven_images = Z.sqrt_up 7 /\ gridSize seven_images = 3.
Proof.
  assert (H : 1 <= imageCount seven_images < 2 ^ 32) by (vm_compute; split; [discriminate|reflexivity]).
  split; [exact H|].
  destruct (C1_gridSize_is_ceil_sqrt seven_images H) as (H1 & _ & _ & _ & _ & H3 & _).
  split; [exact H1|]. apply H3. vm_compute. split; discriminate.
Defined.

Lemma C5_witness :
  exists st,
    sample_loop twins (sample_options 0 4096) = Some st /\
    twins !! 1%nat = Some (sample_meta "a.png" 20 30 1) /\
    positions st !! "a.png" =
      Some {| pos_x := x twins (sample_options 0 4096) 1;
              pos_y := y twins (sample_options 0 4096) 1;
              pos_width := 20; pos_height := 30 |} /\
    composites st !! 1%nat =
      Some {| input := 1%nat;
              left := x twins (sample_options 0 4096) 1;
              top := y twins (sample_options 0 4096) 1 |}.
Proof.
  eexists. split; [vm_compute; reflexivity|]. split; [reflexivity|].
  match goal with
  | |- positions ?st !! _ = _ /\ _ =>
      destruct (C5_entries_keep_record_dimensions Some twins (sample_options 0 4096)
                  st 1 (sample_meta "a.png" 20 30 1) eq_refl eq_refl)
        as (_ & H2 & _ & (buf & Hbuf & H4))
  end.
  split.
  - apply H2. intros [|[|[|k]]] rk Hlt Hk; try lia; [|discriminate].
    injection Hk as <-. discriminate.
  - injection Hbuf as <-. exact H4.
Defined.


Lemma C8_witness :
  record_key <$> four_images =
    record_key <$> ((fun r => sample_meta (filename r) (width r) (height r)
                                           (image r + 10)) <$> four_images) /\
  gridSize four_images =
    gridSize ((fun r => sample_meta (filename r) (width r) (height r)
                                     (image r + 10)) <$> four_images) /\
  spriteWidth four_images (sample_options 10 4096) =
    spriteWidth ((fun r => sample_meta (filename r) (width r) (height r)
                                        (image r + 10)) <$> four_images)
                {| name := "other"; padding := 10; maxSize := 4096 |}.
Proof.
  assert (H : record_key <$> four_images =
    record_key <$> ((fun r => sample_meta (filename r) (width r) (height r)
                                           (image r + 10)) <$> four_images))
    by reflexivity.
  split; [exact H|].
  destruct (C8_layout_and_placement_deterministic
              (Buffer1 := nat) (Buffer2 := nat) Some Some _ _
              (sample_options 10 4096)
              {| name := "other"; padding := 10; maxSize := 4096 |}
              H eq_refl eq_refl) as (Hg & _ & _ & Hsw & _).
  split; [exact Hg|exact Hsw].
Defined.


Lemma C10_witness :
  exists w' png img json doc,
    sample_run twins (sample_options 0 4096) = (w', inr tt) /\
    files w' = files sample_world ++ [(png, PngFile img); (json, JsonFile doc)] /\
    dom (json_images doc) = list_to_set (filename <$> twins) /\
    (size (json_images doc) <= length twins)%nat.
Proof.
  eexists.
  match goal with
  | |- exists png img json doc, sample_run ?r ?o = (?w', _) /\ _ =>
      assert (Hrun : sample_run r o = (w', inr tt)) by (vm_compute; reflexivity);
      destruct (C10_keys_are_the_filenames Some (fun _ _ => true) (fun _ => true)
                  sample_join r o "output" sample_world w' Hrun)
        as (png & img & json & doc & Hfiles & Hdom & _ & Hle & _)
  end.
  exists png, img, json, doc. auto.
Defined.

(** * Further properties of the code *)

(** ** Helper facts *)

Lemma sqrt_up_unique (m c : Z) :
  0 < c -> (c - 1) * (c - 1) < m <= c * c -> Z.sqrt_up m = c.
Proof.
  intros Hc Hm.
  assert (Hm0 : 0 < m) by nia.
  pose proof (Z.sqrt_up_spec m Hm0) as Hs.
  pose proof (proj2 (Z.sqrt_up_pos m) Hm0) as Hp.
  unfold Z.pred in Hs. rewrite <- !Z.pow_2_r in Hs. rewrite !Z.pow_2_r in Hs.
  set (s := Z.sqrt_up m) in *.
  assert (~ s < c) by nia. assert (~ c < s) by nia. lia.
Qed.

Section Cell_facts.

Context {Image : Type}.
Variable imagesMetadata : list (@ImageMeta Image).
Variable options : Options.



End Cell_facts.

Lemma last_index_with_name {Image : Type} (l : list (@ImageMeta Image)) (f : string) :
  (exists k r, l !! k = Some r /\ filename r = f) ->
  exists k r, l !! k = Some r /\ filename r = f /\
    forall k' r', (k < k')%nat -> l !! k' = Some r' -> filename r' <> f.
Proof.
  induction l as [|a l IH]; intros (k & r & Hk & Hf); [discriminate|].
  assert (Hiff : f ∈ filename <$> l <->
                 exists k' r', l !! k' = Some r' /\ filename r' = f).
  { rewrite list_elem_of_fmap. split.
    - intros (r' & Hr' & Hin). apply list_elem_of_lookup in Hin as [k' Hk'].
      exists k', r'. auto.
    - intros (k' & r' & Hk' & Hr'). exists r'. split; [auto|].
      apply list_elem_of_lookup. eauto. }
  destruct (decide (f ∈ filename <$> l)) as [Hin|Hout];
    [apply Hiff in Hin|rewrite Hiff in Hout].
  - destruct (IH Hin) as (k1 & r1 & Hk1 & Hf1 & Hlast).
    exists (S k1), r1. split; [exact Hk1|]. split; [exact Hf1|].
    intros [|k'] r' Hlt Hk'; [lia|]. apply (Hlast k' r'); [lia|exact Hk'].
  - exists 0%nat, a. destruct k as [|k].
    + injection Hk as ->. split; [reflexivity|]. split; [exact Hf|].
      intros [|k'] r' Hlt Hk' Hf'; [lia|]. apply Hout. eauto.
    + exfalso. apply Hout. eauto.
Qed.

Lemma Math_max_snoc (xs : list Z) (a : Z) :
  xs <> [] -> Math_max (xs ++ [a]) = Z.max (Math_max xs) a.
Proof.
  destruct xs as [|b xs]; intros Hne; [congruence|]. simpl.
  rewrite foldl_app. reflexivity.
Qed.

Lemma Math_max_Permutation (xs ys : list Z) :
  xs ≡ₚ ys -> Math_max xs = Math_max ys.
Proof.
  intros Hp. destruct xs as [|a xs].
  - apply Permutation_nil_l in Hp. subst ys. reflexivity.
  - assert (Hx : a :: xs <> []) by discriminate.
    assert (Hy : ys <> []) by (intros ->; apply Permutation_nil_r in Hp; discriminate).
    apply Z.le_antisymm.
    + apply Math_max_ub. rewrite <- Hp. apply Math_max_attained, Hx.
    + apply Math_max_ub. rewrite Hp. apply Math_max_attained, Hy.
Qed.

Section Extras.

Context {Image Buffer : Type}.
Variable toBuffer : Image -> option Buffer.
Variable toFile_ok : @SpriteImage Buffer -> string -> bool.
Variable writeFileSync_ok : string -> bool.
Variable path_join : string -> string -> string.

Local Abbreviation init := {| composites := @nil (@Composite Buffer); positions := ∅ |}.


(** X2.  The cells are filled in row-major order: the first record is in
    the top left cell, and each record goes to the cell right of the
    previous one, or to the first cell of the next row when the previous one
    was in the last column. *)
Theorem X2_next_cell
    (imagesMetadata : list (@ImageMeta Image)) (i : Z) :
  1 <= imageCount imagesMetadata < 2 ^ 32 ->
  0 <= i -> i + 1 < imageCount imagesMetadata ->
  (row imagesMetadata 0, col imagesMetadata 0) = (0, 0) /\
  (row imagesMetadata (i + 1), col imagesMetadata (i + 1)) =
    if col imagesMetadata i <? gridSize imagesMetadata - 1
    then (row imagesMetadata i, col imagesMetadata i + 1)
    else (row imagesMetadata i + 1, 0).
Proof.
  intros Hn Hi0 Hi1.
  destruct (gridSize_bracket imagesMetadata Hn) as [Hg _].
  rewrite !row_div, !col_mod by lia.
  set (g := gridSize imagesMetadata) in *.
  split.
  - rewrite Z.div_0_l, Z.mod_0_l by lia. reflexivity.
  - pose proof (Z.div_mod i g ltac:(lia)) as Hdm.
    pose proof (Z.mod_pos_bound i g ltac:(lia)) as Hmod.
    destruct (Z.ltb_spec (i mod g) (g - 1)) as [Hlt|Hge].
    + f_equal.
      * symmetry. apply (Z.div_unique (i + 1) g (i / g) (i mod g + 1)); lia.
      * symmetry. apply (Z.mod_unique (i + 1) g (i / g) (i mod g + 1)); lia.
    + f_equal.
      * symmetry. apply (Z.div_unique (i + 1) g (i / g + 1) 0); lia.
      * symmetry. apply (Z.mod_unique (i + 1) g (i / g + 1) 0); lia.
Qed.

(** X3.  The grid is never less than half full: the number of cells is at
    least the number of images and at most twice that number, and fewer
    than two rows of cells stay empty (lines 70-72, printed at lines
    153-154). *)
Theorem X3_utilization
    (imagesMetadata : list (@ImageMeta Image)) :
  1 <= imageCount imagesMetadata < 2 ^ 32 ->
  imageCount imagesMetadata <= totalCells imagesMetadata
    <= 2 * imageCount imagesMetadata /\
  totalCells imagesMetadata - imageCount imagesMetadata
    < 2 * gridSize imagesMetadata - 1.
Proof.
  intros Hn. destruct (gridSize_bracket imagesMetadata Hn) as [Hg Hsq].
  unfold totalCells. revert Hg Hsq.
  generalize (gridSize imagesMetadata) (imageCount imagesMetadata).
  intros g n Hg Hsq.
  pose proof (Z.square_nonneg (g - 2)) as Hsq2. nia.
Qed.

(** X5.  A run only appends to the files: what was there before is kept.
    The JSON file is written only by a run that completes, and then right
    after the PNG file.  A run that fails writes nothing, except that it
    leaves the PNG file behind when [writeFileSync] is what threw. *)
Theorem X5_files_written
    (imagesMetadata : list (@ImageMeta Image)) (options : Options)
    (outputDir : string) (w : @world Buffer) :
  let out := generateSpriteFromDirectory toBuffer toFile_ok writeFileSync_ok
               path_join imagesMetadata options outputDir w in
  let png := path_join outputDir (name options +:+ ".png") in
  let json := path_join outputDir (name options +:+ ".json") in
  exists new,
    files out.1 = files w ++ new /\
    (out.2 = inr tt ->
     exists img doc, new = [(png, PngFile img); (json, JsonFile doc)]) /\
    (out.2 <> inr tt ->
     new = [] \/
     (writeFileSync_ok json = false /\ exists img, new = [(png, PngFile img)])) /\
    (forall file doc, (file, JsonFile doc) ∈ new -> out.2 = inr tt).
Proof.
  intros out png json.
  destruct (run_cases toBuffer toFile_ok writeFileSync_ok path_join
              imagesMetadata options outputDir)
    as [H|[[H1 H2]|[(H1 & H2 & H3)|[(st & H1 & H2 & H3 & H4)|
       [(st & H1 & H2 & H3 & H4 & H5)|(st & H1 & H2 & H3 & H4 & H5)]]]]].
  - assert (Hout : out = _) by (apply run_empty; assumption).
    rewrite Hout. exists []. simpl. rewrite app_nil_r.
    repeat split; [discriminate|auto|intros ? ? Hin; inversion Hin].
  - assert (Hout : out = _) by (apply run_size_exceeded; assumption).
    rewrite Hout. exists []. simpl. rewrite app_nil_r.
    repeat split; [discriminate|auto|intros ? ? Hin; inversion Hin].
  - assert (Hout : out = _) by (apply run_loop_throws; assumption).
    rewrite Hout. exists []. simpl. rewrite app_nil_r.
    repeat split; [discriminate|auto|intros ? ? Hin; inversion Hin].
  - assert (Hout : out = _) by (apply (run_toFile_throws _ _ _ _ _ _ _ w st); assumption).
    rewrite Hout. exists []. simpl. rewrite app_nil_r.
    repeat split; [discriminate|auto|intros ? ? Hin; inversion Hin].
  - assert (Hout : out = _)
      by (apply (run_writeFileSync_throws _ _ _ _ _ _ _ w st); assumption).
    rewrite Hout. eexists. simpl. split; [reflexivity|].
    split; [discriminate|]. split.
    + intros _. right. split; [exact H5|]. eexists. reflexivity.
    + intros file doc Hin. apply list_elem_of_singleton in Hin. discriminate.
  - assert (Hout : out = _) by (apply (run_completes _ _ _ _ _ _ _ w st); assumption).
    rewrite Hout. eexists. simpl. split; [reflexivity|].
    split; [intros _; eauto|]. split; [congruence|reflexivity].
Qed.

(** X6.  The order of the records changes only which image goes to which
    cell: a permutation of the records gives the same grid size, the same
    cell and sheet dimensions and the same offsets for every index. *)
Theorem X6_order_changes_only_the_assignment
    (imagesMetadata imagesMetadata' : list (@ImageMeta Image)) (options : Options) :
  imagesMetadata ≡ₚ imagesMetadata' ->
  gridSize imagesMetadata' = gridSize imagesMetadata /\
  maxCellWidth imagesMetadata' options = maxCellWidth imagesMetadata options /\
  maxCellHeight imagesMetadata' options = maxCellHeight imagesMetadata options /\
  spriteWidth imagesMetadata' options = spriteWidth imagesMetadata options /\
  spriteHeight imagesMetadata' options = spriteHeight imagesMetadata options /\
  (forall i, x imagesMetadata' options i = x imagesMetadata options i /\
             y imagesMetadata' options i = y imagesMetadata options i).
Proof.
  intros Hp.
  assert (Hg : gridSize imagesMetadata' = gridSize imagesMetadata)
    by (unfold gridSize, imageCount; rewrite (Permutation_length Hp); reflexivity).
  assert (Hcw : maxCellWidth imagesMetadata' options = maxCellWidth imagesMetadata options).
  { unfold maxCellWidth. f_equal. apply Math_max_Permutation.
    symmetry. apply fmap_Permutation, Hp. }
  assert (Hch : maxCellHeight imagesMetadata' options = maxCellHeight imagesMetadata options).
  { unfold maxCellHeight. f_equal. apply Math_max_Permutation.
    symmetry. apply fmap_Permutation, Hp. }
  split; [exact Hg|]. split; [exact Hcw|]. split; [exact Hch|].
  unfold spriteWidth, spriteHeight, x, y, row, col. rewrite Hg, Hcw, Hch. auto.
Qed.

(** X8.  Adding one record at the end.  The grid grows by one exactly when
    it was full.  When a cell was free and the new image is not larger than
    the largest one, the sheet keeps its size and every offset, and the loop
    only adds one composite and one entry to what it built before: the
    images already there do not move. *)
Theorem X8_adding_a_record
    (imagesMetadata : list (@ImageMeta Image)) (r : ImageMeta)
    (options : Options) :
  1 <= imageCount imagesMetadata ->
  imageCount imagesMetadata + 1 < 2 ^ 32 ->
  gridSize (imagesMetadata ++ [r]) =
    (if imageCount imagesMetadata =? totalCells imagesMetadata
     then gridSize imagesMetadata + 1 else gridSize imagesMetadata) /\
  (imageCount imagesMetadata < totalCells imagesMetadata ->
   width r <= Math_max (width <$> imagesMetadata) ->
   height r <= Math_max (height <$> imagesMetadata) ->
   spriteWidth (imagesMetadata ++ [r]) options = spriteWidth imagesMetadata options /\
   spriteHeight (imagesMetadata ++ [r]) options = spriteHeight imagesMetadata options /\
   (forall i, x (imagesMetadata ++ [r]) options i = x imagesMetadata options i /\
              y (imagesMetadata ++ [r]) options i = y imagesMetadata options i) /\
   (forall st buf,
      loop toBuffer imagesMetadata options 0 imagesMetadata init = Some st ->
      toBuffer (image r) = Some buf ->
      loop toBuffer (imagesMetadata ++ [r]) options 0 (imagesMetadata ++ [r]) init =
      Some {| composites :=
                composites st ++
                [composite_at imagesMetadata options (imageCount imagesMetadata) buf];
              positions :=
                <[filename r :=
                    position_at imagesMetadata options (imageCount imagesMetadata) r]>
                  (positions st) |})).
Proof.
  intros Hn1 Hn2.
  assert (Hn : 1 <= imageCount imagesMetadata < 2 ^ 32) by lia.
  assert (Hcount : imageCount (imagesMetadata ++ [r]) = imageCount imagesMetadata + 1)
    by (unfold imageCount; rewrite length_app; simpl; lia).
  destruct (gridSize_bracket imagesMetadata Hn) as [Hg Hsq].
  assert (Hgrid : gridSize (imagesMetadata ++ [r]) =
                  if imageCount imagesMetadata =? totalCells imagesMetadata
                  then gridSize imagesMetadata + 1 else gridSize imagesMetadata).
  { rewrite (gridSize_sqrt_up (imagesMetadata ++ [r])) by lia. rewrite Hcount.
    unfold totalCells.
    destruct (Z.eqb_spec (imageCount imagesMetadata)
                (gridSize imagesMetadata * gridSize imagesMetadata)) as [Heq|Hne];
      apply sqrt_up_unique; nia. }
  split; [exact Hgrid|].
  intros Hfree Hw Hh.
  assert (Hg' : gridSize (imagesMetadata ++ [r]) = gridSize imagesMetadata).
  { rewrite Hgrid. destruct (Z.eqb_spec (imageCount imagesMetadata)
                               (totalCells imagesMetadata)); [lia|reflexivity]. }
  assert (Hne : imagesMetadata <> [])
    by (intros ->; unfold imageCount in Hn1; simpl in Hn1; lia).
  assert (Hcw : maxCellWidth (imagesMetadata ++ [r]) options
                = maxCellWidth imagesMetadata options).
  { unfold maxCellWidth. rewrite fmap_app. simpl.
    rewrite Math_max_snoc by (destruct imagesMetadata; [congruence|discriminate]).
    lia. }
  assert (Hch : maxCellHeight (imagesMetadata ++ [r]) options
                = maxCellHeight imagesMetadata options).
  { unfold maxCellHeight. rewrite fmap_app. simpl.
    rewrite Math_max_snoc by (destruct imagesMetadata; [congruence|discriminate]).
    lia. }
  assert (Hxy : forall i, x (imagesMetadata ++ [r]) options i = x imagesMetadata options i /\
                          y (imagesMetadata ++ [r]) options i = y imagesMetadata options i).
  { intros i. unfold x, y, row, col. rewrite Hg', Hcw, Hch. auto. }
  split; [unfold spriteWidth; rewrite Hg', Hcw; reflexivity|].
  split; [unfold spriteHeight; rewrite Hg', Hch; reflexivity|].
  split; [exact Hxy|].
  intros st buf Hl Hbuf.
  assert (Hext : forall rest i s,
            loop toBuffer (imagesMetadata ++ [r]) options i rest s =
            loop toBuffer imagesMetadata options i rest s).
  { induction rest as [|a rest IH]; intros i s; simpl; [reflexivity|].
    unfold loop_body. destruct (Hxy i) as [-> ->].
    destruct (toBuffer (image a)); [apply IH|reflexivity]. }
  rewrite Hext, loop_app, Hl. simpl. unfold loop_body. rewrite Hbuf.
  unfold composite_at, position_at, imageCount. rewrite Z.add_0_l. reflexivity.
Qed.

End Extras.

(** ** From the directory to the records *)

Section Collector_facts.

Context {Image : Type}.
Variable extname : string -> string.
Variable toLowerCase : string -> string.
Variable path_join : string -> string -> string.
Variable basename : string -> string.
Variable sharp : string -> Image.
Variable metadata : Image -> option (Z * Z).

Local Abbreviation collect' := (collect basename sharp metadata).

Lemma collect_acc (rest : list string) (acc : list (@ImageMeta Image)) :
  collect' rest acc =
  match collect' rest [] with
  | inr l => inr (acc ++ l)
  | inl file => inl file
  end.
Proof.
  revert acc. induction rest as [|p rest IH]; intros acc; simpl.
  - rewrite app_nil_r. reflexivity.
  - destruct (metadata (sharp p)) as [[w h]|]; [|reflexivity].
    rewrite IH. rewrite (IH [_]).
    destruct (collect' rest []); [reflexivity|].
    rewrite <- app_assoc. reflexivity.
Qed.

Lemma collect_cons (p : string) (rest : list string) :
  collect' (p :: rest) [] =
  match metadata (sharp p) with
  | Some (w, h) =>
      match collect' rest [] with
      | inr l => inr ({| path := p; filename := basename p;
                         width := w; height := h; image := sharp p |} :: l)
      | inl file => inl file
      end
  | None => inl (basename p)
  end.
Proof.
  simpl. destruct (metadata (sharp p)) as [[w h]|]; [|reflexivity].
  rewrite collect_acc. reflexivity.
Qed.

(** X9.  The loop of lines 49-68 reaches its end exactly when the metadata
    of every image can be read; [imagesMetadata] then has one record per
    path, in the order of the paths, with that path, its base name as file
    name, the width and height that [metadata] gave, and the handle that
    [sharp] made for the path. *)
Theorem X9_collect_records (paths : list string) :
  ((exists recs, collect basename sharp metadata paths [] = inr recs) <->
   Forall (fun p => is_Some (metadata (sharp p))) paths) /\
  (forall recs, collect basename sharp metadata paths [] = inr recs ->
     length recs = length paths /\
     forall k p, paths !! k = Some p ->
       exists w h, metadata (sharp p) = Some (w, h) /\
         recs !! k = Some {| path := p; filename := basename p;
                             width := w; height := h; image := sharp p |}).
Proof.
  induction paths as [|p paths [IH1 IH2]].
  - split.
    + split; [constructor|]. intros _. exists []. reflexivity.
    + intros recs [= <-]. split; [reflexivity|]. intros k p [=].
  - rewrite collect_cons. split.
    + rewrite Forall_cons, <- IH1.
      destruct (metadata (sharp p)) as [[w h]|].
      * split.
        -- intros [recs Hrecs]. split; [eexists; reflexivity|].
           destruct (collect' paths []) as [|l]; [discriminate|].
           exists l. reflexivity.
        -- intros [_ [l Hl]]. rewrite Hl. eexists. reflexivity.
      * split; [intros [? [=]]|intros [[? [=]] _]].
    + intros recs Hrecs.
      destruct (metadata (sharp p)) as [[w h]|] eqn:Hm; [|discriminate].
      destruct (collect' paths []) as [|l]; [discriminate|].
      injection Hrecs as <-. destruct (IH2 l eq_refl) as [Hlen Hk].
      split; [simpl; lia|].
      intros [|k] q Hq.
      * injection Hq as <-. exists w, h. split; [exact Hm|reflexivity].
      * apply Hk, Hq.
Qed.

(** X10.  The loop leaves at lines 62-66 exactly when some image cannot be
    read, and the file it names is the base name of the first such path:
    every path before it was read. *)
Theorem X10_collect_first_failure (paths : list string) (file : string) :
  collect basename sharp metadata paths [] = inl file <->
  exists k p,
    paths !! k = Some p /\ metadata (sharp p) = None /\ file = basename p /\
    forall j q, (j < k)%nat -> paths !! j = Some q -> is_Some (metadata (sharp q)).
Proof.
  induction paths as [|p paths IH].
  - split; [discriminate|]. intros (k & q & [=] & _).
  - rewrite collect_cons. destruct (metadata (sharp p)) as [[w h]|] eqn:Hm.
    + split.
      * intros Hc. destruct (collect' paths []) as [f|l]; [|discriminate].
        injection Hc as ->.
        destruct (proj1 IH eq_refl) as (k & q & Hk & Hq & Hf & Hbefore).
        exists (S k), q. split; [exact Hk|]. split; [exact Hq|]. split; [exact Hf|].
        intros [|j] q' Hlt Hj.
        -- injection Hj as <-. rewrite Hm. eauto.
        -- apply (Hbefore j); [lia|exact Hj].
      * intros (k & q & Hk & Hq & Hf & Hbefore). destruct k as [|k].
        -- injection Hk as ->. congruence.
        -- assert (Hrest : collect' paths [] = inl file).
           { apply IH. exists k, q. split; [exact Hk|]. split; [exact Hq|].
             split; [exact Hf|]. intros j q' Hlt Hj.
             apply (Hbefore (S j)); [lia|exact Hj]. }
           rewrite Hrest. reflexivity.
    + split.
      * intros [= <-]. exists 0%nat, p. split; [reflexivity|]. split; [exact Hm|].
        split; [reflexivity|]. intros j q Hlt. lia.
      * intros (k & q & Hk & Hq & Hf & Hbefore). destruct k as [|k].
        -- injection Hk as ->. rewrite Hf. reflexivity.
        -- exfalso. destruct (Hbefore 0%nat p) as [? Hsome]; [lia|reflexivity|].
           congruence.
Qed.

(** The file names of the records are the base names of the paths. *)
Lemma collect_filenames (paths : list string) (recs : list (@ImageMeta Image)) :
  collect' paths [] = inr recs -> filename <$> recs = basename <$> paths.
Proof.
  revert recs. induction paths as [|p paths IH]; intros recs.
  - intros [= <-]. reflexivity.
  - rewrite collect_cons. destruct (metadata (sharp p)) as [[w h]|]; [|discriminate].
    destruct (collect' paths []) as [|l]; [discriminate|].
    intros [= <-]. simpl. f_equal. apply IH. reflexivity.
Qed.

Lemma imagePaths_basenames (inputDir : string) (files : list string) :
  Forall (fun file => basename (path_join inputDir file) = file) files ->
  basename <$> imagePaths extname toLowerCase path_join inputDir files =
  filter (fun file => toLowerCase (extname file) ∈ imageExtensions) files.
Proof.
  intros Hb. unfold imagePaths. rewrite <- list_fmap_compose.
  induction files as [|f files IH]; [reflexivity|].
  apply Forall_cons in Hb as [Hf Hb]. rewrite filter_cons.
  destruct (decide (toLowerCase (extname f) ∈ imageExtensions)); [|apply IH, Hb].
  rewrite fmap_cons, IH by exact Hb. f_equal. exact Hf.
Qed.

End Collector_facts.

Section Directory_runs.

Context {Image Buffer : Type}.
Variable extname : string -> string.
Variable toLowerCase : string -> string.
Variable path_join : string -> string -> string.
Variable basename : string -> string.
Variable sharp : string -> Image.
Variable metadata : Image -> option (Z * Z).
Variable toBuffer : Image -> option Buffer.
Variable toFile_ok : @SpriteImage Buffer -> string -> bool.
Variable writeFileSync_ok : string -> bool.

(** X11.  Records that come from a directory never collide.  When the
    entries of the directory are pairwise distinct and [path.basename] gives
    back the entry that [path.join] appended to the directory, as it does
    for the names [readdirSync] returns, the file names of the records are
    the entries with an image extension, in the order of the listing and
    without repetition; a run on them that completes writes a document in
    which [imageCount] is the number of entries of [images], and every
    record has its own entry. *)
Theorem X11_directory_records_do_not_collide
    (inputDir outputDir : string) (entries : list string)
    (imagesMetadata : list (@ImageMeta Image)) (options : Options)
    (w w' : @world Buffer) :
  NoDup entries ->
  Forall (fun file => basename (path_join inputDir file) = file) entries ->
  collect basename sharp metadata
    (imagePaths extname toLowerCase path_join inputDir entries) [] = inr imagesMetadata ->
  generateSpriteFromDirectory toBuffer toFile_ok writeFileSync_ok path_join
    imagesMetadata options outputDir w = (w', inr tt) ->
  filename <$> imagesMetadata =
    filter (fun file => toLowerCase (extname file) ∈ imageExtensions) entries /\
  NoDup (filename <$> imagesMetadata) /\
  exists png img json doc,
    files w' = files w ++ [(png, PngFile img); (json, JsonFile doc)] /\
    json_imageCount doc = Z.of_nat (size (json_images doc)) /\
    forall k r, imagesMetadata !! k = Some r ->
      json_images doc !! filename r =
      Some (position_at imagesMetadata options (Z.of_nat k) r).
Proof.
  intros Hnd Hbase Hcollect Hrun.
  assert (Hnames : filename <$> imagesMetadata =
            filter (fun file => toLowerCase (extname file) ∈ imageExtensions) entries).
  { rewrite (collect_filenames _ _ _ _ _ Hcollect).
    apply imagePaths_basenames, Hbase. }
  assert (Hnd' : NoDup (filename <$> imagesMetadata))
    by (rewrite Hnames; apply NoDup_filter, Hnd).
  split; [exact Hnames|]. split; [exact Hnd'|].
  apply run_inr_inv in Hrun as (st & _ & _ & Hl & _ & _ & ->).
  do 4 eexists. split; [reflexivity|]. simpl.
  pose proof (loop_dom toBuffer imagesMetadata options _ _ _ _ Hl) as Hdom.
  simpl in Hdom. rewrite dom_empty_L, (left_id_L ∅ (∪)) in Hdom.
  split.
  - unfold imageCount. f_equal.
    rewrite <- (size_dom (positions st)), Hdom.
    rewrite <- (length_fmap filename). symmetry. apply size_list_to_set, Hnd'.
  - intros k r Hk.
    rewrite (loop_lookup_last toBuffer imagesMetadata options _ _ _ _ k r Hl Hk).
    + rewrite Z.add_0_l. reflexivity.
    + intros k' r' Hlt Hk' Heq.
      assert (k' = k); [|lia].
      apply (NoDup_lookup (filename <$> imagesMetadata) k' k (filename r) Hnd').
      * rewrite list_lookup_fmap, Hk'. simpl. congruence.
      * rewrite list_lookup_fmap, Hk. reflexivity.
Qed.

End Directory_runs.

(** ** Binary64: brackets for quotients and products *)

Module Float64_brackets.
Import Float64 Float64_facts.

Lemma shr_m_shr_1_nonneg (mrs : shr_record) :
  0 <= shr_m mrs -> shr_m (shr_1 mrs) = shr_m mrs / 2.
Proof.
  destruct mrs as [m r s]. simpl. intros Hm. rewrite <- Z.div2_div.
  destruct m as [|[p|p|]|p]; try reflexivity; lia.
Qed.

Lemma shr_m_iter_pos (p : positive) (mrs : shr_record) :
  0 <= shr_m mrs ->
  shr_m (SpecFloat.iter_pos shr_1 p mrs) = shr_m mrs / 2 ^ Zpos p.
Proof.
  revert mrs. induction p as [p IH|p IH|]; intros mrs Hm; cbn [SpecFloat.iter_pos];
    try assert (Hp : 0 < 2 ^ Zpos p) by (apply Z.pow_pos_nonneg; lia).
  - assert (H1 : 0 <= shr_m (shr_1 mrs))
      by (rewrite shr_m_shr_1_nonneg by exact Hm; apply Z.div_pos; lia).
    assert (H2 : 0 <= shr_m (SpecFloat.iter_pos shr_1 p (shr_1 mrs)))
      by (rewrite IH by exact H1; apply Z.div_pos; [exact H1|apply Z.pow_pos_nonneg; lia]).
    rewrite IH by exact H2. rewrite IH by exact H1.
    rewrite shr_m_shr_1_nonneg by exact Hm.
    rewrite !Z.div_div by lia.
    f_equal. rewrite (Pos2Z.inj_xI p).
    rewrite (Z.pow_add_r 2 (2 * Zpos p) 1), pow2_square by lia.
    change (2 ^ 1) with 2. ring.
  - assert (H2 : 0 <= shr_m (SpecFloat.iter_pos shr_1 p mrs))
      by (rewrite IH by exact Hm; apply Z.div_pos; [exact Hm|apply Z.pow_pos_nonneg; lia]).
    rewrite IH by exact H2. rewrite IH by exact Hm.
    rewrite Z.div_div by lia.
    f_equal. rewrite (Pos2Z.inj_xO p), pow2_square by lia. reflexivity.
  - rewrite shr_m_shr_1_nonneg by exact Hm. reflexivity.
Qed.

(** A mantissa of more than 53 digits is first shifted down to 53. *)
Lemma round_aux_shift (m : positive) (e : Z) (l : location) (s : positive) :
  Zdigits2 (Zpos m) = 53 + Zpos s -> -1074 <= e ->
  exists h l',
    Zpos m / 2 ^ Zpos s = Zpos h /\ Zdigits2 (Zpos h) = 53 /\
    binary_round_aux prec emax false (Zpos m) e l =
    binary_round_aux prec emax false (Zpos h) (e + Zpos s) l'.
Proof.
  intros Hd He.
  pose proof (Zdigits2_bounds m) as Hb. rewrite Hd in Hb.
  assert (Hp : 0 < 2 ^ Zpos s) by (apply Z.pow_pos_nonneg; lia).
  assert (Hlo : 2 ^ 52 <= Zpos m / 2 ^ Zpos s).
  { apply Z.div_le_lower_bound; [exact Hp|].
    rewrite Z.mul_comm, <- Z.pow_add_r by lia.
    replace (52 + Zpos s) with (53 + Zpos s - 1) by lia. apply Hb. }
  assert (Hhi : Zpos m / 2 ^ Zpos s < 2 ^ 53).
  { apply Z.div_lt_upper_bound; [exact Hp|].
    rewrite Z.mul_comm, <- Z.pow_add_r by lia. apply Hb. }
  destruct (Zpos m / 2 ^ Zpos s) as [|h|h] eqn:Eh; try (exfalso; lia).
  assert (Hdh : Zdigits2 (Zpos h) = 53) by (apply Zdigits2_unique; split; assumption).
  set (mrs := SpecFloat.iter_pos shr_1 s (shr_record_of_loc (Zpos m) l)).
  exists h, (loc_of_shr_record mrs). split; [reflexivity|]. split; [exact Hdh|].
  assert (Hshr : shr_fexp prec emax (Zpos m) e l = (mrs, e + Zpos s)).
  { unfold shr_fexp. rewrite Hd.
    replace (fexp prec emax (53 + Zpos s + e) - e) with (Zpos s)
      by (unfold fexp, emin, prec, emax; lia).
    reflexivity. }
  assert (Hm : shr_m mrs = Zpos h).
  { unfold mrs. rewrite shr_m_iter_pos by (rewrite shr_m_of_loc; lia).
    rewrite shr_m_of_loc. exact Eh. }
  unfold binary_round_aux at 1 2. rewrite Hshr, Hm.
  rewrite (shr_fexp_53 h (e + Zpos s)) by lia.
  rewrite shr_m_of_loc, loc_of_shr_of_loc. reflexivity.
Qed.

(** The result of rounding a positive mantissa of at least 53 digits: a
    53-digit mantissa one step at most above the shifted one. *)
Lemma round_aux_bracket (m : positive) (e : Z) (l : location) :
  53 <= Zdigits2 (Zpos m) -> -1074 <= e ->
  e + Zdigits2 (Zpos m) <= 1023 ->
  exists M k,
    binary_round_aux prec emax false (Zpos m) e l = S754_finite false M (e + k) /\
    Zdigits2 (Zpos m) - 53 <= k <= Zdigits2 (Zpos m) - 52 /\
    Zpos m / 2 ^ k <= Zpos M <= Zpos m / 2 ^ k + 1 /\
    2 ^ 52 <= Zpos M < 2 ^ 53.
Proof.
  intros Hd He Hmax.
  assert (Hgen : forall h e' l', Zdigits2 (Zpos h) = 53 -> -1074 <= e' <= 970 ->
            exists M k,
              binary_round_aux prec emax false (Zpos h) e' l' = S754_finite false M (e' + k) /\
              0 <= k <= 1 /\
              Zpos h / 2 ^ k <= Zpos M <= Zpos h / 2 ^ k + 1 /\
              2 ^ 52 <= Zpos M < 2 ^ 53).
  { intros h e' l' Hdh He'.
    pose proof (Zdigits2_bounds h) as Hbh. rewrite Hdh in Hbh.
    change (53 - 1) with 52 in Hbh.
    destruct (round_aux_53 h e' l' Hdh He') as (M & E & HR & HME).
    pose proof (round_nearest_even_range (Zpos h) l') as Hrg.
    destruct HME as [[-> HM]|(-> & HM & Hov)].
    - exists M, 0. rewrite Z.add_0_r, Z.div_1_r. split; [exact HR|].
      split; [lia|]. split; [lia|]. split; [lia|].
      assert (Zpos M <> 2 ^ 53); [|lia].
      intros Heq. destruct (round_aux_53 h e' l' Hdh He') as (M' & E' & HR' & HME').
      clear HME'. rewrite HR in HR'. injection HR' as <- <-.
      (* the mantissa of a result is below 2 ^ 53 *)
      revert HR. unfold binary_round_aux. rewrite shr_fexp_53 by lia.
      rewrite shr_m_of_loc, loc_of_shr_of_loc, <- HM, Heq.
      change (2 ^ 53) with (Zpos (2 ^ 53)).
      rewrite shr_fexp_54 by (try reflexivity; lia). rewrite shr_m_shr_1.
      change (Zpos (2 ^ 53) / 2) with (Zpos (2 ^ 52)).
      replace (e' + 1 <=? emax - prec) with true
        by (symmetry; apply Z.leb_le; unfold emax, prec; lia).
      intros [= HM' HE']. lia.
    - exists M, 1. split; [exact HR|]. split; [lia|]. rewrite HM.
      change (2 ^ 1) with 2. split; [|split; [lia|reflexivity]].
      change (2 ^ 53) with 9007199254740992 in *.
      change (2 ^ 52) with 4503599627370496 in *.
      revert Hbh Hrg Hov. generalize (Zpos h) (round_nearest_even (Zpos h) l').
      intros. Z.to_euclidean_division_equations. lia. }
  destruct (Z.eq_dec (Zdigits2 (Zpos m)) 53) as [H53|H53].
  - destruct (Hgen m e l H53) as (M & k & HR & Hk & HM & HMr); [lia|].
    exists M, k. rewrite H53. repeat split; try lia. exact HR.
  - destruct (Zdigits2 (Zpos m) - 53) as [|s|s] eqn:Es; try lia.
    destruct (round_aux_shift m e l s) as (h & l' & Eh & Hdh & ->); [lia|lia|].
    destruct (Hgen h (e + Zpos s) l' Hdh) as (M & k & HR & Hk & HM & HMr); [lia|].
    exists M, (Zpos s + k). rewrite Z.add_assoc. split; [exact HR|].
    split; [lia|]. split; [|exact HMr].
    rewrite Z.pow_add_r, <- Z.div_div, Eh by (try apply Z.pow_pos_nonneg; lia).
    exact HM.
Qed.

End Float64_brackets.

Module Float64_products.
Import Float64 Float64_facts Float64_brackets.

Lemma Zdigits2_range (p : positive) (a b : Z) :
  0 <= a -> 2 ^ a <= Zpos p < 2 ^ b -> a + 1 <= Zdigits2 (Zpos p) <= b.
Proof.
  intros Ha [Hlo Hhi]. pose proof (Zdigits2_bounds p) as [Hb1 Hb2].
  assert (0 < Zdigits2 (Zpos p)) by (simpl; lia).
  split.
  - assert (a < Zdigits2 (Zpos p)); [|lia].
    apply (Z.pow_lt_mono_r_iff 2); lia.
  - assert (Zdigits2 (Zpos p) - 1 < b); [|lia].
    assert (0 <= b).
    { destruct (Z.le_gt_cases 0 b); [assumption|].
      rewrite (Z.pow_neg_r 2 b) in Hhi by lia. lia. }
    apply (Z.pow_lt_mono_r_iff 2); lia.
Qed.

(** The quotient of two integers: a 53-digit mantissa [M] and an exponent
    [- T] with [M] one step at most above the floor of [i * 2 ^ T / g]. *)
Lemma div_of_int_bracket (pi pg : positive) :
  Zpos pi < 2 ^ 50 -> Zpos pg < 2 ^ 53 ->
  exists M T,
    div (of_int (Zpos pi)) (of_int (Zpos pg)) = S754_finite false M (- T) /\
    1 <= T <= 106 /\
    (Zpos pi * 2 ^ T) / Zpos pg <= Zpos M <= (Zpos pi * 2 ^ T) / Zpos pg + 1 /\
    2 ^ 52 <= Zpos M < 2 ^ 53.
Proof.
  intros Hi Hg.
  destruct (of_int_pos pg Hg) as (m2 & Hof2 & Hm2 & Hdm2).
  destruct (of_int_pos pi) as (m1 & Hof1 & Hm1 & Hdm1); [lia|].
  rewrite Hof1, Hof2. unfold div, SFdiv, SFdiv_core_binary.
  rewrite Hdm1, Hdm2.
  pose proof (Zdigits2_le_53 pg Hg) as Hdg.
  assert (Hdi : 1 <= Zdigits2 (Zpos pi) <= 50).
  { destruct (Zdigits2_range pi 0 50); [lia|simpl; lia|lia]. }
  pose proof (Zdigits2_bounds m1) as Hb1. rewrite Hdm1 in Hb1.
  pose proof (Zdigits2_bounds m2) as Hb2. rewrite Hdm2 in Hb2.
  set (di := Zdigits2 (Zpos pi)) in *. set (dg := Zdigits2 (Zpos pg)) in *.
  set (t := 53 - di + dg).
  replace (Z.min (fexp prec emax (53 + (di - 53) - (53 + (dg - 53))))
                 (di - 53 - (dg - 53))) with (- t)
    by (unfold fexp, emin, prec, emax, t; lia).
  replace (di - 53 - (dg - 53) - - t) with 53 by (unfold t; lia).
  cbv iota. rewrite Z.shiftl_mul_pow2 by lia.
  destruct (Z.div_eucl (Zpos m1 * 2 ^ 53) (Zpos m2)) as [q r] eqn:Eqr.
  assert (Hq0 : q = (Zpos m1 * 2 ^ 53) / Zpos m2)
    by (unfold Z.div; rewrite Eqr; reflexivity).
  assert (Hq : q = (Zpos pi * 2 ^ t) / Zpos pg).
  { rewrite Hq0, Hm1, Hm2.
    replace (Zpos pi * 2 ^ (53 - di) * 2 ^ 53)
      with (Zpos pi * 2 ^ t * 2 ^ (53 - dg)).
    2:{ rewrite <- !Z.mul_assoc, <- !Z.pow_add_r by (unfold t; lia).
        f_equal. f_equal. unfold t. lia. }
    apply Z.div_mul_cancel_r; [lia|].
    apply Z.pow_nonzero; lia. }
  assert (Hqr : 2 ^ 52 <= q < 2 ^ 54).
  { rewrite Hq0. change (53 - 1) with 52 in *.
    change (2 ^ 54) with (2 * (2 * 2 ^ 52)).
    change (2 ^ 53) with (2 * 2 ^ 52) in *.
    assert (Ha : 0 < 2 ^ 52) by reflexivity.
    revert Ha Hb1 Hb2. generalize (2 ^ 52) (Zpos m1) (Zpos m2).
    intros a z1 z2 Ha Hz1 Hz2. split.
    - apply Z.div_le_lower_bound; [lia|nia].
    - apply Z.div_lt_upper_bound; [lia|nia]. }
  destruct q as [|qp|qp]; try lia.
  destruct (Zdigits2_range qp 52 54 ltac:(lia) Hqr) as [Hdq1 Hdq2].
  destruct (round_aux_bracket qp (- t) (new_location (Zpos m2) r))
    as (M & k & HR & Hk & HM & HMr); [lia|unfold t; lia|unfold t; lia|].
  cbv iota beta. simpl xorb. rewrite HR.
  exists M, (t - k). replace (- (t - k)) with (- t + k) by lia.
  split; [reflexivity|]. split; [unfold t; lia|]. split; [|exact HMr].
  assert (Hqk : Zpos qp / 2 ^ k = (Zpos pi * 2 ^ (t - k)) / Zpos pg).
  { rewrite Hq, Z.div_div by (try apply Z.pow_pos_nonneg; lia).
    replace (2 ^ t) with (2 ^ (t - k) * 2 ^ k)
      by (rewrite <- Z.pow_add_r by (unfold t; lia); f_equal; lia).
    rewrite Z.mul_assoc.
    apply Z.div_mul_cancel_r; [lia|apply Z.pow_nonzero; lia]. }
  rewrite <- Hqk. exact HM.
Qed.

Lemma of_int_100 : of_int 100 = S754_finite false 7036874417766400 (-46).
Proof. reflexivity. Qed.

(** The product of a 53-digit double by 100. *)
Lemma mul_100_bracket (M : positive) (T : Z) :
  2 ^ 52 <= Zpos M < 2 ^ 53 -> 0 <= T <= 1000 ->
  exists M2 k,
    SFmul prec emax (S754_finite false M (- T)) (of_int 100) =
      S754_finite false M2 (- T - 46 + k) /\
    52 <= k <= 54 /\
    (Zpos M * 100 * 2 ^ 46) / 2 ^ k <= Zpos M2 <= (Zpos M * 100 * 2 ^ 46) / 2 ^ k + 1.
Proof.
  intros HM HT. rewrite of_int_100. unfold SFmul. simpl xorb.
  assert (HP : Zpos (M * 7036874417766400) = Zpos M * 100 * 2 ^ 46)
    by (rewrite Pos2Z.inj_mul; change (2 ^ 46) with 70368744177664; lia).
  assert (Hr : 2 ^ 104 <= Zpos (M * 7036874417766400) < 2 ^ 106).
  { rewrite HP. change (2 ^ 104) with (2 ^ 52 * 64 * 2 ^ 46).
    change (2 ^ 106) with (2 ^ 53 * 128 * 2 ^ 46).
    assert (0 < 2 ^ 46) by reflexivity. nia. }
  destruct (Zdigits2_range _ 104 106 ltac:(lia) Hr) as [Hd1 Hd2].
  destruct (round_aux_bracket (M * 7036874417766400) (- T + -46) loc_Exact)
    as (M2 & k & HR & Hk & HM2 & _); [lia|lia|lia|].
  exists M2, k. rewrite HR. split; [f_equal; lia|]. split; [lia|].
  rewrite <- HP. exact HM2.
Qed.

End Float64_products.

(** ** The utilization percentage *)

Ltac eval_pow2 :=
  repeat match goal with
    | |- context [2 ^ ?e] =>
        let v := eval vm_compute in (2 ^ e) in change (2 ^ e) with v
    | H : context [2 ^ ?e] |- _ =>
        let v := eval vm_compute in (2 ^ e) in change (2 ^ e) with v in H
    end.

(** X12.  The percentage printed in the summary,
    [Math.round((imageCount / totalCells) * 100)] evaluated in binary64, is
    between 50 and 100. *)
Theorem X12_utilization_percentage {Image : Type}
    (imagesMetadata : list (@ImageMeta Image)) :
  1 <= imageCount imagesMetadata < 2 ^ 32 ->
  50 <= utilization imagesMetadata <= 100.
Proof.
  intros Hn. destruct (gridSize_bracket imagesMetadata Hn) as [Hg Hsq].
  unfold utilization, number_div, number_mul, totalCells.
  set (n := imageCount imagesMetadata) in *.
  set (g := gridSize imagesMetadata) in *.
  assert (Hc : n <= g * g <= 2 * n)
    by (pose proof (Z.square_nonneg (g - 2)); nia).
  assert (Hc32 : g * g <= 2 ^ 32) by (change (2 ^ 32) with (2 ^ 16 * 2 ^ 16); nia).
  destruct n as [|pn|pn]; try lia.
  destruct (g * g) as [|pc|pc] eqn:Ec; try lia.
  destruct (Float64_products.div_of_int_bracket pn pc) as (M & T & -> & HT & HM & HMr).
  { assert (2 ^ 32 < 2 ^ 50) by reflexivity. lia. }
  { assert (2 ^ 32 < 2 ^ 53) by reflexivity. lia. }
  assert (HpT : 0 < 2 ^ T) by (apply Z.pow_pos_nonneg; lia).
  assert (HT2 : 2 ^ T = 2 * 2 ^ (T - 1))
    by (rewrite <- Z.pow_succ_r by lia; f_equal; lia).
  assert (HQhi : (Zpos pn * 2 ^ T) / Zpos pc <= 2 ^ T)
    by (apply Z.div_le_upper_bound; [lia|nia]).
  assert (HQlo : 2 ^ (T - 1) <= (Zpos pn * 2 ^ T) / Zpos pc)
    by (apply Z.div_le_lower_bound; [lia|nia]).
  assert (HT52 : 52 <= T).
  { destruct (Z.le_gt_cases 52 T) as [H|H]; [exact H|exfalso].
    assert (2 ^ T <= 2 ^ 51) by (apply Z.pow_le_mono_r; lia).
    change (2 ^ 52) with (2 * 2 ^ 51) in HMr. assert (0 < 2 ^ 51) by reflexivity. lia. }
  assert (HT53 : T <= 53).
  { assert (T - 1 < 53); [|lia]. apply (Z.pow_lt_mono_r_iff 2); lia. }
  destruct (Float64_products.mul_100_bracket M T HMr) as (M2 & k & -> & Hk & HM2); [lia|].
  unfold Math_round.
  replace (0 <=? - T - 46 + k) with false by (symmetry; apply Z.leb_gt; lia).
  simpl cond_Zopp. rewrite Z.shiftr_div_pow2 by lia.
  assert (HMT : 2 ^ (T - 1) <= Zpos M <= 2 ^ T + 1) by lia.
  clear HM HQhi HQlo HT2 HpT Hc Hc32 Ec Hsq Hg Hn.
  revert HMT HM2. generalize (Zpos M) (Zpos M2). intros m m2 HMT HM2.
  assert (HTc : T = 52 \/ T = 53) by lia.
  assert (Hkc : k = 52 \/ k = 53 \/ k = 54) by lia.
  destruct HTc as [-> | ->]; destruct Hkc as [-> | [-> | ->]];
    eval_pow2; Z.to_euclidean_division_equations; lia.
Qed.

(** ** The further properties at sample inputs *)


Lemma X2_witness :
  (row seven_images 3, col seven_images 3) =
  if col seven_images 2 <? gridSize seven_images - 1
  then (row seven_images 2, col seven_images 2 + 1)
  else (row seven_images 2 + 1, 0).
Proof.
  apply (X2_next_cell seven_images 2).
  - vm_compute. split; [discriminate|reflexivity].
  - vm_compute. discriminate.
  - vm_compute. reflexivity.
Defined.

Lemma X3_witness :
  imageCount seven_images <= totalCells seven_images <= 2 * imageCount seven_images.
Proof.
  apply (X3_utilization seven_images).
  vm_compute. split; [discriminate|reflexivity].
Defined.

Lemma X6_witness :
  spriteWidth (reverse four_images) (sample_options 10 4096)
  = spriteWidth four_images (sample_options 10 4096).
Proof.
  apply (X6_order_changes_only_the_assignment four_images (reverse four_images)
           (sample_options 10 4096)).
  symmetry. apply reverse_Permutation.
Defined.

Lemma X8_witness :
  gridSize (seven_images ++ [sample_meta "h.png" 12 20 7]) =
  (if imageCount seven_images =? totalCells seven_images
   then gridSize seven_images + 1 else gridSize seven_images).
Proof.
  apply (X8_adding_a_record (Buffer := nat) Some seven_images
           (sample_meta "h.png" 12 20 7) (sample_options 0 4096)).
  - vm_compute. discriminate.
  - vm_compute. reflexivity.
Defined.

Lemma X11_witness :
  exists recs w',
    collect sample_basename sample_sharp sample_metadata
      (imagePaths sample_extname sample_toLowerCase sample_join "in" sample_files) []
      = inr recs /\
    sample_run recs (sample_options 0 4096) = (w', inr tt) /\
    filename <$> recs = ["b.png"; "a.jpg"; "cc.gif"] /\
    NoDup (filename <$> recs).
Proof.
  do 2 eexists. split; [vm_compute; reflexivity|].
  split; [vm_compute; reflexivity|].
  match goal with
  | |- filename <$> ?recs = _ /\ _ =>
      destruct (X11_directory_records_do_not_collide (Buffer := nat)
                  sample_extname sample_toLowerCase sample_join sample_basename
                  sample_sharp sample_metadata Some (fun _ _ => true) (fun _ => true)
                  "in" "output" sample_files recs (sample_options 0 4096)
                  sample_world _
                  ltac:(apply (bool_decide_unpack _); vm_compute; exact I)
                  ltac:(repeat constructor)
                  eq_refl eq_refl)
        as (Hnames & Hnd & _)
  end.
  split; [exact Hnames|exact Hnd].
Defined.

Lemma X12_witness : 50 <= utilization seven_images <= 100.
Proof.
  apply (X12_utilization_percentage seven_images).
  vm_compute. split; [discriminate|reflexivity].
Defined.

(** * The program in binary64 *)

(** ** Binary64: sums, products and comparisons of integers *)

Module Float64_exact.
Import Float64 Float64_facts.

Lemma shr_1_even (z : Z) :
  shr_1 {| shr_m := 2 * z; shr_r := false; shr_s := false |} =
  {| shr_m := z; shr_r := false; shr_s := false |}.
Proof. destruct z; reflexivity. Qed.

Lemma iter_shr_1_exact (p : positive) (z : Z) :
  SpecFloat.iter_pos shr_1 p
    {| shr_m := z * 2 ^ Zpos p; shr_r := false; shr_s := false |} =
  {| shr_m := z; shr_r := false; shr_s := false |}.
Proof.
  revert z. induction p as [p IH|p IH|]; intros z; cbn [SpecFloat.iter_pos].
  - replace (z * 2 ^ Zpos p~1) with (2 * (z * 2 ^ Zpos p * 2 ^ Zpos p)).
    + rewrite shr_1_even, !IH. reflexivity.
    + rewrite (Pos2Z.inj_xI p), Z.pow_add_r, pow2_square by lia.
      change (2 ^ 1) with 2. ring.
  - replace (z * 2 ^ Zpos p~0) with (z * 2 ^ Zpos p * 2 ^ Zpos p).
    + rewrite !IH. reflexivity.
    + rewrite (Pos2Z.inj_xO p), pow2_square by lia. ring.
  - change (2 ^ 1) with 2. rewrite Z.mul_comm. apply shr_1_even.
Qed.

(** Rounding a mantissa that is a 53-digit one followed by zeros loses
    nothing. *)
Lemma round_aux_exact (m h : positive) (e s : Z) :
  Zdigits2 (Zpos h) = 53 -> 0 <= s -> Zpos m = Zpos h * 2 ^ s ->
  -1074 <= e -> e + s <= 971 ->
  binary_round_aux prec emax false (Zpos m) e loc_Exact = S754_finite false h (e + s).
Proof.
  intros Hdh Hs Hm He Hes.
  pose proof (Zdigits2_bounds h) as Hb. rewrite Hdh in Hb.
  assert (Hp : 0 < 2 ^ s) by (apply Z.pow_pos_nonneg; lia).
  assert (Hdm : Zdigits2 (Zpos m) = 53 + s).
  { apply Zdigits2_unique. rewrite Hm.
    replace (53 + s - 1) with (53 - 1 + s) by lia.
    rewrite !Z.pow_add_r by lia. split.
    - apply Z.mul_le_mono_nonneg_r; lia.
    - apply Z.mul_lt_mono_pos_r; lia. }
  assert (Hshr : shr_fexp prec emax (Zpos m) e loc_Exact =
                 ({| shr_m := Zpos h; shr_r := false; shr_s := false |}, e + s)).
  { unfold shr_fexp. rewrite Hdm.
    replace (fexp prec emax (53 + s + e) - e) with s
      by (unfold fexp, emin, prec, emax; lia).
    destruct s as [|sp|sp]; [| |lia].
    - simpl. rewrite Z.add_0_r. f_equal. f_equal. simpl in Hm. lia.
    - simpl shr. rewrite Hm. simpl shr_record_of_loc.
      rewrite iter_shr_1_exact. reflexivity. }
  unfold binary_round_aux. rewrite Hshr. simpl shr_m. simpl loc_of_shr_record.
  simpl round_nearest_even.
  rewrite (shr_fexp_53 h (e + s)) by lia.
  rewrite shr_m_of_loc.
  replace (e + s <=? emax - prec) with true
    by (symmetry; apply Z.leb_le; unfold emax, prec; lia).
  reflexivity.
Qed.

(** The same, stated for the integer that the mantissa stands for. *)
Lemma round_aux_of_int (m n : positive) (k : Z) :
  Zpos n < 2 ^ 53 -> 53 - Zdigits2 (Zpos n) <= k <= 1074 ->
  Zpos m = Zpos n * 2 ^ k ->
  binary_round_aux prec emax false (Zpos m) (- k) loc_Exact = of_int (Zpos n).
Proof.
  intros Hn Hk Hm.
  destruct (of_int_pos n Hn) as (h & -> & Hh & Hdh).
  pose proof (Zdigits2_le_53 n Hn) as Hd.
  rewrite (round_aux_exact m h (- k) (k - (53 - Zdigits2 (Zpos n)))); try lia.
  - f_equal. lia.
  - rewrite Hm, Hh, <- Z.mul_assoc, <- Z.pow_add_r by lia. f_equal. f_equal. lia.
Qed.

Lemma Zdigits2_mono (p q : positive) :
  Zpos p <= Zpos q -> Zdigits2 (Zpos p) <= Zdigits2 (Zpos q).
Proof.
  intros H. rewrite !Zdigits2_log2.
  pose proof (Z.log2_le_mono _ _ H). lia.
Qed.

Lemma Zdigits2_mul (p q : positive) :
  Zdigits2 (Zpos p) + Zdigits2 (Zpos q) - 1 <= Zdigits2 (Zpos (p * q)).
Proof.
  rewrite !Zdigits2_log2. rewrite Pos2Z.inj_mul.
  pose proof (Z.log2_mul_below (Zpos p) (Zpos q) ltac:(lia) ltac:(lia)). lia.
Qed.

Theorem mul_of_int (a b : Z) :
  0 <= a < 2 ^ 53 -> 0 <= b < 2 ^ 53 -> a * b < 2 ^ 53 ->
  SFmul prec emax (of_int a) (of_int b) = of_int (a * b).
Proof.
  intros [Ha0 Ha] [Hb0 Hb] Hab.
  destruct a as [|a|a]; [|clear Ha0|lia].
  { destruct b as [|b|b]; [reflexivity| |lia].
    destruct (of_int_pos b) as (mb & -> & _); [lia|]. reflexivity. }
  destruct b as [|b|b]; [|clear Hb0|lia].
  { destruct (of_int_pos a) as (ma & -> & _); [lia|]. reflexivity. }
  destruct (of_int_pos a Ha) as (ma & -> & Hma & _).
  destruct (of_int_pos b Hb) as (mb & -> & Hmb & _).
  pose proof (Zdigits2_le_53 a Ha) as Hda.
  pose proof (Zdigits2_le_53 b Hb) as Hdb.
  change (Zpos a * Zpos b) with (Zpos (a * b)) in *.
  pose proof (Zdigits2_mul a b) as Hdab.
  pose proof (Zdigits2_le_53 (a * b) Hab) as Hdab'.
  unfold SFmul. simpl xorb.
  replace (Zdigits2 (Zpos a) - 53 + (Zdigits2 (Zpos b) - 53))
    with (- (106 - Zdigits2 (Zpos a) - Zdigits2 (Zpos b))) by lia.
  apply round_aux_of_int; [exact Hab|lia|].
  rewrite Pos2Z.inj_mul, Hma, Hmb, (Pos2Z.inj_mul a b).
  replace (106 - Zdigits2 (Zpos a) - Zdigits2 (Zpos b))
    with ((53 - Zdigits2 (Zpos a)) + (53 - Zdigits2 (Zpos b))) by lia.
  rewrite Z.pow_add_r by lia. ring.
Qed.

Lemma shl_align_fst (m : positive) (e e' : Z) :
  e' <= e -> Zpos (shl_align m e e').1 = Zpos m * 2 ^ (e - e').
Proof.
  intros He. unfold shl_align.
  destruct (e' - e) as [|d|d] eqn:Ed; simpl.
  - replace (e - e') with 0 by lia. lia.
  - lia.
  - rewrite iter_xO_mul. f_equal. f_equal. lia.
Qed.

Theorem add_of_int (a b : Z) :
  0 <= a -> 0 <= b -> a + b < 2 ^ 53 ->
  SFadd prec emax (of_int a) (of_int b) = of_int (a + b).
Proof.
  intros Ha Hb Hab.
  destruct a as [|a|a]; [|clear Ha|lia].
  { destruct b as [|b|b]; [reflexivity| |lia].
    destruct (of_int_pos b) as (mb & Hof & _); [lia|]. rewrite Z.add_0_l, Hof.
    reflexivity. }
  destruct b as [|b|b]; [|clear Hb|lia].
  { destruct (of_int_pos a) as (ma & Hof & _); [lia|]. rewrite Z.add_0_r.
    rewrite Hof. reflexivity. }
  assert (Ha : Zpos a < 2 ^ 53) by lia.
  assert (Hb : Zpos b < 2 ^ 53) by lia.
  destruct (of_int_pos a Ha) as (ma & -> & Hma & _).
  destruct (of_int_pos b Hb) as (mb & -> & Hmb & _).
  pose proof (Zdigits2_le_53 a Ha) as Hda.
  pose proof (Zdigits2_le_53 b Hb) as Hdb.
  change (Zpos a + Zpos b) with (Zpos (a + b)) in *.
  pose proof (Zdigits2_le_53 (a + b) Hab) as Hdab.
  pose proof (Zdigits2_mono a (a + b) ltac:(lia)) as Hm1.
  pose proof (Zdigits2_mono b (a + b) ltac:(lia)) as Hm2.
  cbv beta iota zeta delta [SFadd cond_Zopp].
  set (ea := Zdigits2 (Zpos a) - 53) in *.
  set (eb := Zdigits2 (Zpos b) - 53) in *.
  set (ez := Z.min ea eb).
  rewrite !shl_align_fst by (unfold ez; lia).
  rewrite Hma, Hmb.
  assert (Hsum : Zpos a * 2 ^ (53 - Zdigits2 (Zpos a)) * 2 ^ (ea - ez) +
                 Zpos b * 2 ^ (53 - Zdigits2 (Zpos b)) * 2 ^ (eb - ez) =
                 Zpos (a + b) * 2 ^ (- ez)).
  { rewrite <- !Z.mul_assoc, <- !Z.pow_add_r by (unfold ez, ea, eb; lia).
    replace (53 - Zdigits2 (Zpos a) + (ea - ez)) with (- ez) by (unfold ea; lia).
    replace (53 - Zdigits2 (Zpos b) + (eb - ez)) with (- ez) by (unfold eb; lia).
    rewrite (Pos2Z.inj_add a b). ring. }
  rewrite Hsum.
  assert (Hp : 0 < 2 ^ (- ez)) by (apply Z.pow_pos_nonneg; unfold ez, ea, eb; lia).
  destruct (Zpos (a + b) * 2 ^ (- ez)) as [|s|s] eqn:Es; try lia.
  unfold binary_normalize, binary_round.
  assert (Hds : Zdigits2 (Zpos s) = Zdigits2 (Zpos (a + b)) - ez).
  { apply Zdigits2_unique. rewrite <- Es.
    pose proof (Zdigits2_bounds (a + b)) as Hbd.
    replace (Zdigits2 (Zpos (a + b)) - ez - 1)
      with (Zdigits2 (Zpos (a + b)) - 1 + - ez) by lia.
    replace (Zdigits2 (Zpos (a + b)) - ez)
      with (Zdigits2 (Zpos (a + b)) + - ez) by lia.
    rewrite !Z.pow_add_r by (unfold ez, ea, eb; lia). split.
    - apply Z.mul_le_mono_nonneg_r; lia.
    - apply Z.mul_lt_mono_pos_r; lia. }
  change (Zpos (digits2_pos s)) with (Zdigits2 (Zpos s)). rewrite Hds.
  replace (fexp prec emax (Zdigits2 (Zpos (a + b)) - ez + ez))
    with (Zdigits2 (Zpos (a + b)) - 53)
    by (unfold fexp, emin, prec, emax; lia).
  assert (Hal : shl_align s ez (Zdigits2 (Zpos (a + b)) - 53) = (s, ez)).
  { unfold shl_align.
    destruct (Zdigits2 (Zpos (a + b)) - 53 - ez) eqn:E; try reflexivity.
    unfold ez, ea, eb in E. lia. }
  rewrite Hal.
  replace ez with (- - ez) at 1 by lia.
  apply round_aux_of_int; [exact Hab|unfold ez, ea, eb; lia|].
  rewrite Es. reflexivity.
Qed.

Theorem compare_of_int (a b : Z) :
  0 <= a < 2 ^ 53 -> 0 <= b < 2 ^ 53 ->
  SFcompare (of_int a) (of_int b) = Some (a ?= b).
Proof.
  intros [Ha0 Ha] [Hb0 Hb].
  destruct a as [|a|a]; [|clear Ha0|lia].
  { destruct b as [|b|b]; [reflexivity| |lia].
    destruct (of_int_pos b Hb) as (mb & -> & _). reflexivity. }
  destruct b as [|b|b]; [|clear Hb0|lia].
  { destruct (of_int_pos a Ha) as (ma & -> & _). reflexivity. }
  destruct (of_int_pos a Ha) as (ma & -> & Hma & _).
  destruct (of_int_pos b Hb) as (mb & -> & Hmb & _).
  pose proof (Zdigits2_le_53 a Ha) as Hda.
  pose proof (Zdigits2_le_53 b Hb) as Hdb.
  pose proof (Zdigits2_bounds a) as Hba.
  pose proof (Zdigits2_bounds b) as Hbb.
  cbv beta iota delta [SFcompare]. f_equal.
  destruct (Z.compare_spec (Zdigits2 (Zpos a) - 53) (Zdigits2 (Zpos b) - 53)) as [He|He|He].
  - assert (Hd : Zdigits2 (Zpos a) = Zdigits2 (Zpos b)) by lia.
    rewrite Hd in Hma.
    assert (Hp : 0 < 2 ^ (53 - Zdigits2 (Zpos b))) by (apply Z.pow_pos_nonneg; lia).
    change (Pos.compare_cont Eq ma mb) with (Zpos ma ?= Zpos mb).
    rewrite Hma, Hmb.
    destruct (Z.compare_spec (Zpos a) (Zpos b));
      [apply Z.compare_eq_iff|apply Z.compare_lt_iff|apply Z.compare_gt_iff]; nia.
  - symmetry. apply Z.compare_lt_iff.
    assert (2 ^ Zdigits2 (Zpos a) <= 2 ^ (Zdigits2 (Zpos b) - 1))
      by (apply Z.pow_le_mono_r; lia).
    lia.
  - symmetry. apply Z.compare_gt_iff.
    assert (2 ^ Zdigits2 (Zpos b) <= 2 ^ (Zdigits2 (Zpos a) - 1))
      by (apply Z.pow_le_mono_r; lia).
    lia.
Qed.

Theorem integer_value_of_int (n : Z) :
  0 <= n < 2 ^ 53 -> integer_value (of_int n) = Some n.
Proof.
  intros [Hn0 Hn]. destruct n as [|n|n]; [reflexivity|clear Hn0|lia].
  destruct (of_int_pos n Hn) as (m & -> & Hm & _).
  pose proof (Zdigits2_le_53 n Hn) as Hd.
  unfold integer_value.
  destruct (Z.leb_spec 0 (Zdigits2 (Zpos n) - 53)) as [He|He].
  - assert (Hd53 : Zdigits2 (Zpos n) = 53) by lia.
    rewrite Hd53 in Hm. rewrite Hd53. simpl. f_equal. simpl in Hm. lia.
  - replace (- (Zdigits2 (Zpos n) - 53)) with (53 - Zdigits2 (Zpos n)) by ring.
    rewrite Hm. rewrite Z.mod_mul by (apply Z.pow_nonzero; lia).
    rewrite Z.eqb_refl, Z.div_mul by (apply Z.pow_nonzero; lia). reflexivity.
Qed.

End Float64_exact.

(** ** The binary64 layout *)

Lemma number_max_of_int (a b : Z) :
  0 <= a < 2 ^ 53 -> 0 <= b < 2 ^ 53 ->
  number_max (Float64.of_int a) (Float64.of_int b) = Float64.of_int (Z.max a b).
Proof.
  intros Ha Hb. unfold number_max.
  rewrite Float64_exact.compare_of_int by assumption.
  destruct (Z.compare_spec a b) as [Heq|Hlt|Hgt].
  - subst b. rewrite Z.max_id.
    destruct a as [|a|a]; [reflexivity| |lia].
    destruct (Float64_facts.of_int_pos a) as (m & -> & _); [lia|]. reflexivity.
  - rewrite Z.max_r by lia. reflexivity.
  - rewrite Z.max_l by lia. reflexivity.
Qed.

Lemma foldl_number_max_of_int (a : Z) (l : list Z) :
  0 <= a < 2 ^ 53 -> Forall (fun z => 0 <= z < 2 ^ 53) l ->
  foldl number_max (Float64.of_int a) (Float64.of_int <$> l) =
  Float64.of_int (foldl Z.max a l).
Proof.
  revert a. induction l as [|b l IH]; intros a Ha Hl; [reflexivity|].
  apply Forall_cons in Hl as [Hb Hl]. simpl.
  rewrite number_max_of_int by assumption. apply IH; [lia|exact Hl].
Qed.

Lemma node_Math_max_of_int (xs : list Z) :
  xs <> [] -> Forall (fun z => 0 <= z < 2 ^ 53) xs ->
  Node.Math_max (Float64.of_int <$> xs) = Float64.of_int (Math_max xs).
Proof.
  destruct xs as [|a l]; [congruence|]. intros _ Hl.
  apply Forall_cons in Hl as [Ha Hl]. unfold Node.Math_max. simpl.
  replace (number_max (S754_infinity true) (Float64.of_int a)) with (Float64.of_int a).
  - apply foldl_number_max_of_int; assumption.
  - destruct a as [|a|a]; [reflexivity| |lia].
    destruct (Float64_facts.of_int_pos a) as (m & -> & _); [lia|]. reflexivity.
Qed.

Lemma Math_max_range (xs : list Z) (lo hi : Z) :
  xs <> [] -> Forall (fun z => lo <= z < hi) xs -> lo <= Math_max xs < hi.
Proof.
  intros Hne Hall.
  apply (proj1 (Forall_forall _ _) Hall), Math_max_attained, Hne.
Qed.

Lemma number_gt_of_int (a b : Z) :
  0 <= a < 2 ^ 53 -> 0 <= b < 2 ^ 53 ->
  number_gt (Float64.of_int a) (Float64.of_int b) = (a >? b).
Proof.
  intros Ha Hb. unfold number_gt, SFltb.
  rewrite Float64_exact.compare_of_int by assumption.
  rewrite Z.gtb_ltb. unfold Z.ltb. destruct (b ?= a); reflexivity.
Qed.

Section Node_layout_facts.

Context {Image : Type}.
Variable imagesMetadata : list (@ImageMeta Image).
Variable options : Options.

Hypothesis records : 1 <= imageCount imagesMetadata < 2 ^ 32.
Hypothesis sizes : Forall (fun r => 0 <= width r /\ 0 <= height r) imagesMetadata.
Hypothesis pad : 0 <= padding options.
Hypothesis sheet_width : spriteWidth imagesMetadata options < 2 ^ 53.
Hypothesis sheet_height : spriteHeight imagesMetadata options < 2 ^ 53.

Lemma records_nonempty : imagesMetadata <> [].
Proof. apply imageCount_pos_iff. lia. Qed.

Lemma cell_in_range :
  0 <= Math_max (width <$> imagesMetadata) /\
  0 <= Math_max (height <$> imagesMetadata) /\
  maxCellWidth imagesMetadata options < 2 ^ 53 /\
  maxCellHeight imagesMetadata options < 2 ^ 53.
Proof.
  pose proof records_nonempty as Hne.
  destruct (gridSize_bracket imagesMetadata records) as [Hg _].
  assert (Hw : Math_max (width <$> imagesMetadata) ∈ width <$> imagesMetadata)
    by (apply Math_max_attained; intros Hnil; apply fmap_nil_inv in Hnil; auto).
  assert (Hh : Math_max (height <$> imagesMetadata) ∈ height <$> imagesMetadata)
    by (apply Math_max_attained; intros Hnil; apply fmap_nil_inv in Hnil; auto).
  apply list_elem_of_fmap in Hw as (rw & Hrw & Hinw).
  apply list_elem_of_fmap in Hh as (rh & Hrh & Hinh).
  pose proof (proj1 (Forall_forall _ _) sizes rw Hinw) as [Hw0 _].
  pose proof (proj1 (Forall_forall _ _) sizes rh Hinh) as [_ Hh0].
  pose proof sheet_width as Hsw. pose proof sheet_height as Hsh.
  unfold spriteWidth, spriteHeight in Hsw, Hsh.
  unfold maxCellWidth, maxCellHeight in Hsw, Hsh |- *.
  rewrite Hrw in Hsw |- *. rewrite Hrh in Hsh |- *.
  revert Hg Hsw Hsh.
  generalize (gridSize imagesMetadata) (2 ^ 53). intros g B Hg Hsw Hsh.
  repeat split; try lia; nia.
Qed.

Lemma widths_in_range :
  Forall (fun z => 0 <= z < 2 ^ 53) (width <$> imagesMetadata).
Proof.
  destruct cell_in_range as (_ & _ & Hcw & _). unfold maxCellWidth in Hcw.
  apply Forall_fmap, Forall_forall. intros r Hr. simpl.
  pose proof (proj1 (Forall_forall _ _) sizes r Hr) as [Hw0 _].
  assert (width r <= Math_max (width <$> imagesMetadata))
    by (apply Math_max_ub, list_elem_of_fmap; eauto).
  lia.
Qed.

Lemma heights_in_range :
  Forall (fun z => 0 <= z < 2 ^ 53) (height <$> imagesMetadata).
Proof.
  destruct cell_in_range as (_ & _ & _ & Hch). unfold maxCellHeight in Hch.
  apply Forall_fmap, Forall_forall. intros r Hr. simpl.
  pose proof (proj1 (Forall_forall _ _) sizes r Hr) as [_ Hh0].
  assert (height r <= Math_max (height <$> imagesMetadata))
    by (apply Math_max_ub, list_elem_of_fmap; eauto).
  lia.
Qed.

Lemma node_maxCellWidth_exact :
  Node.maxCellWidth imagesMetadata options =
  Float64.of_int (maxCellWidth imagesMetadata options).
Proof.
  destruct cell_in_range as (Hw & _ & Hcw & _).
  unfold Node.maxCellWidth. unfold maxCellWidth in Hcw |- *.
  replace ((fun img => Float64.of_int (width img)) <$> imagesMetadata)
    with (Float64.of_int <$> (width <$> imagesMetadata))
    by (rewrite <- list_fmap_compose; reflexivity).
  rewrite node_Math_max_of_int.
  - apply Float64_exact.add_of_int; lia.
  - intros Hnil. apply fmap_nil_inv in Hnil. exact (records_nonempty Hnil).
  - apply widths_in_range.
Qed.

Lemma node_maxCellHeight_exact :
  Node.maxCellHeight imagesMetadata options =
  Float64.of_int (maxCellHeight imagesMetadata options).
Proof.
  destruct cell_in_range as (_ & Hh & _ & Hch).
  unfold Node.maxCellHeight. unfold maxCellHeight in Hch |- *.
  replace ((fun img => Float64.of_int (height img)) <$> imagesMetadata)
    with (Float64.of_int <$> (height <$> imagesMetadata))
    by (rewrite <- list_fmap_compose; reflexivity).
  rewrite node_Math_max_of_int.
  - apply Float64_exact.add_of_int; lia.
  - intros Hnil. apply fmap_nil_inv in Hnil. exact (records_nonempty Hnil).
  - apply heights_in_range.
Qed.

Lemma node_spriteWidth_exact :
  Node.spriteWidth imagesMetadata options =
  Float64.of_int (spriteWidth imagesMetadata options).
Proof.
  destruct cell_in_range as (Hw & _ & Hcw & _).
  destruct (gridSize_bracket imagesMetadata records) as [Hg _].
  unfold Node.spriteWidth. rewrite node_maxCellWidth_exact.
  unfold number_mul, spriteWidth.
  apply Float64_exact.mul_of_int.
  - assert (2 ^ 16 < 2 ^ 53) by reflexivity. lia.
  - unfold maxCellWidth in Hcw |- *. lia.
  - exact sheet_width.
Qed.

Lemma node_spriteHeight_exact :
  Node.spriteHeight imagesMetadata options =
  Float64.of_int (spriteHeight imagesMetadata options).
Proof.
  destruct cell_in_range as (_ & Hh & _ & Hch).
  destruct (gridSize_bracket imagesMetadata records) as [Hg _].
  unfold Node.spriteHeight. rewrite node_maxCellHeight_exact.
  unfold number_mul, spriteHeight.
  apply Float64_exact.mul_of_int.
  - assert (2 ^ 16 < 2 ^ 53) by reflexivity. lia.
  - unfold maxCellHeight in Hch |- *. lia.
  - exact sheet_height.
Qed.

Lemma node_x_exact (i : Z) :
  0 <= i < imageCount imagesMetadata ->
  Node.x imagesMetadata options i = Float64.of_int (x imagesMetadata options i) /\
  0 <= x imagesMetadata options i < 2 ^ 53.
Proof.
  intros Hi.
  destruct cell_in_range as (Hw & _ & Hcw & _).
  destruct (gridSize_bracket imagesMetadata records) as [Hg _].
  destruct (row_col_range imagesMetadata i records Hi) as [_ Hcol].
  assert (Hx : 0 <= x imagesMetadata options i < 2 ^ 53).
  { unfold x. pose proof sheet_width as Hsw. unfold spriteWidth in Hsw.
    unfold maxCellWidth in Hcw, Hsw |- *. revert Hcol Hsw Hg.
    generalize (col imagesMetadata i) (gridSize imagesMetadata) (2 ^ 53).
    intros c g B Hcol Hsw Hg. nia. }
  split; [|exact Hx].
  unfold Node.x. rewrite node_maxCellWidth_exact.
  unfold number_mul. apply Float64_exact.mul_of_int.
  - assert (2 ^ 16 < 2 ^ 53) by reflexivity. lia.
  - unfold maxCellWidth in Hcw |- *. lia.
  - apply Hx.
Qed.

Lemma node_y_exact (i : Z) :
  0 <= i < imageCount imagesMetadata ->
  Node.y imagesMetadata options i = Float64.of_int (y imagesMetadata options i) /\
  0 <= y imagesMetadata options i < 2 ^ 53.
Proof.
  intros Hi.
  destruct cell_in_range as (_ & Hh & _ & Hch).
  destruct (gridSize_bracket imagesMetadata records) as [Hg _].
  destruct (row_col_range imagesMetadata i records Hi) as [Hrow _].
  assert (Hy : 0 <= y imagesMetadata options i < 2 ^ 53).
  { unfold y. pose proof sheet_height as Hsh. unfold spriteHeight in Hsh.
    unfold maxCellHeight in Hch, Hsh |- *. revert Hrow Hsh Hg.
    generalize (row imagesMetadata i) (gridSize imagesMetadata) (2 ^ 53).
    intros c g B Hrow Hsh Hg. nia. }
  split; [|exact Hy].
  unfold Node.y. rewrite node_maxCellHeight_exact.
  unfold number_mul. apply Float64_exact.mul_of_int.
  - assert (2 ^ 16 < 2 ^ 53) by reflexivity. lia.
  - unfold maxCellHeight in Hch |- *. lia.
  - apply Hy.
Qed.

End Node_layout_facts.

(** ** The placement loop in binary64 *)

Section Node_loop_facts.

Context {Image Buffer : Type}.
Variable toBuffer : Image -> option Buffer.
Variable imagesMetadata : list (@ImageMeta Image).
Variable options : Options.

Local Abbreviation loop' := (Node.loop toBuffer imagesMetadata options).
Local Abbreviation position' := (Node.position_at imagesMetadata options).
Local Abbreviation composite' := (Node.composite_at (Buffer := Buffer) imagesMetadata options).

Lemma node_loop_body_Some (i : Z) (r : ImageMeta) (st st' : Node.loop_state) :
  Node.loop_body toBuffer imagesMetadata options i r st = Some st' <->
  exists buf, toBuffer (image r) = Some buf /\
    st' = {| Node.composites := Node.composites st ++ [composite' i buf];
             Node.positions := <[filename r := position' i r]> (Node.positions st) |}.
Proof.
  unfold Node.loop_body, Node.composite_at, Node.position_at.
  destruct (toBuffer (image r)) as [buf|]; split.
  - intros [= <-]. exists buf. split; reflexivity.
  - intros (b & [= <-] & ->). reflexivity.
  - discriminate.
  - intros (b & Hb & _). discriminate.
Qed.

Lemma node_loop_app (i : Z) (l1 l2 : list ImageMeta) (st : Node.loop_state) :
  loop' i (l1 ++ l2) st =
  match loop' i l1 st with
  | Some st' => loop' (i + Z.of_nat (length l1)) l2 st'
  | None => None
  end.
Proof.
  revert i st. induction l1 as [|r l1 IH]; intros i st; simpl.
  - f_equal. lia.
  - destruct (Node.loop_body _ _ _ i r st) as [st1|]; [|reflexivity].
    rewrite IH. destruct (loop' (i + 1) l1 st1); [|reflexivity].
    f_equal. lia.
Qed.

Lemma node_loop_is_Some (i : Z) (rest : list ImageMeta) (st : Node.loop_state) :
  is_Some (loop' i rest st) <->
  Forall (fun r => is_Some (toBuffer (image r))) rest.
Proof.
  revert i st. induction rest as [|r rest IH]; intros i st; simpl.
  - split; [constructor|eauto].
  - rewrite Forall_cons. unfold Node.loop_body at 1.
    destruct (toBuffer (image r)) as [buf|].
    + rewrite IH. split; [intros H; split; eauto|intros [_ H]; exact H].
    + split; [intros [? [=]]|intros [[? [=]] _]].
Qed.

Lemma node_loop_lookup_other (i : Z) (rest : list ImageMeta)
    (st st' : Node.loop_state) (f : string) :
  loop' i rest st = Some st' ->
  (forall r, r ∈ rest -> filename r <> f) ->
  Node.positions st' !! f = Node.positions st !! f.
Proof.
  revert i st. induction rest as [|r rest IH]; intros i st Hl Hne.
  - injection Hl as ->. reflexivity.
  - simpl in Hl.
    destruct (Node.loop_body _ _ _ i r st) as [st1|] eqn:Hb; [|discriminate].
    apply node_loop_body_Some in Hb as (buf & _ & ->).
    rewrite (IH _ _ Hl); [|intros; apply Hne; right; assumption].
    simpl. apply lookup_insert_ne, Hne. left.
Qed.

Lemma node_loop_lookup_last (i : Z) (rest : list ImageMeta)
    (st st' : Node.loop_state) (k : nat) (r : ImageMeta) :
  loop' i rest st = Some st' ->
  rest !! k = Some r ->
  (forall k' r', (k < k')%nat -> rest !! k' = Some r' -> filename r' <> filename r) ->
  Node.positions st' !! filename r = Some (position' (i + Z.of_nat k) r).
Proof.
  revert i st k. induction rest as [|r0 rest IH]; intros i st k Hl Hk Hlast.
  - discriminate.
  - simpl in Hl.
    destruct (Node.loop_body _ _ _ i r0 st) as [st1|] eqn:Hb; [|discriminate].
    apply node_loop_body_Some in Hb as (buf & Hbuf & ->).
    destruct k as [|k].
    + injection Hk as ->.
      rewrite (node_loop_lookup_other _ _ _ _ (filename r) Hl).
      * simpl. rewrite Z.add_0_r. apply lookup_insert_eq.
      * intros r' Hr'. apply list_elem_of_lookup in Hr' as [k' Hk'].
        apply (Hlast (S k')); [lia|exact Hk'].
    + rewrite (IH _ _ k Hl Hk).
      * f_equal. f_equal. lia.
      * intros k' r' Hlt Hk'. apply (Hlast (S k')); [lia|exact Hk'].
Qed.

Lemma node_loop_lookup_inv (i : Z) (rest : list ImageMeta)
    (st st' : Node.loop_state) (f : string) (e : Node.Position) :
  loop' i rest st = Some st' ->
  Node.positions st' !! f = Some e ->
  Node.positions st !! f = Some e \/
  exists k r, rest !! k = Some r /\ filename r = f /\
              e = position' (i + Z.of_nat k) r.
Proof.
  revert i st. induction rest as [|r rest IH]; intros i st Hl He.
  - injection Hl as ->. left. exact He.
  - simpl in Hl.
    destruct (Node.loop_body _ _ _ i r st) as [st1|] eqn:Hb; [|discriminate].
    apply node_loop_body_Some in Hb as (buf & _ & ->).
    destruct (IH _ _ Hl He) as [H|(k & r' & Hk & Hf & ->)].
    + simpl in H. rewrite lookup_insert in H. case_decide.
      * injection H as <-. right. exists 0%nat, r.
        rewrite Z.add_0_r. auto.
      * left. exact H.
    + right. exists (S k), r'. split; [exact Hk|]. split; [exact Hf|].
      f_equal. lia.
Qed.


Lemma node_loop_composites (i : Z) (rest : list ImageMeta) (st st' : Node.loop_state) :
  loop' i rest st = Some st' ->
  length (Node.composites st') = (length (Node.composites st) + length rest)%nat /\
  (forall k c, Node.composites st !! k = Some c -> Node.composites st' !! k = Some c) /\
  (forall k r, rest !! k = Some r ->
     exists buf, toBuffer (image r) = Some buf /\
       Node.composites st' !! (length (Node.composites st) + k)%nat =
       Some (composite' (i + Z.of_nat k) buf)).
Proof.
  revert i st. induction rest as [|r rest IH]; intros i st Hl.
  - injection Hl as ->. simpl. split; [lia|]. split; [auto|]. intros k r [=].
  - simpl in Hl.
    destruct (Node.loop_body _ _ _ i r st) as [st1|] eqn:Hb; [|discriminate].
    apply node_loop_body_Some in Hb as (buf & Hbuf & ->).
    destruct (IH _ _ Hl) as (Hlen & Hpre & Hnew). simpl in Hlen, Hpre, Hnew.
    rewrite length_app in Hlen, Hnew. simpl in Hlen, Hnew.
    split; [simpl; lia|]. split.
    + intros k c Hk. apply Hpre. apply lookup_app_l_Some, Hk.
    + intros [|k] r' Hk.
      * injection Hk as <-. exists buf. split; [exact Hbuf|].
        rewrite Nat.add_0_r, Z.add_0_r. apply Hpre.
        rewrite lookup_app_r by lia. rewrite Nat.sub_diag. reflexivity.
      * destruct (Hnew k r' Hk) as (b & Hb & Hc). exists b. split; [exact Hb|].
        replace (length (Node.composites st) + S k)%nat
          with (length (Node.composites st) + 1 + k)%nat by lia.
        rewrite Hc. f_equal. f_equal. lia.
Qed.

End Node_loop_facts.

(** ** The runs in binary64, case by case *)

Section Node_run_facts.

Context {Image Buffer : Type}.
Variable toBuffer : Image -> option Buffer.
Variable toFile_ok : @Node.SpriteImage Buffer -> string -> bool.
Variable writeFileSync_ok : string -> bool.
Variable path_join : string -> string -> string.
Variable spread_ok : nat -> bool.
Variable create_ok : spec_float -> spec_float -> bool.
Variable imagesMetadata : list (@ImageMeta Image).
Variable options : Options.
Variable outputDir : string.

Local Abbreviation run :=
  (Node.generateSpriteFromDirectory toBuffer toFile_ok writeFileSync_ok path_join
     spread_ok create_ok imagesMetadata options outputDir).
Local Abbreviation n := (imageCount imagesMetadata).
Local Abbreviation g := (gridSize imagesMetadata).
Local Abbreviation sw := (Node.spriteWidth imagesMetadata options).
Local Abbreviation sh := (Node.spriteHeight imagesMetadata options).
Local Abbreviation the_loop :=
  (Node.loop toBuffer imagesMetadata options 0 imagesMetadata
     {| Node.composites := []; Node.positions := ∅ |}).
Local Abbreviation png := (path_join outputDir (name options +:+ ".png")).
Local Abbreviation json := (path_join outputDir (name options +:+ ".json")).
Local Abbreviation spread := (spread_ok (length imagesMetadata)).
Local Abbreviation exceeded := (Node.size_exceeded imagesMetadata options).
Local Abbreviation created := (create_ok sw sh).

Ltac run_unfold :=
  unfold Node.generateSpriteFromDirectory, Node.try_catch, Node.bind, Node.emit,
    Node.process_exit, Node.ret, Node.throw, Node.toFile, Node.writeFileSync,
    Node.write, Node.success_events.

Lemma node_run_empty (w : @Node.world Buffer) :
  n = 0 ->
  run w =
  ({| Node.files := Node.files w;
      Node.console := Node.console w ++
        [Node.spinner_start Node.ScanningImageDirectory;
         Node.spinner_fail Node.NoImagesFound] |},
   inl (ProcessExit 1)).
Proof.
  intros Hn. run_unfold. rewrite Hn. simpl. rewrite <- app_assoc. reflexivity.
Qed.

Lemma node_run_spread_throws (w : @Node.world Buffer) :
  n <> 0 -> spread = false ->
  run w =
  ({| Node.files := Node.files w;
      Node.console := Node.console w ++
        [Node.spinner_start Node.ScanningImageDirectory;
         Node.spinner_succeed (Node.FoundImages n);
         Node.spinner_fail Node.ErrorMessage] |},
   inl (ProcessExit 1)).
Proof.
  intros Hn Hs. run_unfold. apply Z.eqb_neq in Hn. rewrite Hn, Hs. simpl.
  rewrite <- !app_assoc. reflexivity.
Qed.

Lemma node_run_size_exceeded (w : @Node.world Buffer) :
  n <> 0 -> spread = true -> exceeded = true ->
  run w =
  ({| Node.files := Node.files w;
      Node.console := Node.console w ++
        [Node.spinner_start Node.ScanningImageDirectory;
         Node.spinner_succeed (Node.FoundImages n);
         Node.spinner_fail
           (Node.DimensionsExceedMaximum sw sh (Float64.of_int (maxSize options)))] |},
   inl (ProcessExit 1)).
Proof.
  intros Hn Hs Hex. run_unfold. apply Z.eqb_neq in Hn. rewrite Hn, Hs.
  unfold Node.size_exceeded in Hex. rewrite Hex. simpl.
  rewrite <- !app_assoc. reflexivity.
Qed.

Lemma node_run_create_throws (w : @Node.world Buffer) :
  n <> 0 -> spread = true -> exceeded = false -> created = false ->
  run w =
  ({| Node.files := Node.files w;
      Node.console := Node.console w ++
        [Node.spinner_start Node.ScanningImageDirectory;
         Node.spinner_succeed (Node.FoundImages n);
         Node.spinner_succeed (Node.CalculatedLayout g);
         Node.spinner_succeed (Node.SpriteDimensions sw sh);
         Node.spinner_fail Node.ErrorMessage] |},
   inl (ProcessExit 1)).
Proof.
  intros Hn Hs Hex Hc. run_unfold. apply Z.eqb_neq in Hn. rewrite Hn, Hs.
  unfold Node.size_exceeded in Hex. rewrite Hex. simpl. rewrite Hc. simpl.
  rewrite <- !app_assoc. reflexivity.
Qed.

Lemma node_run_loop_throws (w : @Node.world Buffer) :
  n <> 0 -> spread = true -> exceeded = false -> created = true ->
  the_loop = None ->
  run w =
  ({| Node.files := Node.files w;
      Node.console := Node.console w ++
        [Node.spinner_start Node.ScanningImageDirectory;
         Node.spinner_succeed (Node.FoundImages n);
         Node.spinner_succeed (Node.CalculatedLayout g);
         Node.spinner_succeed (Node.SpriteDimensions sw sh);
         Node.spinner_fail Node.ErrorMessage] |},
   inl (ProcessExit 1)).
Proof.
  intros Hn Hs Hex Hc Hl. run_unfold. apply Z.eqb_neq in Hn. rewrite Hn, Hs.
  unfold Node.size_exceeded in Hex. rewrite Hex. simpl. rewrite Hc, Hl. simpl.
  rewrite <- !app_assoc. reflexivity.
Qed.

Lemma node_run_toFile_throws (w : @Node.world Buffer) (st : @Node.loop_state Buffer) :
  n <> 0 -> spread = true -> exceeded = false -> created = true ->
  the_loop = Some st ->
  toFile_ok (Node.sprite imagesMetadata options (Node.composites st)) png = false ->
  run w =
  ({| Node.files := Node.files w;
      Node.console := Node.console w ++
        [Node.spinner_start Node.ScanningImageDirectory;
         Node.spinner_succeed (Node.FoundImages n);
         Node.spinner_succeed (Node.CalculatedLayout g);
         Node.spinner_succeed (Node.SpriteDimensions sw sh);
         Node.spinner_start Node.SavingSpriteImage;
         Node.spinner_fail Node.ErrorMessage] |},
   inl (ProcessExit 1)).
Proof.
  intros Hn Hs Hex Hc Hl Hf. run_unfold. apply Z.eqb_neq in Hn. rewrite Hn, Hs.
  unfold Node.size_exceeded in Hex. rewrite Hex. simpl. rewrite Hc, Hl. simpl.
  rewrite Hf. simpl. rewrite <- !app_assoc. reflexivity.
Qed.

Lemma node_run_writeFileSync_throws (w : @Node.world Buffer)
    (st : @Node.loop_state Buffer) :
  n <> 0 -> spread = true -> exceeded = false -> created = true ->
  the_loop = Some st ->
  toFile_ok (Node.sprite imagesMetadata options (Node.composites st)) png = true ->
  writeFileSync_ok json = false ->
  run w =
  ({| Node.files := Node.files w ++
        [(png, Node.PngFile (Node.sprite imagesMetadata options (Node.composites st)))];
      Node.console := Node.console w ++
        [Node.spinner_start Node.ScanningImageDirectory;
         Node.spinner_succeed (Node.FoundImages n);
         Node.spinner_succeed (Node.CalculatedLayout g);
         Node.spinner_succeed (Node.SpriteDimensions sw sh);
         Node.spinner_start Node.SavingSpriteImage;
         Node.spinner_succeed (Node.SpriteImageSaved png);
         Node.spinner_start Node.GeneratingPositionData;
         Node.spinner_fail Node.ErrorMessage] |},
   inl (ProcessExit 1)).
Proof.
  intros Hn Hs Hex Hc Hl Hf Hj. run_unfold. apply Z.eqb_neq in Hn. rewrite Hn, Hs.
  unfold Node.size_exceeded in Hex. rewrite Hex. simpl. rewrite Hc, Hl. simpl.
  rewrite Hf. simpl. rewrite Hj. simpl. rewrite <- !app_assoc. reflexivity.
Qed.

Lemma node_run_completes (w : @Node.world Buffer) (st : @Node.loop_state Buffer) :
  n <> 0 -> spread = true -> exceeded = false -> created = true ->
  the_loop = Some st ->
  toFile_ok (Node.sprite imagesMetadata options (Node.composites st)) png = true ->
  writeFileSync_ok json = true ->
  run w =
  ({| Node.files := Node.files w ++
        [(png, Node.PngFile (Node.sprite imagesMetadata options (Node.composites st)));
         (json, Node.JsonFile (Node.jsonData imagesMetadata options (Node.positions st)))];
      Node.console := Node.console w ++
        Node.success_events imagesMetadata options png json |},
   inr tt).
Proof.
  intros Hn Hs Hex Hc Hl Hf Hj. run_unfold. apply Z.eqb_neq in Hn. rewrite Hn, Hs.
  unfold Node.size_exceeded in Hex. rewrite Hex. simpl. rewrite Hc, Hl. simpl.
  rewrite Hf. simpl. rewrite Hj. simpl. rewrite <- !app_assoc. reflexivity.
Qed.

(** The eight cases are exhaustive. *)
Lemma node_run_cases :
  (n = 0) \/
  (n <> 0 /\ spread = false) \/
  (n <> 0 /\ spread = true /\ exceeded = true) \/
  (n <> 0 /\ spread = true /\ exceeded = false /\ created = false) \/
  (n <> 0 /\ spread = true /\ exceeded = false /\ created = true /\
   the_loop = None) \/
  (exists st, n <> 0 /\ spread = true /\ exceeded = false /\ created = true /\
     the_loop = Some st /\
     toFile_ok (Node.sprite imagesMetadata options (Node.composites st)) png = false) \/
  (exists st, n <> 0 /\ spread = true /\ exceeded = false /\ created = true /\
     the_loop = Some st /\
     toFile_ok (Node.sprite imagesMetadata options (Node.composites st)) png = true /\
     writeFileSync_ok json = false) \/
  (exists st, n <> 0 /\ spread = true /\ exceeded = false /\ created = true /\
     the_loop = Some st /\
     toFile_ok (Node.sprite imagesMetadata options (Node.composites st)) png = true /\
     writeFileSync_ok json = true).
Proof.
  destruct (Z.eq_dec n 0) as [Hn|Hn]; [left; exact Hn|right].
  destruct spread; [right|left; auto].
  destruct exceeded; [left; auto|right].
  destruct created; [right|left; auto].
  destruct the_loop as [st|]; [right|left; auto].
  destruct (toFile_ok (Node.sprite imagesMetadata options (Node.composites st)) png) eqn:Hf;
    [right|left; exists st; auto 10].
  destruct (writeFileSync_ok json) eqn:Hj; [right|left]; exists st; auto 10.
Qed.

Lemma node_run_inr_inv (w w' : @Node.world Buffer) :
  run w = (w', inr tt) ->
  exists st,
    n <> 0 /\ spread = true /\ exceeded = false /\ created = true /\
    the_loop = Some st /\
    toFile_ok (Node.sprite imagesMetadata options (Node.composites st)) png = true /\
    writeFileSync_ok json = true /\
    w' = {| Node.files := Node.files w ++
              [(png, Node.PngFile (Node.sprite imagesMetadata options (Node.composites st)));
               (json, Node.JsonFile (Node.jsonData imagesMetadata options (Node.positions st)))];
            Node.console := Node.console w ++
              Node.success_events imagesMetadata options png json |}.
Proof.
  intros Hrun.
  destruct node_run_cases as [H|[[H1 H2]|[(H1 & H2 & H3)|[(H1 & H2 & H3 & H4)|
    [(H1 & H2 & H3 & H4 & H5)|[(st & H1 & H2 & H3 & H4 & H5 & H6)|
    [(st & H1 & H2 & H3 & H4 & H5 & H6 & H7)|(st & H1 & H2 & H3 & H4 & H5 & H6 & H7)]]]]]]].
  - rewrite node_run_empty in Hrun by assumption. discriminate.
  - rewrite node_run_spread_throws in Hrun by assumption. discriminate.
  - rewrite node_run_size_exceeded in Hrun by assumption. discriminate.
  - rewrite node_run_create_throws in Hrun by assumption. discriminate.
  - rewrite node_run_loop_throws in Hrun by assumption. discriminate.
  - rewrite (node_run_toFile_throws w st) in Hrun by assumption. discriminate.
  - rewrite (node_run_writeFileSync_throws w st) in Hrun by assumption. discriminate.
  - rewrite (node_run_completes w st) in Hrun by assumption.
    injection Hrun as <-. exists st. repeat split; assumption.
Qed.

End Node_run_facts.

(** ** The two layers agree below [2 ^ 53] *)

Section Layers_agree.

Context {Image Buffer : Type}.
Variable toBuffer : Image -> option Buffer.
Variable toFile_ok : @SpriteImage Buffer -> string -> bool.
Variable node_toFile_ok : @Node.SpriteImage Buffer -> string -> bool.
Variable writeFileSync_ok : string -> bool.
Variable path_join : string -> string -> string.
Variable spread_ok : nat -> bool.
Variable create_ok : spec_float -> spec_float -> bool.
Variable imagesMetadata : list (@ImageMeta Image).
Variable options : Options.

Hypothesis records : 1 <= imageCount imagesMetadata < 2 ^ 32.
Hypothesis sizes : Forall (fun r => 0 <= width r /\ 0 <= height r) imagesMetadata.
Hypothesis pad : 0 <= padding options.
Hypothesis sheet_width : spriteWidth imagesMetadata options < 2 ^ 53.
Hypothesis sheet_height : spriteHeight imagesMetadata options < 2 ^ 53.
Hypothesis max_size : 0 <= maxSize options < 2 ^ 53.

Lemma sheet_nonneg :
  0 <= spriteWidth imagesMetadata options /\ 0 <= spriteHeight imagesMetadata options.
Proof.
  destruct (cell_in_range imagesMetadata options records sizes pad sheet_width sheet_height)
    as (Hw0 & Hh0 & _ & _).
  destruct (gridSize_bracket imagesMetadata records) as [Hg _].
  unfold spriteWidth, spriteHeight, maxCellWidth, maxCellHeight. split; nia.
Qed.

Lemma node_size_exceeded_exact :
  Node.size_exceeded imagesMetadata options = size_exceeded imagesMetadata options.
Proof.
  destruct sheet_nonneg as [Hsw0 Hsh0].
  unfold Node.size_exceeded, size_exceeded.
  rewrite (node_spriteWidth_exact imagesMetadata options records sizes pad
             sheet_width sheet_height).
  rewrite (node_spriteHeight_exact imagesMetadata options records sizes pad
             sheet_width sheet_height).
  rewrite !number_gt_of_int by lia. reflexivity.
Qed.

Lemma node_loop_exact (i : Z) (rest : list (@ImageMeta Image)) (st : @loop_state Buffer) :
  0 <= i -> i + Z.of_nat (length rest) <= imageCount imagesMetadata ->
  Node.loop toBuffer imagesMetadata options i rest (as_double_state st) =
  as_double_state <$> loop toBuffer imagesMetadata options i rest st.
Proof.
  revert i st. induction rest as [|r rest IH]; intros i st Hi Hlen; [reflexivity|].
  simpl in Hlen. simpl. unfold Node.loop_body, loop_body.
  destruct (toBuffer (image r)) as [buf|]; [|reflexivity].
  assert (Hin : 0 <= i < imageCount imagesMetadata) by lia.
  destruct (node_x_exact imagesMetadata options records sizes pad sheet_width
              sheet_height i Hin) as [Ex _].
  destruct (node_y_exact imagesMetadata options records sizes pad sheet_width
              sheet_height i Hin) as [Ey _].
  rewrite <- IH by lia. f_equal.
  unfold as_double_state. simpl. rewrite fmap_app, fmap_insert, Ex, Ey. reflexivity.
Qed.

Hypothesis spread : spread_ok (length imagesMetadata) = true.
Hypothesis created :
  size_exceeded imagesMetadata options = false ->
  create_ok (Float64.of_int (spriteWidth imagesMetadata options))
            (Float64.of_int (spriteHeight imagesMetadata options)) = true.
Hypothesis same_toFile :
  forall img file, node_toFile_ok (as_double_sprite img) file = toFile_ok img file.

(** Below [2 ^ 53], when the engine accepts the call of [Math.max] and sharp
    the canvas, the run in binary64 is the run of the exact layer: same
    outcome, same messages and same files, number for number. *)
Theorem node_run_exact (outputDir : string) (w : @world Buffer) :
  Node.generateSpriteFromDirectory toBuffer node_toFile_ok writeFileSync_ok path_join
    spread_ok create_ok imagesMetadata options outputDir (as_double_world w) =
  (as_double_world
     (generateSpriteFromDirectory toBuffer toFile_ok writeFileSync_ok path_join
        imagesMetadata options outputDir w).1,
   (generateSpriteFromDirectory toBuffer toFile_ok writeFileSync_ok path_join
      imagesMetadata options outputDir w).2).
Proof.
  pose proof node_size_exceeded_exact as Hex.
  pose proof (node_spriteWidth_exact imagesMetadata options records sizes pad
                sheet_width sheet_height) as Esw.
  pose proof (node_spriteHeight_exact imagesMetadata options records sizes pad
                sheet_width sheet_height) as Esh.
  pose proof (node_maxCellWidth_exact imagesMetadata options records sizes pad
                sheet_width sheet_height) as Ecw.
  pose proof (node_maxCellHeight_exact imagesMetadata options records sizes pad
                sheet_width sheet_height) as Ech.
  pose proof (node_loop_exact 0 imagesMetadata {| composites := []; positions := ∅ |}
                ltac:(lia) ltac:(unfold imageCount; lia)) as Hloop.
  change (as_double_state {| composites := []; positions := ∅ |})
    with {| Node.composites := @nil (@Node.Composite Buffer);
            Node.positions := as_double_position <$> ∅ |} in Hloop.
  rewrite fmap_empty in Hloop.
  assert (Hsprite : forall cs : list (@Composite Buffer),
            Node.sprite imagesMetadata options (as_double_composite <$> cs) =
            as_double_sprite (sprite imagesMetadata options cs)).
  { intros cs. unfold Node.sprite, as_double_sprite. simpl. rewrite Esw, Esh. reflexivity. }
  assert (Hjson : forall ps,
            Node.jsonData imagesMetadata options (as_double_position <$> ps) =
            as_double_json (jsonData imagesMetadata options ps)).
  { intros ps. unfold Node.jsonData, as_double_json. simpl. rewrite Esw, Esh. reflexivity. }
  assert (Hcreated : size_exceeded imagesMetadata options = false ->
            create_ok (Node.spriteWidth imagesMetadata options)
                      (Node.spriteHeight imagesMetadata options) = true)
    by (rewrite Esw, Esh; exact created).
  destruct (run_cases toBuffer toFile_ok writeFileSync_ok path_join
              imagesMetadata options outputDir)
    as [H|[[H1 H2]|[(H1 & H2 & H3)|[(st & H1 & H2 & H3 & H4)|
       [(st & H1 & H2 & H3 & H4 & H5)|(st & H1 & H2 & H3 & H4 & H5)]]]]].
  - lia.
  - rewrite run_size_exceeded by assumption.
    rewrite node_run_size_exceeded by (try rewrite Hex; assumption).
    rewrite Esw, Esh. unfold as_double_world. simpl. rewrite fmap_app. reflexivity.
  - pose proof (Hcreated H2) as Hc. rewrite <- Hex in H2. rewrite H3 in Hloop.
    rewrite run_loop_throws by (try rewrite <- Hex; assumption).
    rewrite node_run_loop_throws by assumption.
    rewrite Esw, Esh. unfold as_double_world. simpl. rewrite fmap_app. reflexivity.
  - pose proof (Hcreated H2) as Hc. rewrite <- Hex in H2. rewrite H3 in Hloop.
    rewrite (run_toFile_throws _ _ _ _ _ _ _ w st) by (try rewrite <- Hex; assumption).
    rewrite (node_run_toFile_throws _ _ _ _ _ _ _ _ _ _ (as_double_state st));
      [|assumption|assumption|assumption|assumption|exact Hloop|].
    + rewrite Esw, Esh. unfold as_double_world. simpl. rewrite fmap_app. reflexivity.
    + simpl. rewrite Hsprite, same_toFile. exact H4.
  - pose proof (Hcreated H2) as Hc. rewrite <- Hex in H2. rewrite H3 in Hloop.
    rewrite (run_writeFileSync_throws _ _ _ _ _ _ _ w st)
      by (try rewrite <- Hex; assumption).
    rewrite (node_run_writeFileSync_throws _ _ _ _ _ _ _ _ _ _ (as_double_state st));
      [|assumption|assumption|assumption|assumption|exact Hloop| |assumption].
    + simpl. rewrite Hsprite, Esw, Esh. unfold as_double_world. simpl.
      rewrite !fmap_app. reflexivity.
    + simpl. rewrite Hsprite, same_toFile. exact H4.
  - pose proof (Hcreated H2) as Hc. rewrite <- Hex in H2. rewrite H3 in Hloop.
    rewrite (run_completes _ _ _ _ _ _ _ w st) by (try rewrite <- Hex; assumption).
    rewrite (node_run_completes _ _ _ _ _ _ _ _ _ _ (as_double_state st));
      [|assumption|assumption|assumption|assumption|exact Hloop| |assumption].
    + simpl. rewrite Hsprite, Hjson. unfold as_double_world, Node.success_events. simpl.
      rewrite !fmap_app, Esw, Esh, Ecw, Ech. reflexivity.
    + simpl. rewrite Hsprite, same_toFile. exact H4.
Qed.

End Layers_agree.

(** ** The largest record *)

Lemma widest_record {Image : Type} (imagesMetadata : list (@ImageMeta Image)) :
  imagesMetadata <> [] ->
  exists r, r ∈ imagesMetadata /\ Math_max (width <$> imagesMetadata) = width r /\
            forall r', r' ∈ imagesMetadata -> width r' <= width r.
Proof.
  intros Hne.
  assert (Hw : Math_max (width <$> imagesMetadata) ∈ width <$> imagesMetadata)
    by (apply Math_max_attained; intros Hnil; apply fmap_nil_inv in Hnil; auto).
  apply list_elem_of_fmap in Hw as (r & Hr & Hin).
  exists r. split; [exact Hin|]. split; [exact Hr|].
  intros r' Hr'. rewrite <- Hr. apply Math_max_ub, list_elem_of_fmap. eauto.
Qed.

Lemma highest_record {Image : Type} (imagesMetadata : list (@ImageMeta Image)) :
  imagesMetadata <> [] ->
  exists r, r ∈ imagesMetadata /\ Math_max (height <$> imagesMetadata) = height r /\
            forall r', r' ∈ imagesMetadata -> height r' <= height r.
Proof.
  intros Hne.
  assert (Hw : Math_max (height <$> imagesMetadata) ∈ height <$> imagesMetadata)
    by (apply Math_max_attained; intros Hnil; apply fmap_nil_inv in Hnil; auto).
  apply list_elem_of_fmap in Hw as (r & Hr & Hin).
  exists r. split; [exact Hin|]. split; [exact Hr|].
  intros r' Hr'. rewrite <- Hr. apply Math_max_ub, list_elem_of_fmap. eauto.
Qed.

(** The sheet that holds every record in a cell of its own is below
    [2 ^ 53] when this is so for each record. *)
Lemma sheet_in_range {Image : Type} (imagesMetadata : list (@ImageMeta Image))
    (options : Options) :
  imagesMetadata <> [] ->
  Forall (fun r => 0 <= width r /\ 0 <= height r /\
                   gridSize imagesMetadata * (width r + padding options) < 2 ^ 53 /\
                   gridSize imagesMetadata * (height r + padding options) < 2 ^ 53)
         imagesMetadata ->
  Forall (fun r => 0 <= width r /\ 0 <= height r) imagesMetadata /\
  spriteWidth imagesMetadata options < 2 ^ 53 /\
  spriteHeight imagesMetadata options < 2 ^ 53.
Proof.
  intros Hne Hall.
  destruct (widest_record imagesMetadata Hne) as (rw & Hrw & Hw & _).
  destruct (highest_record imagesMetadata Hne) as (rh & Hrh & Hh & _).
  split; [|split].
  - eapply Forall_impl; [exact Hall|]. simpl. intros r (H1 & H2 & _). auto.
  - unfold spriteWidth, maxCellWidth. rewrite Hw.
    apply (proj1 (Forall_forall _ _) Hall rw Hrw).
  - unfold spriteHeight, maxCellHeight. rewrite Hh.
    apply (proj1 (Forall_forall _ _) Hall rh Hrh).
Qed.

Section Node_claims.

Context {Image Buffer : Type}.
Variable toBuffer : Image -> option Buffer.
Variable toFile_ok : @Node.SpriteImage Buffer -> string -> bool.
Variable writeFileSync_ok : string -> bool.
Variable path_join : string -> string -> string.
Variable spread_ok : nat -> bool.
Variable create_ok : spec_float -> spec_float -> bool.

Local Abbreviation init :=
  {| Node.composites := @nil (@Node.Composite Buffer); Node.positions := ∅ |}.

(** C2 (amended).  For every non-empty record sequence with sizes that are
    not negative and every padding that is not negative, such that a sheet of
    [gridSize] cells that hold any record plus the padding stays below
    [2 ^ 53]: the cell width is the largest record width plus the padding,
    the cell height the largest record height plus the padding, and the
    sheet is [gridSize] times the cell, exactly; these are the dimensions of
    the canvas and of the JSON document.  A run computes them when the
    engine accepts the array as the arguments of [Math.max], and then prints
    them, in the size message or in the line of the sprite dimensions;
    otherwise the run ends at line 73 with the message of the [catch]. *)
Theorem C2_cell_and_sheet_dimensions
    (imagesMetadata : list (@ImageMeta Image)) (options : Options)
    (outputDir : string) (w : @Node.world Buffer) :
  1 <= imageCount imagesMetadata < 2 ^ 32 ->
  0 <= padding options ->
  Forall (fun r => 0 <= width r /\ 0 <= height r /\
                   gridSize imagesMetadata * (width r + padding options) < 2 ^ 53 /\
                   gridSize imagesMetadata * (height r + padding options) < 2 ^ 53)
         imagesMetadata ->
  exists rw rh,
    rw ∈ imagesMetadata /\ (forall r, r ∈ imagesMetadata -> width r <= width rw) /\
    rh ∈ imagesMetadata /\ (forall r, r ∈ imagesMetadata -> height r <= height rh) /\
    let cw := width rw + padding options in
    let ch := height rh + padding options in
    let sw := gridSize imagesMetadata * cw in
    let sh := gridSize imagesMetadata * ch in
    Node.maxCellWidth imagesMetadata options = Float64.of_int cw /\
    Node.maxCellHeight imagesMetadata options = Float64.of_int ch /\
    Node.spriteWidth imagesMetadata options = Float64.of_int sw /\
    Node.spriteHeight imagesMetadata options = Float64.of_int sh /\
    integer_value (Node.maxCellWidth imagesMetadata options) = Some cw /\
    integer_value (Node.maxCellHeight imagesMetadata options) = Some ch /\
    integer_value (Node.spriteWidth imagesMetadata options) = Some sw /\
    integer_value (Node.spriteHeight imagesMetadata options) = Some sh /\
    (forall (cs : list (@Node.Composite Buffer)) ps,
       Node.create_width (Node.sprite imagesMetadata options cs) = Float64.of_int sw /\
       Node.create_height (Node.sprite imagesMetadata options cs) = Float64.of_int sh /\
       Node.json_spriteWidth (Node.jsonData imagesMetadata options ps) = Float64.of_int sw /\
       Node.json_spriteHeight (Node.jsonData imagesMetadata options ps) = Float64.of_int sh) /\
    let out := Node.generateSpriteFromDirectory toBuffer toFile_ok writeFileSync_ok
                 path_join spread_ok create_ok imagesMetadata options outputDir w in
    (spread_ok (length imagesMetadata) = true ->
     last (Node.console out.1) =
       Some (Node.spinner_fail
               (Node.DimensionsExceedMaximum (Float64.of_int sw) (Float64.of_int sh)
                  (Float64.of_int (maxSize options)))) \/
     Node.console out.1 !! (length (Node.console w) + 3)%nat =
       Some (Node.spinner_succeed
               (Node.SpriteDimensions (Float64.of_int sw) (Float64.of_int sh)))) /\
    (spread_ok (length imagesMetadata) = false ->
     out =
     ({| Node.files := Node.files w;
         Node.console := Node.console w ++
           [Node.spinner_start Node.ScanningImageDirectory;
            Node.spinner_succeed (Node.FoundImages (imageCount imagesMetadata));
            Node.spinner_fail Node.ErrorMessage] |},
      inl (ProcessExit 1))).
Proof.
  intros Hn Hpad Hall.
  assert (Hne : imagesMetadata <> []) by (apply imageCount_pos_iff; lia).
  destruct (sheet_in_range imagesMetadata options Hne Hall) as (Hsz & Hsw & Hsh).
  destruct (widest_record imagesMetadata Hne) as (rw & Hrw & Hw & Hwmax).
  destruct (highest_record imagesMetadata Hne) as (rh & Hrh & Hh & Hhmax).
  destruct (cell_in_range imagesMetadata options Hn Hsz Hpad Hsw Hsh)
    as (Hw0 & Hh0 & Hcw & Hch).
  destruct (gridSize_bracket imagesMetadata Hn) as [Hg _].
  pose proof (node_maxCellWidth_exact imagesMetadata options Hn Hsz Hpad Hsw Hsh) as Ecw.
  pose proof (node_maxCellHeight_exact imagesMetadata options Hn Hsz Hpad Hsw Hsh) as Ech.
  pose proof (node_spriteWidth_exact imagesMetadata options Hn Hsz Hpad Hsw Hsh) as Esw.
  pose proof (node_spriteHeight_exact imagesMetadata options Hn Hsz Hpad Hsw Hsh) as Esh.
  unfold spriteWidth, spriteHeight in Hsw, Hsh, Esw, Esh.
  unfold maxCellWidth, maxCellHeight in Hcw, Hch, Hsw, Hsh, Ecw, Ech, Esw, Esh.
  rewrite Hw in Hw0, Hcw, Hsw, Ecw, Esw. rewrite Hh in Hh0, Hch, Hsh, Ech, Esh.
  assert (Hsw0 : 0 <= gridSize imagesMetadata * (width rw + padding options)) by nia.
  assert (Hsh0 : 0 <= gridSize imagesMetadata * (height rh + padding options)) by nia.
  exists rw, rh. split; [exact Hrw|]. split; [exact Hwmax|].
  split; [exact Hrh|]. split; [exact Hhmax|]. cbv zeta.
  split; [exact Ecw|]. split; [exact Ech|]. split; [exact Esw|]. split; [exact Esh|].
  split; [rewrite Ecw; apply Float64_exact.integer_value_of_int; lia|].
  split; [rewrite Ech; apply Float64_exact.integer_value_of_int; lia|].
  split; [rewrite Esw; apply Float64_exact.integer_value_of_int; lia|].
  split; [rewrite Esh; apply Float64_exact.integer_value_of_int; lia|].
  split; [intros cs ps; simpl; auto|].
  assert (Hn0 : imageCount imagesMetadata <> 0) by lia.
  split.
  - intros Hs. rewrite <- Esw, <- Esh.
    destruct (node_run_cases toBuffer toFile_ok writeFileSync_ok path_join spread_ok
                create_ok imagesMetadata options outputDir)
      as [H|[[H1 H2]|[(H1 & H2 & H3)|[(H1 & H2 & H3 & H4)|
         [(H1 & H2 & H3 & H4 & H5)|[(st & H1 & H2 & H3 & H4 & H5 & H6)|
         [(st & H1 & H2 & H3 & H4 & H5 & H6 & H7)|(st & H1 & H2 & H3 & H4 & H5 & H6 & H7)]]]]]]];
      [contradiction|congruence| | | | | |].
    + left. rewrite node_run_size_exceeded by assumption. simpl.
      rewrite last_app. reflexivity.
    + right. rewrite node_run_create_throws by assumption. simpl.
      rewrite lookup_app_r by lia.
      replace (length (Node.console w) + 3 - length (Node.console w))%nat with 3%nat by lia.
      reflexivity.
    + right. rewrite node_run_loop_throws by assumption. simpl.
      rewrite lookup_app_r by lia.
      replace (length (Node.console w) + 3 - length (Node.console w))%nat with 3%nat by lia.
      reflexivity.
    + right. rewrite (node_run_toFile_throws _ _ _ _ _ _ _ _ _ w st) by assumption. simpl.
      rewrite lookup_app_r by lia.
      replace (length (Node.console w) + 3 - length (Node.console w))%nat with 3%nat by lia.
      reflexivity.
    + right. rewrite (node_run_writeFileSync_throws _ _ _ _ _ _ _ _ _ w st) by assumption.
      simpl. rewrite lookup_app_r by lia.
      replace (length (Node.console w) + 3 - length (Node.console w))%nat with 3%nat by lia.
      reflexivity.
    + right. rewrite (node_run_completes _ _ _ _ _ _ _ _ _ w st) by assumption. simpl.
      rewrite lookup_app_r by lia.
      replace (length (Node.console w) + 3 - length (Node.console w))%nat with 3%nat by lia.
      reflexivity.
  - intros Hs. apply node_run_spread_throws; assumption.
Qed.


(** C3.  For every index [i] below the number of records the placement is
    [row = i div gridSize], [col = i mod gridSize], [x = col * cellWidth],
    [y = row * cellHeight], the products being those of binary64; they are
    the exact integer products when the sheet stays below [2 ^ 53].  When
    every image decodes, the loop finishes, draws the [k]-th record at the
    offsets of index [k], in input order, and stores them under its file
    name; two distinct indices never share a cell. *)
Theorem C3_row_major_placement
    (imagesMetadata : list (@ImageMeta Image)) (options : Options) :
  1 <= imageCount imagesMetadata < 2 ^ 32 ->
  (forall i, 0 <= i < imageCount imagesMetadata ->
     row imagesMetadata i = i / gridSize imagesMetadata /\
     col imagesMetadata i = i mod gridSize imagesMetadata /\
     Node.x imagesMetadata options i =
       number_mul (Float64.of_int (i mod gridSize imagesMetadata))
                  (Node.maxCellWidth imagesMetadata options) /\
     Node.y imagesMetadata options i =
       number_mul (Float64.of_int (i / gridSize imagesMetadata))
                  (Node.maxCellHeight imagesMetadata options)) /\
  (0 <= padding options ->
   Forall (fun r => 0 <= width r /\ 0 <= height r /\
                    gridSize imagesMetadata * (width r + padding options) < 2 ^ 53 /\
                    gridSize imagesMetadata * (height r + padding options) < 2 ^ 53)
          imagesMetadata ->
   exists cw ch,
     integer_value (Node.maxCellWidth imagesMetadata options) = Some cw /\
     integer_value (Node.maxCellHeight imagesMetadata options) = Some ch /\
     forall i, 0 <= i < imageCount imagesMetadata ->
       integer_value (Node.x imagesMetadata options i) =
         Some ((i mod gridSize imagesMetadata) * cw) /\
       integer_value (Node.y imagesMetadata options i) =
         Some ((i / gridSize imagesMetadata) * ch)) /\
  (Forall (fun r => is_Some (toBuffer (image r))) imagesMetadata ->
   exists st,
     Node.loop toBuffer imagesMetadata options 0 imagesMetadata init = Some st /\
     length (Node.composites st) = length imagesMetadata /\
     forall k r, imagesMetadata !! k = Some r ->
       (exists buf,
          toBuffer (image r) = Some buf /\
          Node.composites st !! k =
          Some {| Node.input := buf;
                  Node.left :=
                    number_mul (Float64.of_int (Z.of_nat k mod gridSize imagesMetadata))
                               (Node.maxCellWidth imagesMetadata options);
                  Node.top :=
                    number_mul (Float64.of_int (Z.of_nat k / gridSize imagesMetadata))
                               (Node.maxCellHeight imagesMetadata options) |}) /\
       ((forall k' r', (k < k')%nat -> imagesMetadata !! k' = Some r' ->
                       filename r' <> filename r) ->
        Node.positions st !! filename r =
        Some {| Node.pos_x :=
                  number_mul (Float64.of_int (Z.of_nat k mod gridSize imagesMetadata))
                             (Node.maxCellWidth imagesMetadata options);
                Node.pos_y :=
                  number_mul (Float64.of_int (Z.of_nat k / gridSize imagesMetadata))
                             (Node.maxCellHeight imagesMetadata options);
                Node.pos_width := width r;
                Node.pos_height := height r |})) /\
  (forall i j,
     0 <= i < imageCount imagesMetadata -> 0 <= j < imageCount imagesMetadata ->
     (row imagesMetadata i, col imagesMetadata i) =
     (row imagesMetadata j, col imagesMetadata j) ->
     i = j).
Proof.
  intros Hn.
  assert (Hxy : forall i, 0 <= i < imageCount imagesMetadata ->
     row imagesMetadata i = i / gridSize imagesMetadata /\
     col imagesMetadata i = i mod gridSize imagesMetadata /\
     Node.x imagesMetadata options i =
       number_mul (Float64.of_int (i mod gridSize imagesMetadata))
                  (Node.maxCellWidth imagesMetadata options) /\
     Node.y imagesMetadata options i =
       number_mul (Float64.of_int (i / gridSize imagesMetadata))
                  (Node.maxCellHeight imagesMetadata options)).
  { intros i Hi. unfold Node.x, Node.y. rewrite row_div, col_mod by assumption. auto. }
  assert (Hne : imagesMetadata <> []) by (apply imageCount_pos_iff; lia).
  split; [exact Hxy|]. split; [|split].
  - intros Hpad Hall.
    destruct (sheet_in_range imagesMetadata options Hne Hall) as (Hsz & Hsw & Hsh).
    destruct (cell_in_range imagesMetadata options Hn Hsz Hpad Hsw Hsh)
      as (Hw0 & Hh0 & Hcw & Hch).
    exists (maxCellWidth imagesMetadata options), (maxCellHeight imagesMetadata options).
    rewrite (node_maxCellWidth_exact imagesMetadata options Hn Hsz Hpad Hsw Hsh).
    rewrite (node_maxCellHeight_exact imagesMetadata options Hn Hsz Hpad Hsw Hsh).
    split; [apply Float64_exact.integer_value_of_int; unfold maxCellWidth in *; lia|].
    split; [apply Float64_exact.integer_value_of_int; unfold maxCellHeight in *; lia|].
    intros i Hi.
    destruct (node_x_exact imagesMetadata options Hn Hsz Hpad Hsw Hsh i Hi) as [Ex Hx].
    destruct (node_y_exact imagesMetadata options Hn Hsz Hpad Hsw Hsh i Hi) as [Ey Hy].
    rewrite Ex, Ey, !Float64_exact.integer_value_of_int by assumption.
    unfold x, y. rewrite row_div, col_mod by assumption. auto.
  - intros Hbuf.
    destruct (proj2 (node_loop_is_Some toBuffer imagesMetadata options 0 _ init) Hbuf)
      as [st Hl].
    exists st. split; [exact Hl|].
    destruct (node_loop_composites toBuffer imagesMetadata options _ _ _ _ Hl)
      as (Hlen & _ & Hnew).
    split; [exact Hlen|]. intros k r Hk.
    assert (Hki : 0 <= Z.of_nat k < imageCount imagesMetadata).
    { apply lookup_lt_Some in Hk. unfold imageCount. lia. }
    destruct (Hxy _ Hki) as (_ & _ & Hx & Hy). split.
    + destruct (Hnew k r Hk) as (buf & Hb & Hc). exists buf. split; [exact Hb|].
      rewrite Z.add_0_l in Hc. simpl in Hc. rewrite Hc.
      unfold Node.composite_at. rewrite Hx, Hy. reflexivity.
    + intros Hlast.
      rewrite (node_loop_lookup_last toBuffer imagesMetadata options _ _ _ _ k r Hl Hk Hlast).
      unfold Node.position_at. rewrite Z.add_0_l, Hx, Hy. reflexivity.
  - intros i j Hi Hj [= Hr Hc]. exact (row_col_inj imagesMetadata i j Hn Hi Hj Hr Hc).
Qed.



(** X7.  The JSON document agrees with the picture that is written.  On a
    run that completes, the PNG file holds one composite per record, in the
    order of the records: the [k]-th one is the buffer [toBuffer] gave for
    the [k]-th record, at the offsets of index [k].  Every entry of the
    [images] mapping of the JSON file describes one of them: the last record
    of that file name, drawn at the offsets of the entry, with the size the
    entry states.  The earlier records of a repeated file name are on the
    sheet without an entry. *)
Theorem X7_entries_describe_drawn_images
    (imagesMetadata : list (@ImageMeta Image)) (options : Options)
    (outputDir : string) (w w' : @Node.world Buffer) :
  Node.generateSpriteFromDirectory toBuffer toFile_ok writeFileSync_ok path_join
    spread_ok create_ok imagesMetadata options outputDir w = (w', inr tt) ->
  exists png img json doc,
    Node.files w' =
      Node.files w ++ [(png, Node.PngFile img); (json, Node.JsonFile doc)] /\
    length (Node.composited img) = length imagesMetadata /\
    (forall k r, imagesMetadata !! k = Some r ->
       exists buf, toBuffer (image r) = Some buf /\
         Node.composited img !! k =
           Some {| Node.input := buf;
                   Node.left := Node.x imagesMetadata options (Z.of_nat k);
                   Node.top := Node.y imagesMetadata options (Z.of_nat k) |}) /\
    (forall f e, Node.json_images doc !! f = Some e ->
       exists k r buf,
         imagesMetadata !! k = Some r /\ filename r = f /\
         (forall k' r', (k < k')%nat -> imagesMetadata !! k' = Some r' ->
                        filename r' <> f) /\
         toBuffer (image r) = Some buf /\
         Node.composited img !! k =
           Some {| Node.input := buf; Node.left := Node.pos_x e;
                   Node.top := Node.pos_y e |} /\
         Node.pos_width e = width r /\ Node.pos_height e = height r).
Proof.
  intros Hrun.
  apply node_run_inr_inv in Hrun as (st & _ & _ & _ & _ & Hl & _ & _ & ->).
  do 4 eexists. split; [reflexivity|]. simpl.
  destruct (node_loop_composites toBuffer imagesMetadata options _ _ _ _ Hl)
    as (Hlen & _ & Hnew).
  split; [exact Hlen|]. split.
  - intros k r Hk. destruct (Hnew k r Hk) as (buf & Hbuf & Hc).
    exists buf. split; [exact Hbuf|]. rewrite Z.add_0_l in Hc. exact Hc.
  - intros f e He.
    destruct (node_loop_lookup_inv toBuffer imagesMetadata options _ _ _ _ _ _ Hl He)
      as [H|(k0 & r0 & Hk0 & Hf0 & _)]; [discriminate|].
    destruct (last_index_with_name imagesMetadata f) as (k & r & Hk & Hf & Hlast);
      [eauto|].
    assert (Hlast' : forall k' r', (k < k')%nat -> imagesMetadata !! k' = Some r' ->
                                   filename r' <> filename r)
      by (rewrite Hf; exact Hlast).
    pose proof (node_loop_lookup_last toBuffer imagesMetadata options _ _ _ _ k r
                  Hl Hk Hlast') as Hpos.
    rewrite Hf, He in Hpos. injection Hpos as ->.
    destruct (Hnew k r Hk) as (buf & Hbuf & Hc).
    exists k, r, buf. repeat split; auto.
Qed.

End Node_claims.

Section Node_directory_runs.

Context {Image Buffer : Type}.
Variable extname : string -> string.
Variable toLowerCase : string -> string.
Variable path_join : string -> string -> string.
Variable basename : string -> string.
Variable sharp : string -> Image.
Variable metadata : Image -> option (Z * Z).
Variable toBuffer : Image -> option Buffer.
Variable toFile_ok : @Node.SpriteImage Buffer -> string -> bool.
Variable writeFileSync_ok : string -> bool.
Variable spread_ok : nat -> bool.
Variable create_ok : spec_float -> spec_float -> bool.


End Node_directory_runs.

(** ** Concrete runs in binary64 *)

(** Scenario B as Node.js computes it. *)
Example node_scenario_B :
  integer_value (Node.maxCellWidth four_images (sample_options 10 4096)) = Some 60 /\
  integer_value (Node.spriteWidth four_images (sample_options 10 4096)) = Some 120 /\
  (node_sample_run four_images (sample_options 10 4096)).2 = inr tt.
Proof. vm_compute. repeat split. Qed.

(** One image of 100 x 100 with a padding of -100: the sheet is 0 x 0, the
    size check passes and sharp rejects the canvas. *)
Example empty_canvas_is_rejected :
  node_sample_run one_image (sample_options (-100) 4096) =
  ({| Node.files := [];
      Node.console :=
        [Node.spinner_start Node.ScanningImageDirectory;
         Node.spinner_succeed (Node.FoundImages 1);
         Node.spinner_succeed (Node.CalculatedLayout 1);
         Node.spinner_succeed (Node.SpriteDimensions (S754_zero false) (S754_zero false));
         Node.spinner_fail Node.ErrorMessage] |},
   inl (ProcessExit 1)).
Proof. vm_compute. reflexivity. Qed.

(** More records than the engine takes as arguments: the run ends at line
    73, before any size is computed. *)
Example too_many_records :
  node_sample_run (replicate (Z.to_nat 125001) (sample_meta "a.png" 1 1 0))
    (sample_options 0 4096) =
  ({| Node.files := [];
      Node.console :=
        [Node.spinner_start Node.ScanningImageDirectory;
         Node.spinner_succeed (Node.FoundImages 125001);
         Node.spinner_fail Node.ErrorMessage] |},
   inl (ProcessExit 1)).
Proof. vm_compute. reflexivity. Qed.

(** ** The claims in binary64 at sample inputs *)

(** C2, as stated, fails: with one image of width 1 and a padding of
    [2 ^ 53], the largest width plus the padding is 9007199254740993, and
    the cell width that the program computes is 9007199254740992; the run
    prints it, as the width of the sheet, in the message of the size
    check. *)
Lemma C2_counterexample :
  let imagesMetadata := [sample_meta "a.png" 1 1 0] in
  let options := sample_options (2 ^ 53) 4096 in
  imagesMetadata <> [] /\ 0 <= padding options /\
  width <$> imagesMetadata = [1] /\
  1 + padding options = 9007199254740993 /\
  integer_value (Node.maxCellWidth imagesMetadata options) = Some 9007199254740992 /\
  integer_value (Node.maxCellWidth imagesMetadata options)
    <> Some (1 + padding options) /\
  node_sample_run imagesMetadata options =
  ({| Node.files := [];
      Node.console :=
        [Node.spinner_start Node.ScanningImageDirectory;
         Node.spinner_succeed (Node.FoundImages 1);
         Node.spinner_fail
           (Node.DimensionsExceedMaximum (Float64.of_int 9007199254740992)
              (Float64.of_int 9007199254740992) (Float64.of_int 4096))] |},
   inl (ProcessExit 1)).
Proof.
  cbv zeta. split; [discriminate|]. split; [discriminate|].
  split; [reflexivity|]. split; [reflexivity|].
  split; [vm_compute; reflexivity|]. split; [vm_compute; discriminate|].
  vm_compute. reflexivity.
Qed.

Lemma C2_witness :
  1 <= imageCount four_images < 2 ^ 32 /\
  0 <= padding (sample_options 10 4096) /\
  exists rw,
    rw ∈ four_images /\ (forall r, r ∈ four_images -> width r <= width rw) /\
    integer_value (Node.maxCellWidth four_images (sample_options 10 4096))
      = Some (width rw + 10) /\
    integer_value (Node.spriteWidth four_images (sample_options 10 4096))
      = Some (gridSize four_images * (width rw + 10)).
Proof.
  assert (H1 : 1 <= imageCount four_images < 2 ^ 32)
    by (vm_compute; split; [discriminate|reflexivity]).
  assert (H2 : 0 <= padding (sample_options 10 4096)) by (vm_compute; discriminate).
  split; [exact H1|]. split; [exact H2|].
  destruct (C2_cell_and_sheet_dimensions (Buffer := nat) Some (fun _ _ => true)
              (fun _ => true) sample_join sample_spread_ok sample_create_ok
              four_images (sample_options 10 4096) "output" node_sample_world H1 H2)
    as (rw & rh & Hrw & Hwmax & _ & _ & _ & _ & _ & _ & Hcw & _ & Hsw & _).
  - repeat constructor; vm_compute; congruence.
  - exists rw. auto.
Defined.

Lemma C3_witness :
  1 <= imageCount four_images < 2 ^ 32 /\
  Forall (fun r : @ImageMeta nat => is_Some (Some (image r))) four_images /\
  exists st,
    node_sample_loop four_images (sample_options 10 4096) = Some st /\
    length (Node.composites st) = length four_images /\
    exists buf,
      Node.composites st !! 3%nat =
      Some {| Node.input := buf;
              Node.left :=
                number_mul (Float64.of_int (3 mod gridSize four_images))
                  (Node.maxCellWidth four_images (sample_options 10 4096));
              Node.top :=
                number_mul (Float64.of_int (3 / gridSize four_images))
                  (Node.maxCellHeight four_images (sample_options 10 4096)) |}.
Proof.
  assert (H1 : 1 <= imageCount four_images < 2 ^ 32)
    by (vm_compute; split; [discriminate|reflexivity]).
  assert (H2 : Forall (fun r : @ImageMeta nat => is_Some (Some (image r))) four_images)
    by (repeat constructor; eexists; reflexivity).
  split; [exact H1|]. split; [exact H2|].
  destruct (C3_row_major_placement (Buffer := nat) Some four_images
              (sample_options 10 4096) H1) as (_ & _ & Hloop & _).
  destruct (Hloop H2) as (st & Hl & Hlen & Hk).
  exists st. split; [exact Hl|]. split; [exact Hlen|].
  destruct (Hk 3%nat (sample_meta "d.png" 50 50 3) eq_refl) as [(buf & _ & Hc) _].
  exists buf. exact Hc.
Defined.



Lemma X7_witness :
  exists w' png img json doc,
    node_sample_run twins (sample_options 0 4096) = (w', inr tt) /\
    Node.files w' =
      Node.files node_sample_world ++
      [(png, Node.PngFile img); (json, Node.JsonFile doc)] /\
    length (Node.composited img) = length twins /\
    (forall f e, Node.json_images doc !! f = Some e ->
       exists k r buf,
         twins !! k = Some r /\ filename r = f /\
         Node.composited img !! k =
           Some {| Node.input := buf; Node.left := Node.pos_x e;
                   Node.top := Node.pos_y e |}).
Proof.
  eexists.
  match goal with
  | |- exists png img json doc, node_sample_run ?r ?o = (?w', _) /\ _ =>
      assert (Hrun : node_sample_run r o = (w', inr tt)) by (vm_compute; reflexivity);
      destruct (X7_entries_describe_drawn_images Some (fun _ _ => true) (fun _ => true)
                  sample_join sample_spread_ok sample_create_ok
                  r o "output" node_sample_world w' Hrun)
        as (png & img & json & doc & Hfiles & Hlen & _ & Hent)
  end.
  exists png, img, json, doc. split; [exact Hrun|]. split; [exact Hfiles|].
  split; [exact Hlen|]. intros f e He.
  destruct (Hent f e He) as (k & r & buf & Hk & Hf & _ & _ & Hc & _).
  exists k, r, buf. auto.
Defined.
